(** * Chain Sentinel: the detection pipeline of the Sei threat detector

    A shallow embedding of the TypeScript sources

      - detectors/local-threat-detector.ts  (LocalThreatDetector)
      - services/hive-intelligence.ts       (HiveIntelligenceService)
      - detectors/threat-processor.ts       (ThreatProcessor)

    together with the properties the specification states about them.

    Conventions of the embedding.

      - A JavaScript number is a [number]: NaN, a signed infinity or an
        exact rational.  IEEE rounding and the sign of zero are not
        modelled; every comparison and every operation is otherwise the
        JavaScript one (comparisons with NaN are false, [x / 0] is
        infinite, ...).
      - Strings are byte strings; [String.length] stands for [.length].
      - [Date.now()] is an explicit argument: the clock readings are part
        of the input of every function that reads the clock.
      - The network, the log and the timers are recorded as a trace of
        [event]s, in program order. *)

From Stdlib Require Import Ascii QArith Qabs Lqa.
From stdpp Require Import base list strings gmap pretty.

Local Open Scope Z_scope.

(* ===================================================================== *)
(** ** JavaScript numbers *)
(* ===================================================================== *)

Module JS.

Inductive number : Type :=
  | NaN
  | Inf (negative : bool)
  | Fin (q : Q).

Definition Qltb (x y : Q) : bool :=
  (Qnum x * Zpos (Qden y) <? Qnum y * Zpos (Qden x))%Z.

Definition Qzero (x : Q) : bool := (Qnum x =? 0)%Z.
Definition Qneg (x : Q) : bool := (Qnum x <? 0)%Z.

(** [a > b] *)
Definition gt (a b : number) : bool :=
  match a, b with
  | Fin x, Fin y => Qltb y x
  | Inf false, Fin _ => true
  | Inf false, Inf true => true
  | Fin _, Inf true => true
  | _, _ => false
  end.

(** [a + b] *)
Definition add (a b : number) : number :=
  match a, b with
  | Fin x, Fin y => Fin (x + y)
  | Inf s, Fin _ | Fin _, Inf s => Inf s
  | Inf s, Inf s' => if Bool.eqb s s' then Inf s else NaN
  | _, _ => NaN
  end.

(** [a * b] *)
Definition mul (a b : number) : number :=
  match a, b with
  | Fin x, Fin y => Fin (x * y)
  | Inf s, Fin y | Fin y, Inf s => if Qzero y then NaN else Inf (xorb s (Qneg y))
  | Inf s, Inf s' => Inf (xorb s s')
  | _, _ => NaN
  end.

(** [a / b] *)
Definition div (a b : number) : number :=
  match a, b with
  | Fin x, Fin y =>
      if Qzero y then (if Qzero x then NaN else Inf (Qneg x)) else Fin (x / y)
  | Fin _, Inf _ => Fin 0
  | Inf s, Fin y => Inf (xorb s (Qneg y))
  | _, _ => NaN
  end.

(** [Math.min(a, b)] *)
Definition Math_min (a b : number) : number :=
  match a, b with
  | NaN, _ | _, NaN => NaN
  | _, _ => if gt a b then b else a
  end.

Definition of_Z (z : Z) : number := Fin (inject_Z z).
Definition of_nat (n : nat) : number := of_Z (Z.of_nat n).

(** Equality of numbers up to the representation of the fraction. *)
Definition eqv (a b : number) : Prop :=
  match a, b with
  | NaN, NaN => True
  | Inf s, Inf s' => s = s'
  | Fin x, Fin y => x == y
  | _, _ => False
  end.

(** *** [parseInt(s, 16)] *)

Definition is_space (c : ascii) : bool :=
  let n := Ascii.N_of_ascii c in
  ((n =? 32) || (n =? 9) || (n =? 10) || (n =? 11) || (n =? 12) || (n =? 13))%N.

Definition hex_digit (c : ascii) : option Z :=
  let n := Z.of_N (Ascii.N_of_ascii c) in
  if (48 <=? n) && (n <=? 57) then Some (n - 48)
  else if (65 <=? n) && (n <=? 70) then Some (n - 55)
  else if (97 <=? n) && (n <=? 102) then Some (n - 87)
  else None.

Fixpoint skip_space (s : string) : string :=
  match s with
  | String c s' => if is_space c then skip_space s' else s
  | EmptyString => s
  end.

Definition strip_sign (s : string) : bool * string :=
  match s with
  | String "-"%char s' => (true, s')
  | String "+"%char s' => (false, s')
  | _ => (false, s)
  end.

Definition strip_0x (s : string) : string :=
  match s with
  | String "0"%char (String "x"%char s') => s'
  | String "0"%char (String "X"%char s') => s'
  | _ => s
  end.

(** The value of the longest prefix of hexadecimal digits, [None] when the
    string does not start with a digit. *)
Fixpoint hex_digits (s : string) (acc : option Z) : option Z :=
  match s with
  | String c s' =>
      match hex_digit c with
      | Some d => hex_digits s' (Some (16 * default 0 acc + d))
      | None => acc
      end
  | EmptyString => acc
  end.

(** [parseInt(s, 16)].  The value is the integer that the digits denote:
    the rounding to the nearest double, which sets in above 2^53, and the
    overflow to an infinity are not modelled. *)
Definition parseInt16 (s : string) : number :=
  let '(negative, body) := strip_sign (skip_space s) in
  match hex_digits (strip_0x body) None with
  | Some m => of_Z (if negative then - m else m)
  | None => NaN
  end.

(** *** String methods *)

(** [s.includes(needle)] *)
Fixpoint includes (s needle : string) : bool :=
  String.prefix needle s ||
  match s with
  | String _ s' => includes s' needle
  | EmptyString => false
  end.

(** No ['-'] occurs in the string. *)
Fixpoint dashless (s : string) : bool :=
  match s with
  | String c s' => negb (Ascii.eqb c "-") && dashless s'
  | EmptyString => true
  end.

Definition lower_char (c : ascii) : ascii :=
  let n := Ascii.N_of_ascii c in
  if ((65 <=? n) && (n <=? 90))%N then Ascii.ascii_of_N (n + 32) else c.

(** [s.toLowerCase()] on the ASCII range: the letters A to Z are lowered,
    every other byte is kept (the letters outside ASCII that JavaScript
    lowers as well are not modelled). *)
Fixpoint toLowerCase (s : string) : string :=
  match s with
  | String c s' => String (lower_char c) (toLowerCase s')
  | EmptyString => EmptyString
  end.

End JS.

(* ===================================================================== *)
(** ** types/index.ts *)
(* ===================================================================== *)

Record ThreatThresholds : Type := {
  liquidityDrain : JS.number;
  unusualVolumeSpike : JS.number;
  gasAnomalyThreshold : JS.number;
  rugPullVelocityThreshold : JS.number;
  flashLoanMinValue : JS.number
}.

Record HiveConfig : Type := {
  apiKey : option string;
  endpoint : option string;
  enabled : bool
}.

Record MitigationConfig : Type := {
  mitigation_enabled : bool;
  autoFreeze : bool;
  emergencyPause : bool;
  maxGas : JS.number
}.

Record DetectorConfig : Type := {
  threatThresholds : ThreatThresholds;
  hiveIntelligence : HiveConfig;
  mitigation : MitigationConfig
}.

Inductive ThreatType : Type :=
  | rug_pull | exploit | suspicious_pattern | flash_loan_attack
  | liquidity_drain | mev_attack | sandwich_attack.

Inductive Severity : Type := low | medium | high | critical.

#[global] Instance ThreatType_eq_dec : EqDecision ThreatType.
Proof. solve_decision. Defined.
#[global] Instance Severity_eq_dec : EqDecision Severity.
Proof. solve_decision. Defined.

(** [RealTransaction].  [to] is [None] for the [null] recipient that the
    RPC reports for a contract creation. *)
Record RealTransaction : Type := {
  hash : string;
  blockNumber : string;
  from : string;
  to : option string;
  value : string;
  gas : string;
  gasPrice : string;
  input : string;
  timestamp : JS.number
}.

(** The values stored under [details] (typed [any] in the source). *)
Inductive detail : Type :=
  | DNum (n : JS.number)
  | DStr (s : string)
  | DBool (b : bool)
  | DList (l : list string)
  | DRisk (risk : JS.number) (indicators : list string).

Record ThreatAlert : Type := {
  id : string;
  type : ThreatType;
  severity : Severity;
  contractAddress : string;
  transactionHash : string;
  alert_timestamp : JS.number;
  alert_blockNumber : JS.number;
  details : list (string * detail);
  confidence : JS.number;
  mitigated : bool
}.

Record RiskInfo : Type := {
  risk : JS.number;
  indicators : list string
}.

Record HiveAnalysis : Type := {
  threats : list string;
  dataSources : list string;
  rawResponse : string;
  rugPull : option RiskInfo;
  flashLoan : option RiskInfo;
  mev : option RiskInfo;
  overallRisk : JS.number;
  analysis_confidence : JS.number
}.

(** JavaScript truthiness of [tx.to]: [null] and the empty string are falsy. *)
Definition truthy (o : option string) : bool :=
  match o with
  | Some s => negb (String.eqb s "")
  | None => false
  end.

(** [tx.to || ''] *)
Definition or_empty (o : option string) : string :=
  if truthy o then default "" o else "".

(** String conversion of [tx.to] inside a concatenation. *)
Definition to_string (o : option string) : string :=
  match o with
  | Some s => s
  | None => "null"
  end.

(** The template literal [`${prefix}_${tx.hash}_${Date.now()}`]. *)
Definition alert_id (prefix : string) (tx : RealTransaction) (now : Z) : string :=
  prefix +:+ "_" +:+ hash tx +:+ "_" +:+ pretty now.

(* ===================================================================== *)
(** ** detectors/local-threat-detector.ts *)
(* ===================================================================== *)

Module LocalThreatDetector.

(** The two private maps of the class. *)
Record state : Type := {
  recentTransactions : gmap string (list RealTransaction);
  contractInteractions : gmap string nat
}.

Definition init : state :=
  {| recentTransactions := ∅; contractInteractions := ∅ |}.

(** [tx.from + '-' + tx.to] *)
Definition pair_key (tx : RealTransaction) : string :=
  from tx +:+ "-" +:+ to_string (to tx).

Definition trackTransaction (st : state) (tx : RealTransaction) : state :=
  let key := pair_key tx in
  let recent :=
    match recentTransactions st !! key with
    | Some _ => recentTransactions st
    | None => <[key := []]> (recentTransactions st)
    end in
  let txList := default [] (recent !! key) in
  (* txList.push(tx) *)
  let pushed := txList ++ [tx] in
  (* if (txList.length > 10) txList.shift() *)
  let kept := if (10 <? length pushed)%nat then tail pushed else pushed in
  let recent' := <[key := kept]> recent in
  let interactions' :=
    match to tx with
    | Some addr =>
        if truthy (to tx) && negb (String.eqb (input tx) "0x") then
          let count := default 0%nat (contractInteractions st !! addr) in
          <[addr := (count + 1)%nat]> (contractInteractions st)
        else contractInteractions st
    | None => contractInteractions st
    end in
  {| recentTransactions := recent'; contractInteractions := interactions' |}.

Definition detectGasAnomalies (config : DetectorConfig) (tx : RealTransaction)
    (now : Z) : list ThreatAlert :=
  let gasPrice := JS.parseInt16 (gasPrice tx) in
  let threshold := gasAnomalyThreshold (threatThresholds config) in
  if JS.gt gasPrice threshold then
    [ {| id := alert_id "gas_anomaly" tx now;
         type := suspicious_pattern;
         severity := if JS.gt gasPrice (JS.mul threshold (JS.of_Z 2)) then high else medium;
         contractAddress := or_empty (to tx);
         transactionHash := hash tx;
         alert_timestamp := timestamp tx;
         alert_blockNumber := JS.parseInt16 (blockNumber tx);
         details := [ ("gasPrice", DNum gasPrice);
                      ("threshold", DNum threshold);
                      ("suspiciousPattern", DStr "extremely_high_gas_price");
                      ("possibleMEV", DBool true) ];
         confidence := JS.Math_min (JS.Fin 0.9)
                         (JS.mul (JS.div gasPrice threshold) (JS.Fin 0.3));
         mitigated := false |} ]
  else [].

Definition detectLargeValueTransfers (config : DetectorConfig) (tx : RealTransaction)
    (now : Z) : list ThreatAlert :=
  let value_ := JS.parseInt16 (value tx) in
  let minimum := flashLoanMinValue (threatThresholds config) in
  if JS.gt value_ minimum then
    [ {| id := alert_id "large_transfer" tx now;
         type := suspicious_pattern;
         severity := if JS.gt value_ (JS.mul minimum (JS.of_Z 10)) then high else medium;
         contractAddress := or_empty (to tx);
         transactionHash := hash tx;
         alert_timestamp := timestamp tx;
         alert_blockNumber := JS.parseInt16 (blockNumber tx);
         details := [ ("value", DStr (value tx));
                      ("valueWei", DNum value_);
                      ("suspiciousPattern", DStr "large_value_transfer");
                      ("inputDataSize", DNum (JS.of_nat (String.length (input tx)))) ];
         confidence := JS.Fin 0.6;
         mitigated := false |} ]
  else [].

(** [recentTxs.reduce((sum, rtx) => sum + parseInt(rtx.gasPrice, 16), 0)] *)
Definition sumGasPrice (recentTxs : list RealTransaction) : JS.number :=
  fold_left (fun sum rtx => JS.add sum (JS.parseInt16 (gasPrice rtx)))
            recentTxs (JS.of_Z 0).

Definition avgGasPrice (recentTxs : list RealTransaction) : JS.number :=
  JS.div (sumGasPrice recentTxs) (JS.of_nat (length recentTxs)).

Definition detectMEVActivity (config : DetectorConfig) (st : state)
    (tx : RealTransaction) (now : Z) : list ThreatAlert :=
  let gasPrice := JS.parseInt16 (gasPrice tx) in
  let threshold := gasAnomalyThreshold (threatThresholds config) in
  if JS.gt gasPrice (JS.mul threshold (JS.Fin 0.5))
     && (10 <? String.length (input tx))%nat then
    let key := pair_key tx in
    let recentTxs := default [] (recentTransactions st !! key) in
    if (2 <? length recentTxs)%nat then
      let avg := avgGasPrice recentTxs in
      if JS.gt gasPrice (JS.mul avg (JS.of_Z 3)) then
        [ {| id := alert_id "mev_activity" tx now;
             type := mev_attack;
             severity := medium;
             contractAddress := or_empty (to tx);
             transactionHash := hash tx;
             alert_timestamp := timestamp tx;
             alert_blockNumber := JS.parseInt16 (blockNumber tx);
             details := [ ("gasPrice", DNum gasPrice);
                          ("avgGasPrice", DNum avg);
                          ("gasPriceMultiplier", DNum (JS.div gasPrice avg));
                          ("suspiciousPattern", DStr "potential_mev_activity") ];
             confidence := JS.Fin 0.7;
             mitigated := false |} ]
      else []
    else []
  else [].

Definition detectSuspiciousPatterns (tx : RealTransaction) (now : Z)
    : list ThreatAlert :=
  if negb (truthy (to tx)) && (1000 <? String.length (input tx))%nat then
    [ {| id := alert_id "suspicious_contract" tx now;
         type := suspicious_pattern;
         severity := low;
         contractAddress := "";
         transactionHash := hash tx;
         alert_timestamp := timestamp tx;
         alert_blockNumber := JS.parseInt16 (blockNumber tx);
         details := [ ("suspiciousPattern", DStr "large_contract_creation");
                      ("inputSize", DNum (JS.of_nat (String.length (input tx)))) ];
         confidence := JS.Fin 0.4;
         mitigated := false |} ]
  else [].

Definition detectContractBehavior (st : state) (tx : RealTransaction) (now : Z)
    : list ThreatAlert :=
  match to tx with
  | Some addr =>
      if truthy (to tx) then
        let interactions := default 0%nat (contractInteractions st !! addr) in
        if (100 <? interactions)%nat then
          [ {| id := alert_id "high_frequency_contract" tx now;
               type := suspicious_pattern;
               severity := low;
               contractAddress := addr;
               transactionHash := hash tx;
               alert_timestamp := timestamp tx;
               alert_blockNumber := JS.parseInt16 (blockNumber tx);
               details := [ ("suspiciousPattern", DStr "high_frequency_interactions");
                            ("interactionCount", DNum (JS.of_nat interactions)) ];
               confidence := JS.Fin 0.5;
               mitigated := false |} ]
        else []
      else []
  | None => []
  end.

(** [detectThreats]: the bookkeeping first, then the five detectors in
    order.  [now k] is the clock reading of the [k]-th detector. *)
Definition detectThreats (config : DetectorConfig) (st : state)
    (tx : RealTransaction) (now : nat -> Z) : state * list ThreatAlert :=
  let st' := trackTransaction st tx in
  (st',
   detectGasAnomalies config tx (now 0%nat)
   ++ detectLargeValueTransfers config tx (now 1%nat)
   ++ detectMEVActivity config st' tx (now 2%nat)
   ++ detectSuspiciousPatterns tx (now 3%nat)
   ++ detectContractBehavior st' tx (now 4%nat)).

(** Processing a block's transactions in order. *)
Definition trackAll (st : state) (txs : list RealTransaction) : state :=
  fold_left trackTransaction txs st.

(** The window stored under a key ([recentTransactions.get(key) || []]). *)
Definition window (st : state) (key : string) : list RealTransaction :=
  default [] (recentTransactions st !! key).

(** [push] followed by the conditional [shift]. *)
Definition pushCapped (w : list RealTransaction) (tx : RealTransaction)
    : list RealTransaction :=
  if (10 <? length (w ++ [tx]))%nat then tail (w ++ [tx]) else w ++ [tx].


(** The gas price of the entry does not parse to a negative number. *)
Definition unsignedGas (rtx : RealTransaction) : Prop :=
  JS.gt (JS.of_Z 0) (JS.parseInt16 (gasPrice rtx)) = false.

(** The transactions of a sequence that carry a given key, in order. *)
Definition between (key : string) (txs : list RealTransaction) : list RealTransaction :=
  filter (fun tx => pair_key tx = key) txs.

End LocalThreatDetector.

(* ===================================================================== *)
(** ** Effects *)
(* ===================================================================== *)

(** The prompt sent to the search endpoint: the values that fill the holes
    of the template of [createAnalysisPrompt], in order (the fixed text of
    the template is left out). *)
Record AnalysisPrompt : Type := {
  prompt_hash : string;
  prompt_from : string;
  prompt_to : string;
  prompt_valueInEth : JS.number;
  prompt_gasPrice : JS.number;
  prompt_inputLength : nat
}.

(** What a call leaves behind, in program order. *)
Inductive event : Type :=
  | Log (msg : string)                    (* console.log / warn / error *)
  | RateCheck (now : Z)                   (* canMakeRequest() *)
  | Post (attempt : nat) (prompt : AnalysisPrompt) (* axios.post(.../v1/search) *)
  | RecordRequest (now : Z)               (* recordRequest() *)
  | Delay (ms : Z)                        (* setTimeout(resolve, ms) *)
  | SendAlert (threat : ThreatAlert)      (* socialAlerts.sendAlert(threat) *)
  | Mitigation (threat : ThreatAlert).    (* executeMitigation(threat) *)

(** How a piece of code ends: with a value or with an exception. *)
Inductive completion (A : Type) : Type :=
  | Normal (a : A)
  | Throw (name : string).
Arguments Normal {A} a.
Arguments Throw {A} name.

(* ===================================================================== *)
(** ** services/hive-intelligence.ts *)
(* ===================================================================== *)

Module HiveIntelligenceService.

Definition retryCount : nat := 2.
Definition retryDelay : Z := 1000.
Definition maxRequestsPerMinute : nat := 18.

Record state : Type := {
  requestCount : nat;
  requestTimestamps : list Z
}.

Definition init : state := {| requestCount := 0; requestTimestamps := [] |}.

(** The [response] property of the body of the HTTP answer. *)
Inductive ResponseField : Type :=
  | RespFalsy                (* undefined, null, 0, false *)
  | RespString (s : string)
  | RespOther.               (* a truthy value that is not a string *)

(** [response.data] of the HTTP answer. *)
Inductive SearchData : Type :=
  | DataFalsy
  | DataObject (response : ResponseField) (data_sources : option (list string)).

(** The outcome of one [axios.post]: the body, or a rejection carrying
    [error.response?.status]. *)
Inductive PostResult : Type :=
  | PostOk (data : SearchData)
  | PostError (status : option Z).

(** What one call of [analyzeTransaction] meets outside the program. *)
Record world : Type := {
  clockCheck : Z;                (* Date.now() inside canMakeRequest *)
  post : nat -> PostResult;      (* the answer to attempt k *)
  clockRecord : nat -> Z         (* Date.now() inside recordRequest, attempt k *)
}.

Definition purge (now : Z) (timestamps : list Z) : list Z :=
  let oneMinuteAgo := now - 60000 in
  filter (fun timestamp => oneMinuteAgo < timestamp) timestamps.

Definition canMakeRequest (st : state) (now : Z) : bool * state :=
  let st' := {| requestCount := requestCount st;
                requestTimestamps := purge now (requestTimestamps st) |} in
  ((length (requestTimestamps st') <? maxRequestsPerMinute)%nat, st').

Definition recordRequest (st : state) (now : Z) : state :=
  {| requestCount := S (requestCount st);
     requestTimestamps := requestTimestamps st ++ [now] |}.

Definition extractRiskScore (text threatType : string) : JS.number :=
  if JS.includes text "high risk" || JS.includes text "critical" then JS.Fin 0.9
  else if JS.includes text "medium risk" || JS.includes text "moderate" then JS.Fin 0.6
  else if JS.includes text "low risk" || JS.includes text "minimal" then JS.Fin 0.3
  else if JS.includes text "suspicious" || JS.includes text "concerning" then JS.Fin 0.7
  else if JS.includes text "no risk" || JS.includes text "safe" then JS.Fin 0.1
  else if JS.includes text threatType then JS.Fin 0.5 else JS.Fin 0.0.

Definition extractIndicators (text : string) (keywords : list string) : list string :=
  filter (fun keyword => JS.includes text keyword = true) keywords.

Definition extractOverallRisk (text : string) : JS.number :=
  if JS.includes text "high risk" || JS.includes text "dangerous" then JS.Fin 0.8
  else if JS.includes text "medium risk" || JS.includes text "moderate risk" then JS.Fin 0.5
  else if JS.includes text "low risk" || JS.includes text "minimal risk" then JS.Fin 0.2
  else JS.Fin 0.3.

Definition extractConfidence (text : string) : JS.number :=
  if JS.includes text "confident" || JS.includes text "certain" then JS.Fin 0.9
  else if JS.includes text "likely" || JS.includes text "probable" then JS.Fin 0.7
  else if JS.includes text "possible" || JS.includes text "might" then JS.Fin 0.5
  else if JS.includes text "uncertain" || JS.includes text "unclear" then JS.Fin 0.3
  else JS.Fin 0.6.

Definition category (response : string) (present : bool) (threatType : string)
    (keywords : list string) : option RiskInfo :=
  if present then
    Some {| risk := extractRiskScore response threatType;
            indicators := extractIndicators response keywords |}
  else None.

Definition parseSearchResponse (searchData : SearchData)
    : completion (option HiveAnalysis) :=
  match searchData with
  | DataFalsy => Normal None
  | DataObject RespFalsy _ => Normal None
  | DataObject RespOther _ => Throw "TypeError"  (* .toLowerCase is not a function *)
  | DataObject (RespString raw) data_sources =>
      if String.eqb raw "" then Normal None
      else
        let response := JS.toLowerCase raw in
        Normal (Some
          {| threats := [];
             dataSources := default [] data_sources;
             rawResponse := raw;
             overallRisk := extractOverallRisk response;
             analysis_confidence := extractConfidence response;
             rugPull :=
               category response
                 (JS.includes response "rug pull" || JS.includes response "exit scam")
                 "rug pull" ["rug pull"; "exit scam"; "liquidity"];
             flashLoan :=
               category response
                 (JS.includes response "flash loan" || JS.includes response "arbitrage")
                 "flash loan" ["flash loan"; "arbitrage"; "exploit"];
             mev :=
               category response
                 (JS.includes response "mev" || JS.includes response "front-running"
                  || JS.includes response "sandwich")
                 "mev" ["mev"; "front-running"; "sandwich"] |})
  end.

Definition createAnalysisPrompt (tx : RealTransaction) : AnalysisPrompt :=
  let value_ := JS.parseInt16 (value tx) in
  let gasPrice := JS.parseInt16 (gasPrice tx) in
  let valueInEth := JS.div value_ (JS.of_Z (10 ^ 18)) in
  {| prompt_hash := hash tx;
     prompt_from := from tx;
     prompt_to := if truthy (to tx) then default "" (to tx) else "Contract Creation";
     prompt_valueInEth := valueInEth;
     prompt_gasPrice := gasPrice;
     prompt_inputLength := String.length (input tx) |}.

(** The eligibility test: high value, high gas price or a long payload. *)
Definition eligible (config : DetectorConfig) (tx : RealTransaction) : bool :=
  let value_ := JS.parseInt16 (value tx) in
  let gasPrice := JS.parseInt16 (gasPrice tx) in
  let isHighValue := JS.gt value_ (flashLoanMinValue (threatThresholds config)) in
  let isHighGas := JS.gt gasPrice (gasAnomalyThreshold (threatThresholds config)) in
  let hasComplexInput := (100 <? String.length (input tx))%nat in
  negb (negb isHighValue && negb isHighGas && negb hasComplexInput).

(** The message logged on the last failed attempt; the last case prints
    [error.response?.status || 'network error']. *)
Definition failureMessage (status : option Z) : string :=
  match status with
  | Some 401 => "Hive Intelligence authentication failed - check API key"
  | Some 429 => "Hive Intelligence rate limit exceeded"
  | Some s =>
      if 500 <=? s then "Hive Intelligence server error"
      else if s =? 0 then "Hive Intelligence unavailable (network error)"
      else "Hive Intelligence unavailable (" +:+ pretty s +:+ ")"
  | None => "Hive Intelligence unavailable (network error)"
  end.

Definition result : Type := completion (option HiveAnalysis) * state * list event.

(** The [catch] block of the retry loop, followed by the rest of the
    loop; [continue] is the next iteration. *)
Definition catch (attempt : nat) (status : option Z) (st : state)
    (trace : list event) (continue : state -> result) : result :=
  if (attempt =? retryCount)%nat then
    (Normal None, st, trace ++ [Log (failureMessage status)])
  else
    let '(r, st', trace') := continue st in
    (r, st', trace ++ [Delay (retryDelay * Z.of_nat attempt)] ++ trace').

(** [for (let attempt = ...; attempt <= this.retryCount; attempt++)]:
    [remaining] bounds the iterations left, so that the loop is
    structurally recursive. *)
Fixpoint attempts (remaining : nat) (attempt : nat) (tx : RealTransaction)
    (w : world) (st : state) : result :=
  match remaining with
  | O => (Normal None, st, [])
  | S remaining' =>
      if (attempt <=? retryCount)%nat then
        let sent := [Post attempt (createAnalysisPrompt tx)] in
        match post w attempt with
        | PostOk data =>
            let now := clockRecord w attempt in
            let st1 := recordRequest st now in
            let trace := sent ++ [RecordRequest now] in
            match parseSearchResponse data with
            | Normal r => (Normal r, st1, trace)
            | Throw _ =>
                catch attempt None st1 trace
                      (attempts remaining' (S attempt) tx w)
            end
        | PostError status =>
            catch attempt status st sent
                  (attempts remaining' (S attempt) tx w)
        end
      else (Normal None, st, [])
  end.

Definition analyzeTransaction (config : DetectorConfig) (st : state)
    (tx : RealTransaction) (w : world) : result :=
  if negb (enabled (hiveIntelligence config))
     || negb (truthy (apiKey (hiveIntelligence config))) then
    (Normal None, st, [])
  else
    (* Check rate limits *)
    let '(allowed, st1) := canMakeRequest st (clockCheck w) in
    if negb allowed then
      (Normal None, st1,
       RateCheck (clockCheck w) ::
       (if (requestCount st1 mod 20 =? 0)%nat
        then [Log "Hive Intelligence rate limit reached, skipping analysis"]
        else []))
    else if negb (eligible config tx) then
      (Normal None, st1, [RateCheck (clockCheck w)])
    else
      let '(r, st2, trace) := attempts retryCount 1 tx w st1 in
      (r, st2, RateCheck (clockCheck w) :: trace).

(** A sequence of calls, one per transaction, in arrival order. *)
Fixpoint run (config : DetectorConfig) (st : state)
    (arrivals : list (RealTransaction * world)) : state * list event :=
  match arrivals with
  | [] => (st, [])
  | (tx, w) :: rest =>
      let '(_, st1, trace) := analyzeTransaction config st tx w in
      let '(st2, trace') := run config st1 rest in
      (st2, trace ++ trace')
  end.

(** *** Reading a trace *)

(** The requests and the waits of a trace, in order. *)
Inductive step : Type :=
  | Attempt (attempt : nat)
  | Wait (ms : Z).

Definition stepOf (e : event) : list step :=
  match e with
  | Post attempt _ => [Attempt attempt]
  | Delay ms => [Wait ms]
  | _ => []
  end.

Definition schedule (trace : list event) : list step := flat_map stepOf trace.

(** The number of requests sent during a trace. *)
Definition requests (trace : list event) : nat :=
  length (flat_map (fun e => match e with Post k _ => [k] | _ => [] end) trace).

(** The timestamps recorded during a trace, in order. *)
Definition recordedOf (e : event) : list Z :=
  match e with
  | RecordRequest now => [now]
  | _ => []
  end.

Definition recorded (trace : list event) : list Z := flat_map recordedOf trace.

(** The admission checks of a trace. *)
Definition checkOf (e : event) : list Z :=
  match e with
  | RateCheck now => [now]
  | _ => []
  end.

Definition checks (trace : list event) : list Z := flat_map checkOf trace.

(** What the [try] block of attempt [k] comes to: the parsed answer, or an
    exception (a rejected request, or an answer that cannot be parsed). *)
Definition tryBlock (w : world) (k : nat) : completion (option HiveAnalysis) :=
  match post w k with
  | PostOk data => parseSearchResponse data
  | PostError _ => Throw "AxiosError"
  end.

(** The answer carries a non-empty string under [response]; any other
    answer is empty or malformed. *)
Definition wellFormed (data : SearchData) : bool :=
  match data with
  | DataObject (RespString raw) _ => negb (String.eqb raw "")
  | _ => false
  end.

(** The answer can be parsed: its [response] is falsy or a string. *)
Definition parsable (data : SearchData) : bool :=
  match data with
  | DataObject RespOther _ => false
  | _ => true
  end.

Definition answersParse (w : world) : Prop :=
  forall k data, post w k = PostOk data -> parsable data = true.

(** [t] lies in the trailing 60-second window that ends at [T]. *)
Definition inWindow (T t : Z) : Prop := T - 60000 < t /\ t <= T.

#[global] Instance inWindow_dec (T t : Z) : Decision (inWindow T t).
Proof. unfold inWindow. apply _. Defined.

(** The clock readings of a sequence of calls never go back, starting
    from the reading [t0]. *)
Fixpoint chronological (t0 : Z) (arrivals : list (RealTransaction * world)) : Prop :=
  match arrivals with
  | [] => True
  | (_, w) :: rest =>
      t0 <= clockCheck w
      /\ clockCheck w <= clockRecord w 1
      /\ clockRecord w 1 <= clockRecord w 2
      /\ chronological (clockRecord w 2) rest
  end.

(** The service is configured and switched on. *)
Definition active (config : DetectorConfig) : bool :=
  enabled (hiveIntelligence config) && truthy (apiKey (hiveIntelligence config)).

(** The call gets as far as the retry loop. *)
Definition reachesLoop (config : DetectorConfig) (st : state)
    (tx : RealTransaction) (w : world) : bool :=
  active config
  && (length (purge (clockCheck w) (requestTimestamps st)) <? maxRequestsPerMinute)%nat
  && eligible config tx.

End HiveIntelligenceService.

(* ===================================================================== *)
(** ** detectors/threat-processor.ts *)
(* ===================================================================== *)

Module ThreatProcessor.

(** [x || fallback] on numbers: [0] and [NaN] are falsy. *)
Definition number_or (x fallback : JS.number) : JS.number :=
  match x with
  | JS.NaN => fallback
  | JS.Fin q => if JS.Qzero q then fallback else x
  | JS.Inf _ => x
  end.

Definition hiveAlert (prefix : string) (ty : ThreatType) (sev : Severity)
    (tx : RealTransaction) (now : Z) (info : list (string * detail))
    (conf : JS.number) : ThreatAlert :=
  {| id := alert_id prefix tx now;
     type := ty;
     severity := sev;
     contractAddress := or_empty (to tx);
     transactionHash := hash tx;
     alert_timestamp := timestamp tx;
     alert_blockNumber := JS.parseInt16 (blockNumber tx);
     details := info;
     confidence := conf;
     mitigated := false |}.

Definition categoryDetails (r : RiskInfo) (a : HiveAnalysis) : list (string * detail) :=
  [ ("hiveAnalysis", DRisk (risk r) (indicators r));
    ("indicators", DList (indicators r));
    ("dataSources", DList (dataSources a));
    ("source", DStr "hive_intelligence") ].

Definition processHiveThreats (tx : RealTransaction) (hiveAnalysis : HiveAnalysis)
    (now : nat -> Z) : list ThreatAlert :=
  (* Process rug pull threats *)
  let rug :=
    match rugPull hiveAnalysis with
    | Some r =>
        if JS.gt (risk r) (JS.Fin 0.5) then
          [hiveAlert "hive_rug_pull" rug_pull
             (if JS.gt (risk r) (JS.Fin 0.8) then critical else high)
             tx (now 0%nat) (categoryDetails r hiveAnalysis) (risk r)]
        else []
    | None => []
    end in
  (* Process flash loan threats *)
  let flash :=
    match flashLoan hiveAnalysis with
    | Some r =>
        if JS.gt (risk r) (JS.Fin 0.6) then
          [hiveAlert "hive_flash_loan" flash_loan_attack
             (if JS.gt (risk r) (JS.Fin 0.8) then critical else high)
             tx (now 1%nat) (categoryDetails r hiveAnalysis) (risk r)]
        else []
    | None => []
    end in
  (* Process MEV threats *)
  let mevs :=
    match mev hiveAnalysis with
    | Some r =>
        if JS.gt (risk r) (JS.Fin 0.6) then
          [hiveAlert "hive_mev" mev_attack
             (if JS.gt (risk r) (JS.Fin 0.8) then high else medium)
             tx (now 2%nat) (categoryDetails r hiveAnalysis) (risk r)]
        else []
    | None => []
    end in
  let threats := rug ++ flash ++ mevs in
  (* Process general high-risk transactions *)
  let general :=
    if JS.gt (overallRisk hiveAnalysis) (JS.Fin 0.7) && (length threats =? 0)%nat then
      [hiveAlert "hive_suspicious" suspicious_pattern
         (if JS.gt (overallRisk hiveAnalysis) (JS.Fin 0.8) then high else medium)
         tx (now 3%nat)
         [ ("overallRisk", DNum (overallRisk hiveAnalysis));
           ("rawResponse", DStr (rawResponse hiveAnalysis));
           ("dataSources", DList (dataSources hiveAnalysis));
           ("source", DStr "hive_intelligence") ]
         (number_or (analysis_confidence hiveAnalysis) (JS.Fin 0.6))]
    else [] in
  threats ++ general.

(** The clock readings of one call of [analyzeThreatPatterns]. *)
Record clocks : Type := {
  localClock : nat -> Z;
  hiveWorld : HiveIntelligenceService.world;
  processClock : nat -> Z
}.

Record state : Type := {
  localDetector : LocalThreatDetector.state;
  hiveService : HiveIntelligenceService.state
}.

Definition analyzeThreatPatterns (config : DetectorConfig) (st : state)
    (transaction : RealTransaction) (c : clocks)
    : list ThreatAlert * state * list event :=
  (* Local threat detection (always runs) *)
  let '(local', localThreats) :=
    LocalThreatDetector.detectThreats config (localDetector st) transaction (localClock c) in
  (* Hive Intelligence analysis (if enabled and available) *)
  let '(r, hive', trace) :=
    HiveIntelligenceService.analyzeTransaction config (hiveService st) transaction (hiveWorld c) in
  let st' := {| localDetector := local'; hiveService := hive' |} in
  match r with
  | Normal (Some hiveAnalysis) =>
      (localThreats ++ processHiveThreats transaction hiveAnalysis (processClock c), st', trace)
  | Normal None => (localThreats, st', trace)
  | Throw _ => (localThreats, st', trace ++ [Log "Error in threat analysis"])
  end.

(** [new Date(t).toISOString()] raises a RangeError unless [t] is a time
    value: finite and, once truncated, within 8.64e15 ms of the epoch. *)
Definition validTime (t : JS.number) : bool :=
  match t with
  | JS.Fin q => Z.abs (Z.quot (Qnum q) (Zpos (Qden q))) <=? 8640000000000000
  | _ => false
  end.

Definition withMitigated (threat : ThreatAlert) (b : bool) : ThreatAlert :=
  {| id := id threat;
     type := type threat;
     severity := severity threat;
     contractAddress := contractAddress threat;
     transactionHash := transactionHash threat;
     alert_timestamp := alert_timestamp threat;
     alert_blockNumber := alert_blockNumber threat;
     details := details threat;
     confidence := confidence threat;
     mitigated := b |}.

(** [executeMitigation] updates the alert in place; the updated alert is
    returned next to the trace. *)
Definition executeMitigation (config : DetectorConfig) (threat : ThreatAlert)
    : ThreatAlert * list event :=
  let actions :=
    (if autoFreeze (mitigation config)
     then [Log "Action: Contract interaction freeze initiated"] else [])
    ++ (if emergencyPause (mitigation config)
        then [Log "Action: Emergency pause protocols activated"] else []) in
  let threat' := withMitigated threat true in
  (threat',
   [Mitigation threat; Log "AUTO-MITIGATION ACTIVATED"] ++ actions
   ++ [Log "Mitigation completed successfully"; SendAlert threat']).

Definition handleThreat (config : DetectorConfig) (threat : ThreatAlert)
    : completion ThreatAlert * list event :=
  (* Log threat *)
  if negb (validTime (alert_timestamp threat)) then (Throw "RangeError", [])
  else
    let logged := [Log "THREAT DETECTED"] in
    (* Send social alerts for medium+ severity threats *)
    let sent :=
      match severity threat with
      | medium | high | critical => [SendAlert threat]
      | low => []
      end in
    (* Auto-mitigation for critical threats *)
    if mitigation_enabled (mitigation config)
       && bool_decide (severity threat = critical)
       && JS.gt (confidence threat) (JS.Fin 0.8) then
      let '(threat', trace) := executeMitigation config threat in
      (Normal threat', logged ++ sent ++ trace)
    else (Normal threat, logged ++ sent).

(** The mitigation hook ran during the trace. *)
Definition mitigationInvoked (trace : list event) : Prop :=
  exists threat, In (Mitigation threat) trace.

Definition isLog (e : event) : Prop :=
  match e with Log _ => True | _ => False end.

End ThreatProcessor.


(* ===================================================================== *)
(** ** Sample configuration and transactions *)
(* ===================================================================== *)

Module Samples.

(** The defaults of config/validator.ts, with the intelligence service
    switched on. *)
Definition config : DetectorConfig :=
  {| threatThresholds :=
       {| liquidityDrain := JS.of_Z 75;
          unusualVolumeSpike := JS.of_Z 8;
          gasAnomalyThreshold := JS.of_Z 120000000000;
          rugPullVelocityThreshold := JS.of_Z 50;
          flashLoanMinValue := JS.of_Z 30000000000000000000 |};
     hiveIntelligence :=
       {| apiKey := Some "key";
          endpoint := Some "https://api.hiveintelligence.xyz";
          enabled := true |};
     mitigation :=
       {| mitigation_enabled := true;
          autoFreeze := false;
          emergencyPause := false;
          maxGas := JS.of_Z 500000 |} |}.

Definition transfer (sender : string) (recipient : option string)
    (price payload : string) : RealTransaction :=
  {| hash := "0xfeed";
     blockNumber := "0x10";
     from := sender;
     to := recipient;
     value := "0x0";
     gas := "0x5208";
     gasPrice := price;
     input := payload;
     timestamp := JS.of_Z 1700000000000 |}.

Definition alice : string := "0xaa".
Definition bob : string := "0xbb".

(** A payload of [n] characters. *)
Fixpoint payload (n : nat) : string :=
  match n with
  | O => EmptyString
  | S n' => String "a"%char (payload n')
  end.

(** Gas price 0x1C9C380000 = 122.88 gwei, just above the 120 gwei default. *)
Definition pricey : RealTransaction :=
  transfer alice (Some bob) "0x1C9C380000" (payload 20).

Definition alice_to_bob : RealTransaction := transfer alice (Some bob) "0x1" "0x".
Definition bob_to_alice : RealTransaction := transfer bob (Some alice) "0x1" "0x".

(** Three quiet transfers at 10 gwei between one pair, then one at 400. *)
Definition quiet : RealTransaction :=
  transfer alice (Some bob) "0x2540BE400" (payload 20).
Definition spike : RealTransaction :=
  transfer alice (Some bob) "0x5D21DBA000" (payload 20).
Definition quietHistory : LocalThreatDetector.state :=
  LocalThreatDetector.trackAll LocalThreatDetector.init [quiet; quiet; quiet].




(** A response that names no category but calls the transfer dangerous. *)
Definition dangerous : HiveIntelligenceService.SearchData :=
  HiveIntelligenceService.DataObject
    (HiveIntelligenceService.RespString "This transfer looks Dangerous.") None.

(** A transfer that passes none of the three eligibility tests. *)
Definition small : RealTransaction := alice_to_bob.

(** A world whose requests are all rejected, at clock reading [now]. *)
Definition offline (now : Z) : HiveIntelligenceService.world :=
  {| HiveIntelligenceService.clockCheck := now;
     HiveIntelligenceService.post := fun _ => HiveIntelligenceService.PostError (Some 500);
     HiveIntelligenceService.clockRecord := fun _ => now |}.

(** A world whose requests are all answered by [data]; the check is made
    at [now] and the answer to attempt [k] arrives at [now + 1000 * (k - 1)]. *)
Definition answering (data : HiveIntelligenceService.SearchData) (now : Z)
    : HiveIntelligenceService.world :=
  {| HiveIntelligenceService.clockCheck := now;
     HiveIntelligenceService.post := fun _ => HiveIntelligenceService.PostOk data;
     HiveIntelligenceService.clockRecord := fun k => now + 1000 * (Z.of_nat k - 1) |}.

(** A world whose first answer cannot be parsed and whose second can. *)
Definition garbledOnce (now : Z) : HiveIntelligenceService.world :=
  {| HiveIntelligenceService.clockCheck := now;
     HiveIntelligenceService.post := fun k =>
       if (k =? 1)%nat
       then HiveIntelligenceService.PostOk
              (HiveIntelligenceService.DataObject HiveIntelligenceService.RespOther None)
       else HiveIntelligenceService.PostOk dangerous;
     HiveIntelligenceService.clockRecord := fun k => now + 1000 * (Z.of_nat k - 1) |}.

(** Seventeen answered calls, one per millisecond from 1 to 17; then a
    transaction that fails the gate; then a call whose first answer
    cannot be parsed and whose second answer, a second later, can. *)
Definition overrun : list (RealTransaction * HiveIntelligenceService.world) :=
  map (fun k => (pricey, answering dangerous (Z.of_nat k))) (seq 1 17)
  ++ [(small, answering dangerous 18); (pricey, garbledOnce 19)].

(** Nineteen eligible transactions at the same millisecond, while every
    request is rejected. *)
Definition rejected : list (RealTransaction * HiveIntelligenceService.world) :=
  map (fun _ => (pricey, offline 0)) (seq 1 19).

(** Twenty answered calls, one per second. *)
Definition steady : list (RealTransaction * HiveIntelligenceService.world) :=
  map (fun k => (pricey, answering dangerous (1000 * Z.of_nat k))) (seq 0 20).

Definition alert (ty : ThreatType) (sev : Severity) (conf t : JS.number) : ThreatAlert :=
  {| id := "sample";
     type := ty;
     severity := sev;
     contractAddress := bob;
     transactionHash := "0xfeed";
     alert_timestamp := t;
     alert_blockNumber := JS.of_Z 16;
     details := [];
     confidence := conf;
     mitigated := false |}.

End Samples.

From Stdlib Require Import Qround.

(* ===================================================================== *)
(** ** Reading the state of the local detector *)
(* ===================================================================== *)

Module Bookkeeping.

(** [contractInteractions.get(addr) || 0] *)
Definition interactions (st : LocalThreatDetector.state) (addr : string) : nat :=
  default 0%nat (LocalThreatDetector.contractInteractions st !! addr).

(** The transaction is a contract interaction with [addr]: it is sent to
    [addr], a non-empty address, with an input other than ['0x']. *)
Definition interacts (addr : string) (tx : RealTransaction) : bool :=
  match to tx with
  | Some a => String.eqb a addr && truthy (to tx) && negb (String.eqb (input tx) "0x")
  | None => false
  end.

(** The number of interactions with [addr] in a sequence of transactions. *)
Definition interactionCount (addr : string) (txs : list RealTransaction) : nat :=
  length (List.filter (interacts addr) txs).

(** What every alert of the local detector carries over from its
    transaction. *)
Definition raisedFor (tx : RealTransaction) (a : ThreatAlert) : Prop :=
  transactionHash a = hash tx
  /\ alert_timestamp a = timestamp tx
  /\ alert_blockNumber a = JS.parseInt16 (blockNumber tx)
  /\ contractAddress a = or_empty (to tx)
  /\ mitigated a = false.

(** The confidence is a finite number between [lo] and [hi]. *)
Definition confidenceWithin (lo hi : Q) (a : ThreatAlert) : Prop :=
  exists c, confidence a = JS.Fin c /\ (lo <= c)%Q /\ (c <= hi)%Q.

End Bookkeeping.

(* ===================================================================== *)
(** ** Reading the outcome of the threat processor *)
(* ===================================================================== *)

Module Outcome.

(** The alerts handed to [sendAlert] during a trace, in order. *)
Definition dispatchOf (e : event) : list ThreatAlert :=
  match e with
  | SendAlert threat => [threat]
  | _ => []
  end.

Definition dispatched (trace : list event) : list ThreatAlert :=
  flat_map dispatchOf trace.

(** The lower-cased text mentions a category. *)
Definition mentionsRugPull (response : string) : bool :=
  JS.includes response "rug pull" || JS.includes response "exit scam".

Definition mentionsFlashLoan (response : string) : bool :=
  JS.includes response "flash loan" || JS.includes response "arbitrage".

Definition mentionsMEV (response : string) : bool :=
  JS.includes response "mev" || JS.includes response "front-running"
  || JS.includes response "sandwich".

(** The lower-cased text carries one of the two phrases that score 0.9. *)
Definition alarming (response : string) : bool :=
  JS.includes response "high risk" || JS.includes response "critical".

(** The first six characters of the identifier of an alert. *)
Definition tag (a : ThreatAlert) : string := String.substring 0 6 (id a).

(** The type and the severity of an alert. *)
Definition kind (a : ThreatAlert) : ThreatType * Severity := (type a, severity a).

End Outcome.

(* ===================================================================== *)
(** ** services/hive-intelligence.ts: the statistics *)
(* ===================================================================== *)

Module HiveStats.

Record Stats : Type := {
  stats_requestCount : nat;
  requestsInLastMinute : nat;
  rateLimitRemaining : Z
}.

(** [getStats()]: the window is read as it stands, without a purge. *)
Definition getStats (st : HiveIntelligenceService.state) : Stats :=
  {| stats_requestCount := HiveIntelligenceService.requestCount st;
     requestsInLastMinute := length (HiveIntelligenceService.requestTimestamps st);
     rateLimitRemaining :=
       Z.of_nat HiveIntelligenceService.maxRequestsPerMinute
       - Z.of_nat (length (HiveIntelligenceService.requestTimestamps st)) |}.

End HiveStats.

(* ===================================================================== *)
(** ** More of JavaScript *)
(* ===================================================================== *)

Module JSMore.

(** [parseInt(s, 16)] as an integer: [None] is NaN. *)
Definition parseInt16Z (s : string) : option Z :=
  let '(negative, body) := JS.strip_sign (JS.skip_space s) in
  match JS.hex_digits (JS.strip_0x body) None with
  | Some m => Some (if negative then - m else m)
  | None => None
  end.

(** The hexadecimal digit of a value below 16, in lower case. *)
Definition hexChar (d : N) : ascii :=
  if (d <? 10)%N then Ascii.ascii_of_N (48 + d) else Ascii.ascii_of_N (87 + d).

(** The digits of [n], written in front of [acc]; [fuel] bounds their
    number. *)
Fixpoint hexFrom (fuel : nat) (n : N) (acc : string) : string :=
  match fuel with
  | O => acc
  | S fuel' =>
      let acc' := String (hexChar (n mod 16)) acc in
      if (n / 16 =? 0)%N then acc' else hexFrom fuel' (n / 16) acc'
  end.

Definition hexOfN (n : N) : string := hexFrom (S (N.to_nat (N.log2 n))) n "".

(** [z.toString(16)] for an integer [z]. *)
Definition toString16 (z : Z) : string :=
  if z <? 0 then String "-"%char (hexOfN (Z.to_N (- z))) else hexOfN (Z.to_N z).

(** [a - b] *)
Definition sub (a b : JS.number) : JS.number :=
  match a, b with
  | JS.Fin x, JS.Fin y => JS.Fin (x - y)
  | JS.Inf s, JS.Fin _ => JS.Inf s
  | JS.Fin _, JS.Inf s => JS.Inf (negb s)
  | JS.Inf s, JS.Inf s' => if Bool.eqb s s' then JS.NaN else JS.Inf s
  | _, _ => JS.NaN
  end.

(** [Math.max(a, b)] *)
Definition Math_max (a b : JS.number) : JS.number :=
  match a, b with
  | JS.NaN, _ | _, JS.NaN => JS.NaN
  | _, _ => if JS.gt b a then b else a
  end.

(** [Math.floor(a)] *)
Definition Math_floor (a : JS.number) : JS.number :=
  match a with
  | JS.Fin q => JS.of_Z (Qfloor q)
  | _ => a
  end.

End JSMore.

(* ===================================================================== *)
(** ** services/blockchain.ts *)
(* ===================================================================== *)

Module SeiBlockchainService.

(** The private counter [requestId]. *)
Record state : Type := { requestId : nat }.

Definition init : state := {| requestId := 1 |}.

(** [return this.requestId++] *)
Definition getNextRequestId (st : state) : nat * state :=
  (requestId st, {| requestId := S (requestId st) |}).

(** The outcome of a JSON-RPC call: the request fails, or a body comes
    back whose [result] may be missing. *)
Inductive answer (A : Type) : Type :=
  | Failed
  | Body (result : option A).
Arguments Failed {A}.
Arguments Body {A} result.

(** A JSON-RPC request as it is sent: its id, its method and the
    hexadecimal parameter when there is one. *)
Record request : Type := {
  request_id : nat;
  method : string;
  param : option string
}.

(** [getLatestBlock]: the head of the chain, or the exception rethrown. *)
Definition getLatestBlock (st : state) (head : answer string)
    : completion (option Z) * state * request :=
  let '(i, st') := getNextRequestId st in
  let sent := {| request_id := i; method := "eth_blockNumber"; param := None |} in
  match head with
  | Failed => (Throw "AxiosError", st', sent)
  | Body result => (Normal (JSMore.parseInt16Z (default "undefined" result)), st', sent)
  end.

(** [getBlock]: the body's [result] as it is ([None] for [null]), or the
    exception rethrown. *)
Definition getBlock {A : Type} (st : state) (blockNumber : Z) (block : answer A)
    : completion (option A) * state * request :=
  let blockHex := "0x" +:+ JSMore.toString16 blockNumber in
  let '(i, st') := getNextRequestId st in
  let sent := {| request_id := i; method := "eth_getBlockByNumber";
                 param := Some blockHex |} in
  match block with
  | Failed => (Throw "AxiosError", st', sent)
  | Body result => (Normal result, st', sent)
  end.

End SeiBlockchainService.

(* ===================================================================== *)
(** ** core/enhanced-sei-detector.ts: the monitoring loop *)
(* ===================================================================== *)

Module EnhancedSeiThreatDetector.

(** A transaction object of [block.transactions]; [raw_hash] is [None]
    when the property is missing. *)
Record RawTransaction : Type := {
  raw_hash : option string;
  raw_blockNumber : string;
  raw_from : string;
  raw_to : option string;
  raw_value : string;
  raw_gas : string;
  raw_gasPrice : string;
  raw_input : string
}.

(** An element of [block.transactions]: [null], a bare hash (a string) or
    a transaction object. *)
Inductive entry : Type :=
  | EntryNull
  | EntryHash (h : string)
  | EntryObject (raw : RawTransaction).

Record Block : Type := {
  block_timestamp : option string;
  transactions : option (list entry)
}.

(** The part of the detector that the monitoring loop reads and writes. *)
Record state : Type := {
  monitoringActive : bool;
  currentBlock : option Z;
  blocksProcessed : nat;
  transactionsAnalyzed : nat;
  blockchainService : SeiBlockchainService.state
}.

(** What the loop does, in program order. *)
Inductive action : Type :=
  | Rpc (r : SeiBlockchainService.request)     (* a JSON-RPC request *)
  | AnalyzeBlock (blockNumber : Z)             (* analyzeBlock(blockNumber) *)
  | ProcessTransaction (tx : RealTransaction)  (* processTransaction(realTx) *)
  | SetTimeout (ms : JS.number)                (* setTimeout(monitorLoop, ms) *)
  | LogError (msg : string).                   (* console.error *)

(** What one iteration of the loop meets outside the program. *)
Record world : Type := {
  head : SeiBlockchainService.answer string;        (* eth_blockNumber *)
  blockAt : Z -> SeiBlockchainService.answer Block; (* eth_getBlockByNumber *)
  processingTime : Z                                (* Date.now() - startTime *)
}.

(** The object literal [realTx]. *)
Definition realTx (block : Block) (raw : RawTransaction) (h : string) : RealTransaction :=
  {| hash := h;
     blockNumber := raw_blockNumber raw;
     from := raw_from raw;
     to := raw_to raw;
     value := raw_value raw;
     gas := raw_gas raw;
     gasPrice := raw_gasPrice raw;
     input := raw_input raw;
     timestamp := JS.mul (JS.parseInt16 (default "undefined" (block_timestamp block)))
                         (JS.of_Z 1000) |}.

(** [for (const tx of block.transactions)]: the transactions handed to
    [processTransaction], and what is logged.  Reading [tx.hash] of a
    [null] element throws, which ends the loop. *)
Fixpoint processEntries (block : Block) (entries : list entry) : list action :=
  match entries with
  | [] => []
  | EntryNull :: _ => [LogError "Error analyzing block"]
  | EntryHash _ :: rest => processEntries block rest
  | EntryObject raw :: rest =>
      if truthy (raw_hash raw) then
        ProcessTransaction (realTx block raw (default "" (raw_hash raw)))
        :: processEntries block rest
      else processEntries block rest
  end.

(** The number of calls of [processTransaction] among the actions. *)
Definition processedOf (a : action) : list RealTransaction :=
  match a with
  | ProcessTransaction tx => [tx]
  | _ => []
  end.

Definition processed (actions : list action) : list RealTransaction :=
  flat_map processedOf actions.

Definition withService (st : state) (svc : SeiBlockchainService.state) : state :=
  {| monitoringActive := monitoringActive st;
     currentBlock := currentBlock st;
     blocksProcessed := blocksProcessed st;
     transactionsAnalyzed := transactionsAnalyzed st;
     blockchainService := svc |}.

Definition analyzeBlock (st : state) (blockNumber : Z)
    (b : SeiBlockchainService.answer Block) : state * list action :=
  let '(r, svc, sent) :=
    SeiBlockchainService.getBlock (blockchainService st) blockNumber b in
  let st1 := withService st svc in
  match r with
  | Throw _ =>
      (st1, [AnalyzeBlock blockNumber; Rpc sent;
             LogError "Failed to get block"; LogError "Error analyzing block"])
  | Normal None => (st1, [AnalyzeBlock blockNumber; Rpc sent])
  | Normal (Some block) =>
      match transactions block with
      | None => (st1, [AnalyzeBlock blockNumber; Rpc sent])
      | Some entries =>
          let actions := processEntries block entries in
          ({| monitoringActive := monitoringActive st1;
              currentBlock := currentBlock st1;
              blocksProcessed := blocksProcessed st1;
              transactionsAnalyzed :=
                (transactionsAnalyzed st1 + length (processed actions))%nat;
              blockchainService := blockchainService st1 |},
           [AnalyzeBlock blockNumber; Rpc sent] ++ actions)
      end
  end.

(** [for (let blockNum = ...; blockNum <= latestBlock; blockNum++)] over
    the block numbers still to come. *)
Fixpoint analyzeBlocks (st : state) (w : world) (blockNums : list Z)
    : state * list action :=
  match blockNums with
  | [] => (st, [])
  | blockNum :: rest =>
      let '(st1, actions) := analyzeBlock st blockNum (blockAt w blockNum) in
      let st2 :=
        {| monitoringActive := monitoringActive st1;
           currentBlock := currentBlock st1;
           blocksProcessed := S (blocksProcessed st1);
           transactionsAnalyzed := transactionsAnalyzed st1;
           blockchainService := blockchainService st1 |} in
      let '(st3, actions') := analyzeBlocks st2 w rest in
      (st3, actions ++ actions')
  end.

(** [latestBlock > this.currentBlock] on the results of [parseInt]. *)
Definition ahead (latest current : option Z) : bool :=
  match latest, current with
  | Some l, Some c => c <? l
  | _, _ => false
  end.

(** One run of [monitorLoop]. *)
Definition monitorLoop (pollingInterval : JS.number) (st : state) (w : world)
    : state * list action :=
  if negb (monitoringActive st) then (st, [])
  else
    let '(r, svc, sent) :=
      SeiBlockchainService.getLatestBlock (blockchainService st) (head w) in
    let st1 := withService st svc in
    match r with
    | Throw _ =>
        (st1, [Rpc sent; LogError "Failed to get latest block";
               LogError "Monitoring error"; SetTimeout (JS.of_Z 2000)])
    | Normal latestBlock =>
        let '(st2, actions) :=
          if ahead latestBlock (currentBlock st1) then
            let c := default 0 (currentBlock st1) in
            let l := default 0 latestBlock in
            let '(st', actions) := analyzeBlocks st1 w (seqZ (c + 1) (l - c)) in
            ({| monitoringActive := monitoringActive st';
                currentBlock := latestBlock;
                blocksProcessed := blocksProcessed st';
                transactionsAnalyzed := transactionsAnalyzed st';
                blockchainService := blockchainService st' |}, actions)
          else (st1, []) in
        let nextPoll :=
          JSMore.Math_max (JS.of_Z 100)
                          (JSMore.sub pollingInterval (JS.of_Z (processingTime w))) in
        (st2, [Rpc sent] ++ actions ++ [SetTimeout nextPoll])
    end.

(** [start()]: the head of the chain becomes the cursor, then the loop
    runs once; a failed first request fails the start. *)
Definition start (pollingInterval : JS.number) (st : state)
    (first : SeiBlockchainService.answer string) (w : world)
    : completion unit * state * list action :=
  let '(r, svc, sent) :=
    SeiBlockchainService.getLatestBlock (blockchainService st) first in
  match r with
  | Throw e => (Throw e, withService st svc,
                [Rpc sent; LogError "Failed to get latest block";
                 LogError "Failed to start monitoring"])
  | Normal headBlock =>
      let st1 :=
        {| monitoringActive := true;
           currentBlock := headBlock;
           blocksProcessed := blocksProcessed st;
           transactionsAnalyzed := transactionsAnalyzed st;
           blockchainService := svc |} in
      let '(st2, actions) := monitorLoop pollingInterval st1 w in
      (Normal tt, st2, Rpc sent :: actions)
  end.

(** [stop()] *)
Definition stop (st : state) : state :=
  {| monitoringActive := false;
     currentBlock := currentBlock st;
     blocksProcessed := blocksProcessed st;
     transactionsAnalyzed := transactionsAnalyzed st;
     blockchainService := blockchainService st |}.

(** What happens to a started detector: the timer fires, or [stop] is
    called. *)
Inductive tick : Type :=
  | Fire (w : world)
  | Stop.

Fixpoint run (pollingInterval : JS.number) (st : state) (ticks : list tick)
    : state * list action :=
  match ticks with
  | [] => (st, [])
  | Fire w :: rest =>
      let '(st1, actions) := monitorLoop pollingInterval st w in
      let '(st2, actions') := run pollingInterval st1 rest in
      (st2, actions ++ actions')
  | Stop :: rest => run pollingInterval (stop st) rest
  end.

(** *** Reading the actions *)

Definition analyzedOf (a : action) : list Z :=
  match a with
  | AnalyzeBlock n => [n]
  | _ => []
  end.

(** The block numbers given to [analyzeBlock], in order. *)
Definition analyzed (actions : list action) : list Z := flat_map analyzedOf actions.

Definition requestOf (a : action) : list SeiBlockchainService.request :=
  match a with
  | Rpc r => [r]
  | _ => []
  end.

(** The JSON-RPC requests, in order. *)
Definition requested (actions : list action) : list SeiBlockchainService.request :=
  flat_map requestOf actions.

Definition timeoutOf (a : action) : list JS.number :=
  match a with
  | SetTimeout ms => [ms]
  | _ => []
  end.

(** The delays given to [setTimeout], in order. *)
Definition timeouts (actions : list action) : list JS.number :=
  flat_map timeoutOf actions.

(** The cursor after some activity: it has moved from [c] to a block
    [c'] no lower, the blocks in between were analysed in ascending order,
    one call each, and counted; a cursor that is not a number stays so. *)
Definition advanced (st st' : state) (actions : list action) : Prop :=
  match currentBlock st with
  | Some c =>
      exists c', currentBlock st' = Some c' /\ c <= c'
        /\ analyzed actions = seqZ (c + 1) (c' - c)
        /\ blocksProcessed st' = (blocksProcessed st + Z.to_nat (c' - c))%nat
  | None =>
      currentBlock st' = None /\ analyzed actions = []
      /\ blocksProcessed st' = blocksProcessed st
  end.

(** The requests of some activity: their ids count up from the counter,
    and the requests for a block name the blocks analysed. *)
Definition numbered (st st' : state) (actions : list action) : Prop :=
  map SeiBlockchainService.request_id (requested actions) =
    seq (SeiBlockchainService.requestId (blockchainService st))
        (length (requested actions))
  /\ SeiBlockchainService.requestId (blockchainService st') =
       (SeiBlockchainService.requestId (blockchainService st)
        + length (requested actions))%nat
  /\ omap SeiBlockchainService.param (requested actions) =
       map (fun n => "0x" +:+ JSMore.toString16 n) (analyzed actions)
  /\ transactionsAnalyzed st' =
       (transactionsAnalyzed st + length (processed actions))%nat.

(** *** The threats of a transaction *)

(** The part of the detector that [processTransaction] reads and writes. *)
Record ledger : Type := {
  threatProcessor : ThreatProcessor.state;
  threatHistory : gmap string ThreatAlert;
  threatsDetected : nat
}.

(** [handleThreat]: the alert is stored and counted, handled by the
    threat processor, then emitted.  The history holds the alert object
    itself, so what the processor writes into the alert shows in the
    history; the outcome is the alert as it is emitted. *)
Definition handleThreat (config : DetectorConfig) (l : ledger) (threat : ThreatAlert)
    : completion ThreatAlert * ledger * list event :=
  let '(r, trace) := ThreatProcessor.handleThreat config threat in
  let stored :=
    match r with
    | Normal threat' => threat'
    | Throw _ => threat
    end in
  (r,
   {| threatProcessor := threatProcessor l;
      threatHistory := <[id threat := stored]> (threatHistory l);
      threatsDetected := S (threatsDetected l) |},
   trace).

(** [for (const threat of threats) await this.handleThreat(threat)]: the
    alerts emitted, in order, next to the outcome. *)
Fixpoint handleThreats (config : DetectorConfig) (l : ledger) (threats : list ThreatAlert)
    : completion unit * ledger * list event * list ThreatAlert :=
  match threats with
  | [] => (Normal tt, l, [], [])
  | threat :: rest =>
      let '(r, l1, trace) := handleThreat config l threat in
      match r with
      | Throw e => (Throw e, l1, trace, [])
      | Normal emitted =>
          let '(r', l2, trace', emitted') := handleThreats config l1 rest in
          (r', l2, trace ++ trace', emitted :: emitted')
      end
  end.

Definition processTransaction (config : DetectorConfig) (l : ledger)
    (transaction : RealTransaction) (c : ThreatProcessor.clocks)
    : ledger * list event * list ThreatAlert :=
  let '(threats, processor, trace) :=
    ThreatProcessor.analyzeThreatPatterns config (threatProcessor l) transaction c in
  let l0 :=
    {| threatProcessor := processor;
       threatHistory := threatHistory l;
       threatsDetected := threatsDetected l |} in
  let '(r, l1, trace', emitted) := handleThreats config l0 threats in
  (l1,
   trace ++ trace'
   ++ match r with
      | Throw _ => [Log "Error processing transaction"]
      | Normal _ => []
      end,
   emitted).

(** A transaction as [analyzeBlock] makes it from an entry of [block]:
    its hash is not empty and its timestamp is that of the block, as
    [parseInt(_, 16)] reads it, times 1000. *)
Definition stampedBy (block : Block) (tx : RealTransaction) : Prop :=
  hash tx <> ""
  /\ timestamp tx
     = JS.mul (JS.parseInt16 (default "undefined" (block_timestamp block)))
              (JS.of_Z 1000).

(** A delay of at least 100 ms. *)
Definition atLeast100 (ms : JS.number) : Prop :=
  exists q : Q, ms = JS.Fin q /\ (100 <= q)%Q.

End EnhancedSeiThreatDetector.

(* ===================================================================== *)
(** ** services/alerts.ts *)
(* ===================================================================== *)

Module SocialAlertSystem.

(** [config.alerts] *)
Record AlertsConfig : Type := {
  discordWebhook : option string;
  slackWebhook : option string;
  telegramBotToken : option string;
  telegramChatId : option string
}.

Inductive channel : Type := Discord | Slack | Telegram.

(** What is posted: the embed for Discord, the attachment for Slack with
    the address it goes to, the message for Telegram with its address. *)
Inductive payload : Type :=
  | Embed (description : string) (color : Z) (time : Z)
          (blockNumber : JS.number) (threatId : string)
  | Attachment (url : string) (color : string) (text : string) (ts : JS.number)
  | Markdown (url : string) (chat_id : string) (text : string).

Definition channelOf (p : payload) : channel :=
  match p with
  | Embed _ _ _ _ _ => Discord
  | Attachment _ _ _ _ => Slack
  | Markdown _ _ _ => Telegram
  end.

(** The time value of [new Date(t)], for [t] a time value. *)
Definition timeValue (t : JS.number) : Z :=
  match t with
  | JS.Fin q => Z.quot (Qnum q) (Zpos (Qden q))
  | _ => 0
  end.

(** A request goes out and succeeds or fails. *)
Definition send (delivers : channel -> bool) (p : payload)
    : completion unit * list payload :=
  (if delivers (channelOf p) then Normal tt else Throw "Error", [p]).

Definition sendDiscordAlert (discordClient : bool) (threat : ThreatAlert)
    (message : string) (delivers : channel -> bool) : completion unit * list payload :=
  if negb discordClient then (Normal tt, [])
  else if negb (ThreatProcessor.validTime (alert_timestamp threat)) then
    (Throw "RangeError", [])
  else
    send delivers
      (Embed message
         (match severity threat with
          | critical => 0xFF0000
          | high => 0xFF8C00
          | medium => 0xFFA500
          | low => 0xFFFF00
          end)
         (timeValue (alert_timestamp threat))
         (alert_blockNumber threat)
         (id threat)).

(** [ts: Math.floor(threat.timestamp / 1000)] *)
Definition slackTs (threat : ThreatAlert) : JS.number :=
  JSMore.Math_floor (JS.div (alert_timestamp threat) (JS.of_Z 1000)).

Definition sendSlackAlert (alerts : AlertsConfig) (threat : ThreatAlert)
    (message : string) (delivers : channel -> bool) : completion unit * list payload :=
  if negb (truthy (slackWebhook alerts)) then (Normal tt, [])
  else
    send delivers
      (Attachment (default "" (slackWebhook alerts))
         (match severity threat with
          | critical => "danger"
          | high => "warning"
          | _ => "good"
          end)
         message
         (slackTs threat)).

Definition sendTelegramAlert (alerts : AlertsConfig) (threat : ThreatAlert)
    (message : string) (delivers : channel -> bool) : completion unit * list payload :=
  if negb (truthy (telegramBotToken alerts)) || negb (truthy (telegramChatId alerts)) then
    (Normal tt, [])
  else
    send delivers
      (Markdown ("https://api.telegram.org/bot"
                 +:+ default "" (telegramBotToken alerts) +:+ "/sendMessage")
                (default "" (telegramChatId alerts))
                message).

(** [sendAlert]: what is posted, in order, and whether the success line
    is logged (otherwise the failure is).  [formatAlertMessage] renders
    the alert as text. *)
Definition sendAlert (alerts : AlertsConfig) (discordClient : bool)
    (formatAlertMessage : ThreatAlert -> string) (threat : ThreatAlert)
    (delivers : channel -> bool) : list payload * bool :=
  let alertMessage := formatAlertMessage threat in
  (* Send to Discord *)
  let '(r1, posted1) :=
    if discordClient then sendDiscordAlert discordClient threat alertMessage delivers
    else (Normal tt, []) in
  match r1 with
  | Throw _ => (posted1, false)
  | Normal _ =>
      (* Send to Slack *)
      let '(r2, posted2) :=
        if truthy (slackWebhook alerts)
        then sendSlackAlert alerts threat alertMessage delivers
        else (Normal tt, []) in
      match r2 with
      | Throw _ => (posted1 ++ posted2, false)
      | Normal _ =>
          (* Send to Telegram *)
          let '(r3, posted3) :=
            if truthy (telegramBotToken alerts) && truthy (telegramChatId alerts)
            then sendTelegramAlert alerts threat alertMessage delivers
            else (Normal tt, []) in
          match r3 with
          | Throw _ => (posted1 ++ posted2 ++ posted3, false)
          | Normal _ => (posted1 ++ posted2 ++ posted3, true)
          end
      end
  end.

(** *** Reading the configuration *)

(** The channels in use, in the order in which [sendAlert] serves them. *)
Definition configured (alerts : AlertsConfig) (discordClient : bool) : list channel :=
  (if discordClient then [Discord] else [])
  ++ (if truthy (slackWebhook alerts) then [Slack] else [])
  ++ (if truthy (telegramBotToken alerts) && truthy (telegramChatId alerts)
      then [Telegram] else []).

(** The channels up to and including the first one that fails. *)
Fixpoint upToFailure (delivers : channel -> bool) (channels : list channel)
    : list channel :=
  match channels with
  | [] => []
  | ch :: rest => ch :: (if delivers ch then upToFailure delivers rest else [])
  end.

End SocialAlertSystem.

(* ===================================================================== *)
(** ** Further samples *)
(* ===================================================================== *)

Module Scenarios.

(** A response that names a rug pull and calls it high risk. *)
Definition rugAlarm : HiveIntelligenceService.SearchData :=
  HiveIntelligenceService.DataObject
    (HiveIntelligenceService.RespString "Possible RUG PULL: High Risk of loss.")
    (Some ["explorer"]).

(** What [parseSearchResponse] makes of [rugAlarm]. *)
Definition rugAnalysis : HiveAnalysis :=
  {| threats := [];
     dataSources := ["explorer"];
     rawResponse := "Possible RUG PULL: High Risk of loss.";
     rugPull := Some {| risk := JS.Fin 0.9; indicators := ["rug pull"] |};
     flashLoan := None;
     mev := None;
     overallRisk := JS.Fin 0.8;
     analysis_confidence := JS.Fin 0.5 |}.

(** The alert that [processHiveThreats] draws from [rugAnalysis] for
    [Samples.pricey] when the clock reads 0. *)
Definition rugAlert : ThreatAlert :=
  ThreatProcessor.hiveAlert "hive_rug_pull" rug_pull critical Samples.pricey 0
    (ThreatProcessor.categoryDetails
       {| risk := JS.Fin 0.9; indicators := ["rug pull"] |} rugAnalysis)
    (JS.Fin 0.9).

(** A contract call with a payload, to [Samples.bob]. *)
Definition call : RealTransaction :=
  Samples.transfer Samples.alice (Some Samples.bob) "0x1" "0xa9059cbb".

(** A detector that has seen 100 such calls. *)
Definition busy : LocalThreatDetector.state :=
  LocalThreatDetector.trackAll LocalThreatDetector.init (repeat call 100).

(** Seventeen answered calls, one per second, then a call whose first
    answer cannot be parsed and whose second, a second later, can. *)
Definition slowOverrun : list (RealTransaction * HiveIntelligenceService.world) :=
  map (fun k => (Samples.pricey, Samples.answering Samples.dangerous (1000 * Z.of_nat k)))
      (seq 0 17)
  ++ [(Samples.pricey, Samples.garbledOnce 17000)].

(** Slack and Telegram are configured, Discord is not. *)
Definition twoChannels : SocialAlertSystem.AlertsConfig :=
  {| SocialAlertSystem.discordWebhook := None;
     SocialAlertSystem.slackWebhook := Some "https://hooks.slack.com/services/T";
     SocialAlertSystem.telegramBotToken := Some "42:token";
     SocialAlertSystem.telegramChatId := Some "-1001" |}.

(** Slack is down. *)
Definition slackDown (ch : SocialAlertSystem.channel) : bool :=
  match ch with
  | SocialAlertSystem.Slack => false
  | _ => true
  end.

(** A detector that has handled nothing yet. *)
Definition blank : EnhancedSeiThreatDetector.ledger :=
  {| EnhancedSeiThreatDetector.threatProcessor :=
       {| ThreatProcessor.localDetector := LocalThreatDetector.init;
          ThreatProcessor.hiveService := HiveIntelligenceService.init |};
     EnhancedSeiThreatDetector.threatHistory := ∅;
     EnhancedSeiThreatDetector.threatsDetected := 0 |}.

(** The clock reads [now] throughout, and the service answers [data]. *)
Definition still (data : HiveIntelligenceService.SearchData) (now : Z)
    : ThreatProcessor.clocks :=
  {| ThreatProcessor.localClock := fun _ => now;
     ThreatProcessor.hiveWorld := Samples.answering data now;
     ThreatProcessor.processClock := fun _ => now |}.

(** A detector that watches the chain from block [c] on. *)
Definition watching (c : Z) : EnhancedSeiThreatDetector.state :=
  {| EnhancedSeiThreatDetector.monitoringActive := true;
     EnhancedSeiThreatDetector.currentBlock := Some c;
     EnhancedSeiThreatDetector.blocksProcessed := 0;
     EnhancedSeiThreatDetector.transactionsAnalyzed := 0;
     EnhancedSeiThreatDetector.blockchainService := SeiBlockchainService.init |}.

Definition rawTransfer : EnhancedSeiThreatDetector.RawTransaction :=
  {| EnhancedSeiThreatDetector.raw_hash := Some "0xfeed";
     EnhancedSeiThreatDetector.raw_blockNumber := "0x10";
     EnhancedSeiThreatDetector.raw_from := Samples.alice;
     EnhancedSeiThreatDetector.raw_to := Some Samples.bob;
     EnhancedSeiThreatDetector.raw_value := "0x0";
     EnhancedSeiThreatDetector.raw_gas := "0x5208";
     EnhancedSeiThreatDetector.raw_gasPrice := "0x1";
     EnhancedSeiThreatDetector.raw_input := "0x" |}.

(** A block with a transfer, a bare hash, a [null] and a second transfer. *)
Definition mixedBlock : EnhancedSeiThreatDetector.Block :=
  {| EnhancedSeiThreatDetector.block_timestamp := Some "0x6553f100";
     EnhancedSeiThreatDetector.transactions :=
       Some [ EnhancedSeiThreatDetector.EntryObject rawTransfer;
              EnhancedSeiThreatDetector.EntryHash "0xbeef";
              EnhancedSeiThreatDetector.EntryNull;
              EnhancedSeiThreatDetector.EntryObject rawTransfer ] |}.

(** A chain whose head is [headHex]; block 17 cannot be fetched, the
    others are [mixedBlock]; a run of the loop takes 40 ms. *)
Definition chainAt (headHex : string) : EnhancedSeiThreatDetector.world :=
  {| EnhancedSeiThreatDetector.head := SeiBlockchainService.Body (Some headHex);
     EnhancedSeiThreatDetector.blockAt :=
       fun n => if n =? 17 then SeiBlockchainService.Failed
                else SeiBlockchainService.Body (Some mixedBlock);
     EnhancedSeiThreatDetector.processingTime := 40 |}.

(** A chain that does not answer. *)
Definition unreachable : EnhancedSeiThreatDetector.world :=
  {| EnhancedSeiThreatDetector.head := SeiBlockchainService.Failed;
     EnhancedSeiThreatDetector.blockAt := fun _ => SeiBlockchainService.Failed;
     EnhancedSeiThreatDetector.processingTime := 10000 |}.

(** The head is seen at block 18, the chain is unreachable, the head is
    seen at block 20, the detector is stopped, the timer fires once more. *)
Definition session : list EnhancedSeiThreatDetector.tick :=
  [ EnhancedSeiThreatDetector.Fire (chainAt "0x12");
    EnhancedSeiThreatDetector.Fire unreachable;
    EnhancedSeiThreatDetector.Fire (chainAt "0x14");
    EnhancedSeiThreatDetector.Stop;
    EnhancedSeiThreatDetector.Fire (chainAt "0x20") ].

End Scenarios.
(* ===================================================================== *)
(** * Properties *)
(* ===================================================================== *)

(** ** Numbers and strings *)

Lemma Qltb_lt (x y : Q) : JS.Qltb x y = true <-> (x < y)%Q.
Proof. unfold JS.Qltb, Qlt. apply Z.ltb_lt. Qed.

Lemma Qltb_ge (x y : Q) : JS.Qltb x y = false <-> (y <= x)%Q.
Proof. unfold JS.Qltb, Qle. rewrite Z.ltb_ge. reflexivity. Qed.

Lemma Qzero_eq (x : Q) : JS.Qzero x = true <-> (x == 0)%Q.
Proof.
  unfold JS.Qzero, Qeq. simpl. rewrite Z.eqb_eq, Z.mul_1_r. reflexivity.
Qed.


Example parseInt16_gas : JS.parseInt16 "0x1C9C380000" = JS.of_Z 122880000000.
Proof. reflexivity. Qed.

Example parseInt16_signed : JS.parseInt16 "-0x1" = JS.of_Z (-1).
Proof. reflexivity. Qed.

Example parseInt16_not_a_number : JS.parseInt16 "xyz" = JS.NaN.
Proof. reflexivity. Qed.

Example includes_lowered :
  JS.includes (JS.toLowerCase "A High Risk transfer") "high risk" = true.
Proof. reflexivity. Qed.

(** [parseInt] never yields an infinity in this model. *)
Lemma parseInt16_cases (s : string) :
  JS.parseInt16 s = JS.NaN \/ exists z, JS.parseInt16 s = JS.of_Z z.
Proof.
  unfold JS.parseInt16. destruct (JS.strip_sign _) as [negative body].
  destruct (JS.hex_digits _ _); eauto.
Qed.

(** ** The heuristic detectors *)

Section Detectors.

Import LocalThreatDetector.

Variable config : DetectorConfig.

Let threshold := gasAnomalyThreshold (threatThresholds config).

(** C3.  A transaction whose gas price is strictly above the configured
    gas-anomaly threshold yields exactly one gas-anomaly alert; its
    severity is [high] exactly when the price exceeds twice the threshold
    and [medium] otherwise, and its confidence is
    [min(0.9, price / threshold * 0.3)].  A transaction whose gas price
    does not exceed the threshold yields no gas-anomaly alert. *)
Theorem gas_anomaly_alert (tx : RealTransaction) (now : Z) :
  let price := JS.parseInt16 (gasPrice tx) in
  (JS.gt price threshold = true ->
     exists a, detectGasAnomalies config tx now = [a]
       /\ type a = suspicious_pattern
       /\ (severity a = high <-> JS.gt price (JS.mul threshold (JS.of_Z 2)) = true)
       /\ (severity a = medium <-> JS.gt price (JS.mul threshold (JS.of_Z 2)) = false)
       /\ confidence a
          = JS.Math_min (JS.Fin 0.9) (JS.mul (JS.div price threshold) (JS.Fin 0.3)))
  /\ (JS.gt price threshold = false -> detectGasAnomalies config tx now = []).
Proof.
  intros price. unfold detectGasAnomalies. fold threshold. fold price. split.
  - intros ->. eexists. split; [reflexivity|]. simpl.
    destruct (JS.gt price (JS.mul threshold (JS.of_Z 2))); repeat split; congruence.
  - intros ->. reflexivity.
Qed.

End Detectors.

Lemma gas_anomaly_alert_witness :
  exists a, LocalThreatDetector.detectGasAnomalies Samples.config Samples.pricey 0 = [a]
    /\ severity a = medium
    /\ JS.eqv (confidence a) (JS.Fin 0.3072).
Proof.
  destruct (gas_anomaly_alert Samples.config Samples.pricey 0) as [fires _].
  destruct (fires eq_refl) as (a & Ha & _ & _ & Hmedium & Hconf).
  exists a. split; [exact Ha|]. split; [apply Hmedium; reflexivity|].
  rewrite Hconf. vm_compute. reflexivity.
Defined.

Section Creation.

Import LocalThreatDetector.


End Creation.


(** ** The sliding windows *)

Section Windows.

Import LocalThreatDetector.

Lemma track_window (st : state) (tx : RealTransaction) (key : string) :
  window (trackTransaction st tx) key
  = if decide (key = pair_key tx) then pushCapped (window st key) tx
    else window st key.
Proof.
  unfold window, trackTransaction, pushCapped. cbn [recentTransactions].
  destruct (decide (key = pair_key tx)) as [->|Hne].
  - destruct (recentTransactions st !! pair_key tx) as [w|] eqn:Hw.
    + rewrite lookup_insert_eq. cbn. rewrite Hw. reflexivity.
    + rewrite lookup_insert_eq. cbn. rewrite lookup_insert_eq. reflexivity.
  - destruct (recentTransactions st !! pair_key tx) as [w|] eqn:Hw.
    + rewrite lookup_insert_ne by congruence. reflexivity.
    + rewrite !lookup_insert_ne by congruence. reflexivity.
Qed.

Lemma trackAll_snoc (st : state) (txs : list RealTransaction) (tx : RealTransaction) :
  trackAll st (txs ++ [tx]) = trackTransaction (trackAll st txs) tx.
Proof. unfold trackAll. rewrite fold_left_app. reflexivity. Qed.

Lemma tail_drop {A} (l : list A) : tail l = drop 1 l.
Proof. destruct l; reflexivity. Qed.

(** Keeping the last ten of a sequence commutes with [push] and [shift]. *)
Lemma pushCapped_suffix (f : list RealTransaction) (tx : RealTransaction) :
  pushCapped (drop (length f - 10) f) tx
  = drop (length (f ++ [tx]) - 10) (f ++ [tx]).
Proof.
  unfold pushCapped. rewrite !length_app, length_drop. cbn [length].
  destruct (Nat.ltb_spec 10 (length f - (length f - 10) + 1)) as [Hlt|Hle].
  - rewrite tail_drop, <- drop_app_le by lia.
    rewrite drop_drop. f_equal. lia.
  - replace (length f - 10)%nat with 0%nat by lia.
    replace (length f + 1 - 10)%nat with 0%nat by lia. reflexivity.
Qed.

Lemma between_snoc (key : string) (txs : list RealTransaction) (tx : RealTransaction) :
  between key (txs ++ [tx])
  = if decide (pair_key tx = key) then between key txs ++ [tx] else between key txs.
Proof.
  unfold between. rewrite filter_app.
  destruct (decide (pair_key tx = key)) as [E|E].
  - rewrite filter_cons_True by exact E. reflexivity.
  - rewrite filter_cons_False by exact E. rewrite filter_nil. apply app_nil_r.
Qed.

(** One step of the window: the transaction is appended at the end, and
    the head is dropped exactly when the window was full. *)
Lemma track_window_step (st : state) (tx : RealTransaction) :
  let w := window st (pair_key tx) in
  window (trackTransaction st tx) (pair_key tx)
  = if (length w <? 10)%nat then w ++ [tx] else tail w ++ [tx].
Proof.
  cbn zeta. rewrite track_window, decide_True by reflexivity.
  unfold pushCapped. rewrite length_app. cbn [length].
  destruct (Nat.ltb_spec 10 (length (window st (pair_key tx)) + 1)) as [H|H];
    destruct (Nat.ltb_spec (length (window st (pair_key tx))) 10) as [H'|H'];
    try lia; try reflexivity.
  destruct (window st (pair_key tx)); [cbn in *; lia | reflexivity].
Qed.

(** C6.  After any sequence of transactions, the window of every pair
    holds at most 10 entries, and these are the most recent transactions
    of that pair in arrival order; the next transaction of a pair is
    appended at the end of its window, and when that append would exceed
    the cap it is the oldest entry, the head, that is evicted. *)
Theorem window_capped_fifo (txs : list RealTransaction) (key : string)
    (next : RealTransaction) :
  let st := trackAll init txs in
  let w := window st key in
  (length w <= 10)%nat
  /\ w = drop (length (between key txs) - 10) (between key txs)
  /\ window (trackTransaction st next) (pair_key next)
     = if (length (window st (pair_key next)) <? 10)%nat
       then window st (pair_key next) ++ [next]
       else tail (window st (pair_key next)) ++ [next].
Proof.
  cbn zeta. split; [|split; [|apply track_window_step]].
  all: induction txs as [|tx txs IH] using rev_ind.
  1, 3: unfold window, trackAll, between; cbn; rewrite lookup_empty; cbn;
    first [lia | reflexivity].
  - rewrite trackAll_snoc, track_window. unfold pushCapped.
    destruct (decide (key = pair_key tx)) as [->|Hne]; [|exact IH].
    rewrite length_app. cbn [length].
    destruct (Nat.ltb_spec 10 (length (window (trackAll init txs) (pair_key tx)) + 1)).
    + rewrite tail_drop, length_drop, length_app. cbn [length]. lia.
    + rewrite length_app. cbn [length]. lia.
  - rewrite trackAll_snoc, track_window, between_snoc.
    destruct (decide (key = pair_key tx)) as [->|Hne].
    + rewrite decide_True by reflexivity. rewrite IH. apply pushCapped_suffix.
    + rewrite decide_False by congruence. exact IH.
Qed.

Example window_eviction :
  let txs := map (fun n => Samples.transfer Samples.alice (Some Samples.bob) "0x1"
                            (Samples.payload n)) (seq 0 12) in
  map (fun tx => String.length (input tx))
      (window (trackAll init txs) (Samples.alice +:+ "-" +:+ Samples.bob))
  = [2; 3; 4; 5; 6; 7; 8; 9; 10; 11]%nat.
Proof. vm_compute. reflexivity. Qed.

Lemma append_nil_l (x : string) : "" +:+ x = x.
Proof. reflexivity. Qed.

Lemma append_cons (c : ascii) (a x : string) : String c a +:+ x = String c (a +:+ x).
Proof. reflexivity. Qed.

(** The key of a window is the sender, a dash and the recipient. *)
Lemma append_dash_inj (a b x y : string) :
  JS.dashless a = true -> JS.dashless b = true ->
  a +:+ "-" +:+ x = b +:+ "-" +:+ y -> a = b /\ x = y.
Proof.
  revert b. induction a as [|c a IH]; intros [|d b] Ha Hb E;
    rewrite ?append_cons, ?append_nil_l in E; cbn in Ha, Hb.
  - injection E as ->. split; reflexivity.
  - injection E as <- _. discriminate.
  - injection E as -> _. discriminate.
  - injection E as -> E.
    apply andb_prop in Ha as [_ Ha]. apply andb_prop in Hb as [_ Hb].
    destruct (IH b Ha Hb E) as [-> ->]. split; reflexivity.
Qed.

(** C5, as the code has it.  The window is keyed by the ordered pair:
    the key is the sender, a dash and the recipient.  A transaction is
    appended to the window of its own key and leaves every other window
    untouched; two transactions with the same sender and the same
    recipient share a window; and two transactions whose senders contain
    no dash share a window only if they have the same sender and the same
    recipient. *)
Theorem window_keyed_by_ordered_pair (st : state) (tx tx' : RealTransaction) :
  last (window (trackTransaction st tx) (pair_key tx)) = Some tx
  /\ (forall key, key <> pair_key tx ->
        window (trackTransaction st tx) key = window st key)
  /\ (from tx = from tx' -> to tx = to tx' -> pair_key tx = pair_key tx')
  /\ (JS.dashless (from tx) = true -> JS.dashless (from tx') = true ->
        pair_key tx = pair_key tx' ->
        from tx = from tx' /\ to_string (to tx) = to_string (to tx')).
Proof.
  split; [|split; [|split]].
  - rewrite track_window_step.
    destruct (length (window st (pair_key tx)) <? 10)%nat; apply last_snoc.
  - intros key Hne. rewrite track_window, decide_False by exact Hne. reflexivity.
  - intros Hf Ht. unfold pair_key. rewrite Hf, Ht. reflexivity.
  - intros Hd Hd' E. unfold pair_key in E. apply append_dash_inj; assumption.
Qed.

End Windows.

(** C5, as stated, fails: after a transaction from A to B and one from B
    to A, the two sit in two different windows, and no window holds both. *)
Lemma window_key_not_symmetric :
  let st := LocalThreatDetector.trackAll LocalThreatDetector.init
              [Samples.alice_to_bob; Samples.bob_to_alice] in
  LocalThreatDetector.window st "0xaa-0xbb" = [Samples.alice_to_bob]
  /\ LocalThreatDetector.window st "0xbb-0xaa" = [Samples.bob_to_alice]
  /\ ~ (exists key, In Samples.alice_to_bob (LocalThreatDetector.window st key)
                  /\ In Samples.bob_to_alice (LocalThreatDetector.window st key)).
Proof.
  cbn zeta. split; [|split].
  - vm_compute. reflexivity.
  - vm_compute. reflexivity.
  - intros (key & Hab & Hba).
    change (LocalThreatDetector.trackAll LocalThreatDetector.init
              [Samples.alice_to_bob; Samples.bob_to_alice])
      with (LocalThreatDetector.trackTransaction
              (LocalThreatDetector.trackTransaction LocalThreatDetector.init
                 Samples.alice_to_bob) Samples.bob_to_alice) in Hab, Hba.
    rewrite !track_window in Hab, Hba.
    destruct (decide (key = LocalThreatDetector.pair_key Samples.bob_to_alice)) as [->|Hne].
    + vm_compute in Hab. destruct Hab as [Hab|[]]. discriminate.
    + destruct (decide (key = LocalThreatDetector.pair_key Samples.alice_to_bob)) as [->|Hne'].
      * vm_compute in Hba. destruct Hba as [Hba|[]]. discriminate.
      * unfold LocalThreatDetector.window, LocalThreatDetector.init in Hab.
        cbn in Hab. rewrite lookup_empty in Hab. destruct Hab.
Qed.

Lemma window_keyed_by_ordered_pair_witness :
  LocalThreatDetector.pair_key Samples.alice_to_bob
    = LocalThreatDetector.pair_key Samples.quiet
  /\ from Samples.alice_to_bob = from Samples.quiet
  /\ last (LocalThreatDetector.window
             (LocalThreatDetector.trackTransaction Samples.quietHistory
                Samples.alice_to_bob) "0xaa-0xbb")
     = Some Samples.alice_to_bob.
Proof.
  destruct (window_keyed_by_ordered_pair Samples.quietHistory
              Samples.alice_to_bob Samples.quiet) as (Hlast & _ & same & inj).
  assert (Hkey : LocalThreatDetector.pair_key Samples.alice_to_bob
                 = LocalThreatDetector.pair_key Samples.quiet)
    by (apply same; reflexivity).
  split; [exact Hkey|]. split; [|exact Hlast].
  apply (inj eq_refl eq_refl Hkey).
Defined.

(** ** The MEV pattern *)

Section MEV.

Import LocalThreatDetector.

Variable config : DetectorConfig.

Let threshold := gasAnomalyThreshold (threatThresholds config).

Lemma sumGasPrice_snoc (w : list RealTransaction) (tx : RealTransaction) :
  sumGasPrice (w ++ [tx]) = JS.add (sumGasPrice w) (JS.parseInt16 (gasPrice tx)).
Proof. unfold sumGasPrice. rewrite fold_left_app. reflexivity. Qed.

(** With two unsigned entries before it, the current price cannot exceed
    three times the average of the three: the sum already contains it. *)
Lemma no_mev_among_three (p : list RealTransaction) (tx : RealTransaction) :
  Forall unsignedGas p -> length p = 2%nat ->
  JS.gt (JS.parseInt16 (gasPrice tx))
        (JS.mul (avgGasPrice (p ++ [tx])) (JS.of_Z 3)) = false.
Proof.
  intros Hp Hlen.
  destruct p as [|a [|b [|? ?]]]; try discriminate. clear Hlen.
  apply Forall_cons in Hp as [Ha Hp]. apply Forall_cons in Hp as [Hb _].
  unfold unsignedGas in Ha, Hb. unfold avgGasPrice, sumGasPrice.
  cbn [fold_left app length].
  destruct (parseInt16_cases (gasPrice a)) as [Ea|[za Ea]];
    destruct (parseInt16_cases (gasPrice b)) as [Eb|[zb Eb]];
    destruct (parseInt16_cases (gasPrice tx)) as [Et|[zt Et]];
    rewrite Ea, Eb, Et in *; unfold JS.of_nat, JS.of_Z in *; cbn in *;
    try reflexivity.
  apply Qltb_ge in Ha, Hb. apply Qltb_ge.
  set (A := inject_Z za) in *. set (B := inject_Z zb) in *. set (T := inject_Z zt).
  assert (E : ((0 + A + B + T) / inject_Z 3 * inject_Z 3 == 0 + A + B + T)%Q)
    by (field; discriminate).
  rewrite E. change (inject_Z 0) with 0%Q in *. lra.
Qed.




End MEV.



(** The detector looks at the window after the current transaction has
    been appended.  Two earlier entries already pass its length test, but
    with unsigned prices the average test then fails: here two transfers
    at 10 gwei are followed by one at 400 gwei, and no alert is raised. *)
Example mev_two_earlier_entries :
  let st := LocalThreatDetector.trackAll LocalThreatDetector.init
              [Samples.quiet; Samples.quiet] in
  let st' := LocalThreatDetector.trackTransaction st Samples.spike in
  length (LocalThreatDetector.window st' "0xaa-0xbb") = 3%nat
  /\ LocalThreatDetector.detectMEVActivity Samples.config st' Samples.spike 0 = [].
Proof. split; vm_compute; reflexivity. Qed.

(** The average is that of the whole window, the current transaction
    included: after three transfers at 10 gwei the average seen by a
    transfer at 400 gwei is 107.5 gwei. *)
Example mev_average_counts_current :
  JS.eqv (LocalThreatDetector.avgGasPrice
            (LocalThreatDetector.window
               (LocalThreatDetector.trackTransaction Samples.quietHistory Samples.spike)
               "0xaa-0xbb"))
         (JS.of_Z 107500000000).
Proof. vm_compute. reflexivity. Qed.

(** ** Alerts from the enrichment *)

Section Enrichment.

Import HiveIntelligenceService ThreatProcessor.

(** The overall risk read off a response is one of four constants. *)
Lemma extractOverallRisk_values (text : string) :
  In (extractOverallRisk text) [JS.Fin 0.8; JS.Fin 0.5; JS.Fin 0.2; JS.Fin 0.3].
Proof.
  unfold extractOverallRisk.
  repeat match goal with |- context [if ?b then _ else _] => destruct b end;
    cbn; auto.
Qed.

Lemma parsed_overallRisk (data : SearchData) (analysis : HiveAnalysis) :
  parseSearchResponse data = Normal (Some analysis) ->
  In (overallRisk analysis) [JS.Fin 0.8; JS.Fin 0.5; JS.Fin 0.2; JS.Fin 0.3].
Proof.
  destruct data as [|[| raw |] sources]; cbn; try discriminate.
  destruct (String.eqb raw ""); [discriminate|].
  intros [= <-]. cbn. apply extractOverallRisk_values.
Qed.

(** Only the last block of [processHiveThreats] yields a
    [suspicious_pattern]; it runs when nothing was pushed before it. *)
Lemma general_alert (tx : RealTransaction) (analysis : HiveAnalysis)
    (now : nat -> Z) (a : ThreatAlert) :
  In a (processHiveThreats tx analysis now) -> type a = suspicious_pattern ->
  processHiveThreats tx analysis now = [a]
  /\ JS.gt (overallRisk analysis) (JS.Fin 0.7) = true
  /\ severity a
     = (if JS.gt (overallRisk analysis) (JS.Fin 0.8) then high else medium).
Proof.
  unfold processHiveThreats.
  set (rug := match rugPull analysis with Some _ => _ | None => _ end).
  set (flash := match flashLoan analysis with Some _ => _ | None => _ end).
  set (mevs := match mev analysis with Some _ => _ | None => _ end).
  intros Hin Hty.
  assert (Hspecific : forall b, In b (rug ++ flash ++ mevs) -> type b <> suspicious_pattern).
  { intros b Hb. apply in_app_or in Hb as [Hb|Hb]; [|apply in_app_or in Hb as [Hb|Hb]].
    - subst rug. destruct (rugPull analysis) as [r|]; [|destruct Hb].
      destruct (JS.gt (risk r) (JS.Fin 0.5)); [|destruct Hb].
      destruct Hb as [<-|[]]. discriminate.
    - subst flash. destruct (flashLoan analysis) as [r|]; [|destruct Hb].
      destruct (JS.gt (risk r) (JS.Fin 0.6)); [|destruct Hb].
      destruct Hb as [<-|[]]. discriminate.
    - subst mevs. destruct (mev analysis) as [r|]; [|destruct Hb].
      destruct (JS.gt (risk r) (JS.Fin 0.6)); [|destruct Hb].
      destruct Hb as [<-|[]]. discriminate. }
  apply in_app_or in Hin as [Hin|Hin]; [destruct (Hspecific a Hin Hty)|].
  destruct (JS.gt (overallRisk analysis) (JS.Fin 0.7)); [|destruct Hin].
  destruct (rug ++ flash ++ mevs) as [|b rest]; [|destruct Hin].
  cbn in Hin |- *. destruct Hin as [<-|[]]. repeat split.
Qed.

(** C10.  An alert of type [suspicious_pattern] produced from a parsed
    enrichment response has severity [medium]: it is emitted only when no
    category fired and the overall risk exceeds 0.7, the overall risk of a
    parsed response is one of 0.8, 0.5, 0.2 and 0.3, hence exactly 0.8,
    which does not exceed 0.8. *)
Theorem fallback_alert_is_medium (data : SearchData) (analysis : HiveAnalysis)
    (tx : RealTransaction) (now : nat -> Z) (a : ThreatAlert) :
  parseSearchResponse data = Normal (Some analysis) ->
  In a (processHiveThreats tx analysis now) ->
  type a = suspicious_pattern ->
  severity a = medium
  /\ overallRisk analysis = JS.Fin 0.8
  /\ processHiveThreats tx analysis now = [a].
Proof.
  intros Hparse Hin Hty.
  destruct (general_alert tx analysis now a Hin Hty) as (Hone & Hgate & Hsev).
  pose proof (parsed_overallRisk data analysis Hparse) as Hvalues.
  cbn in Hvalues.
  destruct Hvalues as [E|[E|[E|[E|[]]]]]; rewrite <- E in Hgate, Hsev;
    try discriminate.
  split; [exact Hsev|]. split; [symmetry; exact E | exact Hone].
Qed.

End Enrichment.

Lemma fallback_alert_is_medium_witness :
  exists analysis a,
    HiveIntelligenceService.parseSearchResponse Samples.dangerous = Normal (Some analysis)
    /\ ThreatProcessor.processHiveThreats Samples.pricey analysis (fun _ => 0) = [a]
    /\ severity a = medium.
Proof.
  assert (Hparse : exists analysis,
            HiveIntelligenceService.parseSearchResponse Samples.dangerous
            = Normal (Some analysis))
    by (eexists; vm_compute; reflexivity).
  destruct Hparse as [analysis Hparse]. exists analysis.
  assert (Hone : exists a,
            ThreatProcessor.processHiveThreats Samples.pricey analysis (fun _ => 0) = [a]
            /\ type a = suspicious_pattern).
  { vm_compute in Hparse. injection Hparse as <-.
    eexists. split; vm_compute; reflexivity. }
  destruct Hone as (a & Hone & Hty). exists a.
  split; [exact Hparse|]. split; [exact Hone|].
  apply (fallback_alert_is_medium Samples.dangerous analysis Samples.pricey (fun _ => 0) a);
    [exact Hparse | rewrite Hone; left; reflexivity | exact Hty].
Defined.

(** ** Handling an alert *)

Section Handling.

Import ThreatProcessor.

Variable config : DetectorConfig.

Lemma executeMitigation_trace (threat : ThreatAlert) :
  exists logs,
    Forall isLog logs
    /\ executeMitigation config threat
       = (withMitigated threat true,
          Mitigation threat :: logs ++ [SendAlert (withMitigated threat true)]).
Proof.
  unfold executeMitigation.
  exists ([Log "AUTO-MITIGATION ACTIVATED"]
          ++ (if autoFreeze (mitigation config)
              then [Log "Action: Contract interaction freeze initiated"] else [])
          ++ (if emergencyPause (mitigation config)
              then [Log "Action: Emergency pause protocols activated"] else [])
          ++ [Log "Mitigation completed successfully"]).
  destruct (autoFreeze (mitigation config)), (emergencyPause (mitigation config));
    cbn; (split; [|reflexivity]); repeat constructor.
Qed.

(** C7.  For an alert that is handled (its timestamp is a time value, so
    that the handler gets past its log lines), the mitigation hook is
    invoked exactly when mitigation is enabled, the severity is [critical]
    and the confidence exceeds 0.8; it is never invoked for severity
    [high]; and when it is invoked, the alert has first been dispatched,
    its [mitigated] flag is then set, and the updated alert is dispatched
    once more. *)
Theorem mitigation_rule (threat : ThreatAlert) :
  validTime (alert_timestamp threat) = true ->
  exists threat' trace,
    handleThreat config threat = (Normal threat', trace)
    /\ (mitigationInvoked trace <->
          mitigation_enabled (mitigation config) = true
          /\ severity threat = critical
          /\ JS.gt (confidence threat) (JS.Fin 0.8) = true)
    /\ (severity threat = high -> ~ mitigationInvoked trace)
    /\ (mitigationInvoked trace ->
          mitigated threat' = true
          /\ threat' = withMitigated threat true
          /\ exists logs,
               Forall isLog logs
               /\ trace = Log "THREAT DETECTED" :: SendAlert threat
                          :: Mitigation threat :: logs ++ [SendAlert threat'])
    /\ (~ mitigationInvoked trace -> threat' = threat).
Proof.
  intros Hvalid. unfold handleThreat. rewrite Hvalid. cbn [negb].
  destruct (executeMitigation_trace threat) as (logs & Hlogs & Hexec).
  rewrite Hexec.
  assert (Hnone : forall sent, Forall (fun e => e = SendAlert threat) sent ->
                    ~ mitigationInvoked ([Log "THREAT DETECTED"] ++ sent)).
  { intros sent Hsent [t [Ht|Ht]]; [discriminate|].
    cbn in Ht. rewrite List.Forall_forall in Hsent.
    specialize (Hsent _ Ht). discriminate. }
  destruct (mitigation_enabled (mitigation config)) eqn:Hen; cbn [andb].
  2: { do 2 eexists. split; [reflexivity|].
       assert (Hno : ~ mitigationInvoked
                       ([Log "THREAT DETECTED"]
                        ++ match severity threat with
                           | low => [] | _ => [SendAlert threat] end))
         by (apply Hnone; destruct (severity threat); repeat constructor).
       split; [split; [intros H; destruct (Hno H) | intros [? _]; discriminate]|].
       split; [intros _; exact Hno|].
       split; [intros H; destruct (Hno H) | reflexivity]. }
  destruct (severity threat) eqn:Hsev;
    try (rewrite bool_decide_eq_false_2 by discriminate; cbn [andb];
         do 2 eexists; split; [reflexivity|];
         match goal with |- context [[Log _] ++ ?sent] =>
           assert (Hno : ~ mitigationInvoked ([Log "THREAT DETECTED"] ++ sent))
             by (apply Hnone; repeat constructor)
         end;
         split; [split; [intros H; destruct (Hno H) | intros (_ & ? & _); discriminate]|];
         split; [intros _; exact Hno|];
         split; [intros H; destruct (Hno H) | reflexivity]).
  rewrite bool_decide_eq_true_2 by reflexivity. cbn [andb].
  destruct (JS.gt (confidence threat) (JS.Fin 0.8)) eqn:Hconf.
  - do 2 eexists. split; [reflexivity|].
    assert (Hyes : mitigationInvoked
                     ([Log "THREAT DETECTED"] ++ [SendAlert threat]
                      ++ Mitigation threat :: logs
                      ++ [SendAlert (withMitigated threat true)]))
      by (exists threat; cbn; auto).
    split; [split; [intros _; repeat split | intros _; exact Hyes]|].
    split; [discriminate|].
    split; [|intros Hno; destruct (Hno Hyes)].
    intros _. split; [reflexivity|]. split; [reflexivity|].
    exists logs. split; [exact Hlogs | reflexivity].
  - do 2 eexists. split; [reflexivity|].
    assert (Hno : ~ mitigationInvoked ([Log "THREAT DETECTED"] ++ [SendAlert threat]))
      by (apply Hnone; repeat constructor).
    split; [split; [intros H; destruct (Hno H) | intros (_ & _ & ?); discriminate]|].
    split; [intros _; exact Hno|].
    split; [intros H; destruct (Hno H) | reflexivity].
Qed.

(** Without a time value the handler stops at its first log line. *)
Lemma handleThreat_invalid_time (threat : ThreatAlert) :
  validTime (alert_timestamp threat) = false ->
  handleThreat config threat = (Throw "RangeError", []).
Proof. intros H. unfold handleThreat. rewrite H. reflexivity. Qed.

End Handling.

Lemma mitigation_rule_witness :
  exists threat' trace,
    ThreatProcessor.handleThreat Samples.config
      (Samples.alert rug_pull critical (JS.Fin 0.9) (JS.of_Z 1700000000000))
    = (Normal threat', trace)
    /\ ThreatProcessor.mitigationInvoked trace /\ mitigated threat' = true.
Proof.
  destruct (mitigation_rule Samples.config
              (Samples.alert rug_pull critical (JS.Fin 0.9) (JS.of_Z 1700000000000))
              eq_refl)
    as (threat' & trace & Hrun & Hiff & _ & Hafter & _).
  exists threat', trace. split; [exact Hrun|].
  assert (Hinvoked : ThreatProcessor.mitigationInvoked trace)
    by (apply Hiff; repeat split).
  split; [exact Hinvoked | apply (Hafter Hinvoked)].
Defined.

(** ** The enrichment client *)

Section Client.

Import HiveIntelligenceService.

Variable config : DetectorConfig.

Lemma eligible_spec (tx : RealTransaction) :
  eligible config tx
  = JS.gt (JS.parseInt16 (value tx)) (flashLoanMinValue (threatThresholds config))
    || JS.gt (JS.parseInt16 (gasPrice tx)) (gasAnomalyThreshold (threatThresholds config))
    || (100 <? String.length (input tx))%nat.
Proof.
  unfold eligible.
  destruct (JS.gt _ _), (JS.gt _ _), (_ <? _)%nat; reflexivity.
Qed.

(** The retry loop, attempt by attempt. *)
Lemma attempts_result (tx : RealTransaction) (w : world) (st : state) :
  let '(r, st', trace) := attempts retryCount 1 tx w st in
  r = match tryBlock w 1 with
      | Normal x => Normal x
      | Throw _ => match tryBlock w 2 with
                   | Normal x => Normal x
                   | Throw _ => Normal None
                   end
      end
  /\ schedule trace
     = match tryBlock w 1 with
       | Normal _ => [Attempt 1]
       | Throw _ => [Attempt 1; Wait (retryDelay * 1); Attempt 2]
       end
  /\ checks trace = []
  /\ requestTimestamps st' = requestTimestamps st ++ recorded trace
  /\ recorded trace
     = match post w 1 with
       | PostOk _ => [clockRecord w 1]
       | PostError _ => []
       end
       ++ match tryBlock w 1, post w 2 with
          | Throw _, PostOk _ => [clockRecord w 2]
          | _, _ => []
          end.
Proof.
  unfold tryBlock. cbn.
  destruct (post w 1) as [d1|s1]; [destruct (parseSearchResponse d1) as [r1|e1]|];
    cbn; try (repeat split; rewrite ?app_nil_r; reflexivity);
    (destruct (post w 2) as [d2|s2]; [destruct (parseSearchResponse d2) as [r2|e2]|]);
    cbn; repeat split; rewrite <- ?app_assoc, ?app_nil_r; reflexivity.
Qed.

Lemma wellFormed_parse (data : SearchData) :
  if wellFormed data
  then exists analysis, parseSearchResponse data = Normal (Some analysis)
  else parseSearchResponse data = Normal None
       \/ parseSearchResponse data = Throw "TypeError".
Proof.
  destruct data as [|[| raw |] sources]; cbn; auto.
  destruct (String.eqb raw ""); cbn; eauto.
Qed.

Lemma analyzeTransaction_loop (st : state) (tx : RealTransaction) (w : world) :
  reachesLoop config st tx w = true ->
  analyzeTransaction config st tx w
  = let st1 := snd (canMakeRequest st (clockCheck w)) in
    let '(r, st2, trace) := attempts retryCount 1 tx w st1 in
    (r, st2, RateCheck (clockCheck w) :: trace).
Proof.
  unfold reachesLoop, active, analyzeTransaction, canMakeRequest.
  cbn [requestTimestamps snd].
  intros H. apply andb_prop in H as [H Hel]. apply andb_prop in H as [H Hadm].
  apply andb_prop in H as [Hen Hkey]. rewrite Hen, Hkey, Hadm, Hel. reflexivity.
Qed.

Lemma analyzeTransaction_skip (st : state) (tx : RealTransaction) (w : world) :
  reachesLoop config st tx w = false ->
  let '(r, st', trace) := analyzeTransaction config st tx w in
  r = Normal None /\ schedule trace = [] /\ recorded trace = []
  /\ requestCount st' = requestCount st
  /\ (if active config
      then (exists rest, trace = RateCheck (clockCheck w) :: rest)
           /\ requestTimestamps st' = purge (clockCheck w) (requestTimestamps st)
      else trace = [] /\ st' = st).
Proof.
  unfold reachesLoop, active, analyzeTransaction, canMakeRequest.
  cbn [requestTimestamps requestCount].
  destruct (enabled (hiveIntelligence config)); cbn [negb orb andb];
    [|intros _; repeat split].
  destruct (truthy (apiKey (hiveIntelligence config))); cbn [negb orb andb];
    [|intros _; repeat split].
  destruct (length (purge (clockCheck w) (requestTimestamps st)) <? maxRequestsPerMinute)%nat;
    cbn [negb andb].
  - intros ->. cbn. repeat split. eauto.
  - intros _. destruct (requestCount st mod 20 =? 0)%nat; cbn; repeat split; eauto.
Qed.

(** C8, as the code has it.  A call of the enrichment never ends in an
    exception.  It makes at most two requests, the second only after the
    first attempt has failed and after a wait of the base delay (1000 ms)
    times the attempt number.  An attempt fails when its request is
    rejected or when its answer cannot be parsed (a [response] that is
    truthy but not a string): such a malformed first answer is not turned
    into "no result" but retried, and what the second attempt yields is
    returned.  Any other first answer is returned at once, as "no result"
    when it is empty.  When the last attempt fails as well, and whenever
    no well-formed answer arrives, the caller gets "no result"; and the
    pipeline keeps the heuristic alerts whatever the enrichment does. *)
Theorem enrichment_failures_contained (st : state) (tx : RealTransaction) (w : world) :
  let '(r, _, trace) := analyzeTransaction config st tx w in
  (exists answer, r = Normal answer)
  /\ (schedule trace = []
      \/ schedule trace = [Attempt 1]
      \/ schedule trace = [Attempt 1; Wait (1000 * 1); Attempt 2])
  /\ (reachesLoop config st tx w = true ->
        (forall x, tryBlock w 1 = Normal x ->
           r = Normal x /\ schedule trace = [Attempt 1])
        /\ (forall e, tryBlock w 1 = Throw e ->
             schedule trace = [Attempt 1; Wait (retryDelay * 1); Attempt 2]
             /\ (forall x, tryBlock w 2 = Normal x -> r = Normal x)
             /\ (forall e', tryBlock w 2 = Throw e' -> r = Normal None)))
  /\ (reachesLoop config st tx w = true ->
        forall data, post w 1 = PostOk data ->
          match data with
          | DataObject RespOther _ =>
              schedule trace = [Attempt 1; Wait 1000; Attempt 2]
              /\ r = match post w 2 with
                     | PostOk data' =>
                         match parseSearchResponse data' with
                         | Normal x => Normal x
                         | Throw _ => Normal None
                         end
                     | PostError _ => Normal None
                     end
          | _ =>
              schedule trace = [Attempt 1]
              /\ r = parseSearchResponse data
              /\ (wellFormed data = false -> r = Normal None)
          end)
  /\ ((forall k data, post w k = PostOk data -> wellFormed data = false) ->
        r = Normal None)
  /\ (forall pst c,
        ThreatProcessor.hiveWorld c = w -> ThreatProcessor.hiveService pst = st ->
        exists extra,
          fst (fst (ThreatProcessor.analyzeThreatPatterns config pst tx c))
          = snd (LocalThreatDetector.detectThreats config
                   (ThreatProcessor.localDetector pst) tx (ThreatProcessor.localClock c))
            ++ extra
          /\ (r = Normal None -> extra = [])).
Proof.
  destruct (reachesLoop config st tx w) eqn:Hloop.
  - rewrite (analyzeTransaction_loop st tx w Hloop). cbn zeta.
    pose proof (attempts_result tx w (snd (canMakeRequest st (clockCheck w)))) as Hatt.
    destruct (attempts retryCount 1 tx w _) as [[r st2] trace] eqn:Hrun.
    destruct Hatt as (Hr & Hsched & _).
    change (schedule (RateCheck (clockCheck w) :: trace)) with (schedule trace).
    assert (Hnormal : exists answer, r = Normal answer).
    { rewrite Hr. destruct (tryBlock w 1); [eauto|]. destruct (tryBlock w 2); eauto. }
    split; [exact Hnormal|].
    split; [rewrite Hsched; destruct (tryBlock w 1); auto|].
    split; [intros _; split|split; [|split]].
    + intros x Hx. rewrite Hr, Hsched, Hx. auto.
    + intros e He. rewrite Hr, Hsched, He. split; [reflexivity|].
      split; [intros x ->; reflexivity | intros e' ->; reflexivity].
    + intros _ data Hpost. rewrite Hr, Hsched. unfold tryBlock. rewrite Hpost.
      destruct data as [|[| raw |] sources]; cbn.
      * auto.
      * auto.
      * destruct (String.eqb raw ""); cbn; repeat split; auto. discriminate.
      * split; [reflexivity|].
        destruct (post w 2) as [data'|status]; reflexivity.
    + intros Hbad. rewrite Hr. unfold tryBlock.
      assert (Hk : forall k, match post w k with
                             | PostOk data => parseSearchResponse data
                             | PostError _ => Throw "AxiosError"
                             end = Normal None
                             \/ exists e, match post w k with
                                          | PostOk data => parseSearchResponse data
                                          | PostError _ => Throw "AxiosError"
                                          end = Throw e).
      { intros k. destruct (post w k) as [d|s] eqn:Hp; [|eauto].
        pose proof (wellFormed_parse d) as Hwf. rewrite (Hbad k d Hp) in Hwf.
        destruct Hwf; eauto. }
      destruct (Hk 1%nat) as [->|[e ->]]; [reflexivity|].
      destruct (Hk 2%nat) as [->|[e' ->]]; reflexivity.
    + intros pst c Hw Hst. unfold ThreatProcessor.analyzeThreatPatterns.
      destruct (LocalThreatDetector.detectThreats _ _ _ _) as [local' localThreats].
      rewrite Hw, Hst, (analyzeTransaction_loop st tx w Hloop). cbn zeta.
      rewrite Hrun. destruct Hnormal as [[analysis|] ->]; cbn.
      * eexists. split; [reflexivity | discriminate].
      * exists []. rewrite app_nil_r. auto.
  - pose proof (analyzeTransaction_skip st tx w Hloop) as Hskip.
    destruct (analyzeTransaction config st tx w) as [[r st'] trace] eqn:Hrun.
    destruct Hskip as (-> & Hsched & _).
    split; [eauto|]. split; [auto|]. split; [discriminate|]. split; [discriminate|].
    split; [reflexivity|].
    intros pst c Hw Hst. unfold ThreatProcessor.analyzeThreatPatterns.
    destruct (LocalThreatDetector.detectThreats _ _ _ _) as [local' localThreats].
    rewrite Hw, Hst, Hrun. cbn. exists []. rewrite app_nil_r. auto.
Qed.

End Client.

Lemma enrichment_failures_contained_witness :
  exists st' trace,
    HiveIntelligenceService.analyzeTransaction Samples.config
      HiveIntelligenceService.init Samples.pricey (Samples.offline 0)
    = (Normal None, st', trace)
    /\ HiveIntelligenceService.schedule trace
       = [HiveIntelligenceService.Attempt 1; HiveIntelligenceService.Wait 1000;
          HiveIntelligenceService.Attempt 2].
Proof.
  pose proof (enrichment_failures_contained Samples.config
                HiveIntelligenceService.init Samples.pricey (Samples.offline 0)) as H.
  destruct (HiveIntelligenceService.analyzeTransaction _ _ _ _) as [[r st'] trace].
  destruct H as (_ & _ & Hloop & _).
  assert (Hreach : HiveIntelligenceService.reachesLoop Samples.config
                     HiveIntelligenceService.init Samples.pricey (Samples.offline 0) = true)
    by (vm_compute; reflexivity).
  destruct (Hloop Hreach) as [_ Hfail].
  destruct (Hfail "AxiosError" eq_refl) as (Hsched & _ & Hnull).
  exists st', trace. rewrite (Hnull "AxiosError" eq_refl).
  split; [reflexivity | exact Hsched].
Defined.

(** C8, as stated, fails: a malformed answer does not yield "no result".
    In [Samples.garbledOnce] the first answer carries a [response] that is
    not a string; the attempt is retried after 1000 ms, and the analysis
    of the second answer is what the caller gets. *)
Lemma malformed_answer_is_retried :
  let '(r, _, trace) :=
    HiveIntelligenceService.analyzeTransaction Samples.config
      HiveIntelligenceService.init Samples.pricey (Samples.garbledOnce 0) in
  HiveIntelligenceService.post (Samples.garbledOnce 0) 1
  = HiveIntelligenceService.PostOk
      (HiveIntelligenceService.DataObject HiveIntelligenceService.RespOther None)
  /\ r <> Normal None
  /\ r = HiveIntelligenceService.parseSearchResponse Samples.dangerous
  /\ HiveIntelligenceService.schedule trace
     = [HiveIntelligenceService.Attempt 1; HiveIntelligenceService.Wait 1000;
        HiveIntelligenceService.Attempt 2].
Proof. vm_compute. repeat split. discriminate. Qed.


Section Gate.

Import HiveIntelligenceService.

Variable config : DetectorConfig.

(** C2, as the code has it.  The rate limiter is consulted first: a call
    of an active service starts with the admission check, which purges
    the window, and the eligibility gate is evaluated only for an admitted
    call.  A transaction that fails the gate skips the enrichment: the
    result is "no result", no request is sent, no wait is made and nothing
    is recorded, the window being left as the admission check purged it.
    A request is sent only for an admitted transaction that passes the
    gate, which is the disjunction of the three tests. *)
Theorem gate_follows_rate_limiter (st : state) (tx : RealTransaction) (w : world) :
  let '(r, st', trace) := analyzeTransaction config st tx w in
  (eligible config tx
   = JS.gt (JS.parseInt16 (value tx)) (flashLoanMinValue (threatThresholds config))
     || JS.gt (JS.parseInt16 (gasPrice tx)) (gasAnomalyThreshold (threatThresholds config))
     || (100 <? String.length (input tx))%nat)
  /\ (active config = true -> exists rest, trace = RateCheck (clockCheck w) :: rest)
  /\ (eligible config tx = false ->
        r = Normal None /\ schedule trace = [] /\ recorded trace = []
        /\ requestCount st' = requestCount st
        /\ (active config = true ->
              requestTimestamps st' = purge (clockCheck w) (requestTimestamps st)))
  /\ (schedule trace <> [] ->
        eligible config tx = true
        /\ (length (purge (clockCheck w) (requestTimestamps st)) < 18)%nat).
Proof.
  destruct (reachesLoop config st tx w) eqn:Hloop.
  - rewrite (analyzeTransaction_loop config st tx w Hloop). cbn zeta.
    destruct (attempts retryCount 1 tx w _) as [[r st2] trace].
    split; [apply eligible_spec|].
    unfold reachesLoop in Hloop.
    apply andb_prop in Hloop as [Hloop Hel]. apply andb_prop in Hloop as [_ Hadm].
    apply Nat.ltb_lt in Hadm.
    split; [eauto|]. split; [rewrite Hel; discriminate|]. intros _. split; assumption.
  - pose proof (analyzeTransaction_skip config st tx w Hloop) as Hskip.
    destruct (analyzeTransaction config st tx w) as [[r st'] trace].
    destruct Hskip as (-> & Hsched & Hrec & Hcount & Hact).
    split; [apply eligible_spec|].
    split.
    { intros Ha. rewrite Ha in Hact. apply Hact. }
    split; [|intros H; destruct (H Hsched)].
    intros _. repeat split; try assumption.
    intros Ha. rewrite Ha in Hact. apply Hact.
Qed.

End Gate.

(** C2, as stated, fails: a transaction that fails the gate still has the
    rate limiter consulted, and its window purged, before the gate is
    looked at. *)
Lemma gate_does_not_shield_rate_limiter :
  let st := {| HiveIntelligenceService.requestCount := 1;
               HiveIntelligenceService.requestTimestamps := [0] |} in
  HiveIntelligenceService.eligible Samples.config Samples.small = false
  /\ HiveIntelligenceService.analyzeTransaction Samples.config st Samples.small
       (Samples.offline 70000)
     = (Normal None,
        {| HiveIntelligenceService.requestCount := 1;
           HiveIntelligenceService.requestTimestamps := [] |},
        [RateCheck 70000]).
Proof. split; vm_compute; reflexivity. Qed.

Lemma gate_follows_rate_limiter_witness :
  exists st' trace,
    HiveIntelligenceService.analyzeTransaction Samples.config
      HiveIntelligenceService.init Samples.small (Samples.offline 0)
    = (Normal None, st', trace)
    /\ HiveIntelligenceService.schedule trace = []
    /\ exists rest, trace = RateCheck 0 :: rest.
Proof.
  pose proof (gate_follows_rate_limiter Samples.config
                HiveIntelligenceService.init Samples.small (Samples.offline 0)) as H.
  destruct (HiveIntelligenceService.analyzeTransaction _ _ _ _) as [[r st'] trace].
  destruct H as (_ & Hfirst & Hskip & _).
  destruct (Hskip eq_refl) as (-> & Hsched & _).
  exists st', trace. split; [reflexivity|]. split; [exact Hsched|].
  apply Hfirst. reflexivity.
Defined.

(** ** The rate limiter *)

Section RateLimit.

Import HiveIntelligenceService.

Variable config : DetectorConfig.

Lemma purge_spec (now t : Z) (timestamps : list Z) :
  In t (purge now timestamps) <-> In t timestamps /\ now - 60000 < t.
Proof.
  unfold purge. rewrite <- !list_elem_of_In, list_elem_of_filter. tauto.
Qed.

Lemma filter_length_mono (P Q : Z -> Prop) `{!forall t, Decision (P t)}
    `{!forall t, Decision (Q t)} (l : list Z) :
  (forall t, P t -> Q t) -> (length (filter P l) <= length (filter Q l))%nat.
Proof.
  intros HPQ. induction l as [|t l IH]; [reflexivity|].
  rewrite !filter_cons.
  destruct (decide (P t)) as [HP|HP]; destruct (decide (Q t)) as [HQ|HQ];
    cbn; try lia.
  destruct (HQ (HPQ t HP)).
Qed.

Lemma purge_filter (now cut : Z) (history : list Z) :
  cut <= now - 60000 ->
  purge now (filter (fun t => cut < t) history)
  = filter (fun t => now - 60000 < t) history.
Proof.
  intros Hcut. unfold purge. rewrite list_filter_filter.
  apply list_filter_iff. intros t. lia.
Qed.

(** What one call does to the window. *)
Lemma call_window (st : state) (tx : RealTransaction) (w : world) :
  let '(_, st', trace) := analyzeTransaction config st tx w in
  (if active config
   then requestTimestamps st'
        = purge (clockCheck w) (requestTimestamps st) ++ recorded trace
   else st' = st /\ trace = [])
  /\ (schedule trace <> [] \/ recorded trace <> [] ->
        (length (purge (clockCheck w) (requestTimestamps st)) < 18)%nat
        /\ eligible config tx = true)
  /\ (reachesLoop config st tx w = true ->
        recorded trace
        = match post w 1 with
          | PostOk _ => [clockRecord w 1]
          | PostError _ => []
          end
          ++ match tryBlock w 1, post w 2 with
             | Throw _, PostOk _ => [clockRecord w 2]
             | _, _ => []
             end)
  /\ (reachesLoop config st tx w = false -> recorded trace = []).
Proof.
  destruct (reachesLoop config st tx w) eqn:Hloop.
  - rewrite (analyzeTransaction_loop config st tx w Hloop). cbn zeta.
    pose proof (attempts_result tx w (snd (canMakeRequest st (clockCheck w)))) as Hatt.
    destruct (attempts retryCount 1 tx w _) as [[r st2] trace].
    destruct Hatt as (_ & _ & _ & Hts & Hrec).
    unfold reachesLoop in Hloop.
    apply andb_prop in Hloop as [Hloop Hel]. apply andb_prop in Hloop as [Hact Hadm].
    apply Nat.ltb_lt in Hadm. rewrite Hact.
    change (recorded (RateCheck (clockCheck w) :: trace)) with (recorded trace).
    split; [exact Hts|]. split; [intros _; split; assumption|].
    split; [intros _; exact Hrec | discriminate].
  - pose proof (analyzeTransaction_skip config st tx w Hloop) as Hskip.
    destruct (analyzeTransaction config st tx w) as [[r st'] trace].
    destruct Hskip as (_ & Hsched & Hrec & _ & Hact). rewrite Hrec, Hsched.
    split; [|split; [intros [[]|[]]; reflexivity | split; [discriminate | reflexivity]]].
    destruct (active config); [|split; apply Hact].
    rewrite app_nil_r. apply Hact.
Qed.

Lemma parsable_parse (data : SearchData) :
  parsable data = true -> exists x, parseSearchResponse data = Normal x.
Proof.
  destruct data as [|[| raw |] sources]; cbn; try discriminate; eauto.
  destruct (String.eqb raw ""); eauto.
Qed.

(** When every answer parses, a call records at most once, and it does so
    after its admission check. *)
Lemma recorded_once (w : world) :
  answersParse w ->
  clockCheck w <= clockRecord w 1 -> clockRecord w 1 <= clockRecord w 2 ->
  let recs := match post w 1 with
              | PostOk _ => [clockRecord w 1]
              | PostError _ => []
              end
              ++ match tryBlock w 1, post w 2 with
                 | Throw _, PostOk _ => [clockRecord w 2]
                 | _, _ => []
                 end in
  recs = [] \/ exists t, recs = [t] /\ clockCheck w <= t <= clockRecord w 2.
Proof.
  intros Hparse H1 H2. unfold tryBlock. cbn zeta.
  destruct (post w 1) as [d1|s1] eqn:Hp1.
  - destruct (parsable_parse d1 (Hparse 1%nat d1 Hp1)) as [x ->].
    right. exists (clockRecord w 1). split; [reflexivity | lia].
  - destruct (post w 2) as [d2|s2]; [right|left; reflexivity].
    exists (clockRecord w 2). split; [reflexivity | lia].
Qed.

Lemma recorded_app (a b : list event) : recorded (a ++ b) = recorded a ++ recorded b.
Proof. unfold recorded. apply flat_map_app. Qed.

(** The invariant of the window along a run: the stored timestamps are
    the recorded ones that a cut-off at least 60 s behind the clock has
    kept, and no trailing window holds more than 18 recorded timestamps. *)
Lemma run_bound (arrivals : list (RealTransaction * world)) :
  forall (st : state) (history : list Z) (t0 cut : Z),
    chronological t0 arrivals ->
    Forall (fun a => answersParse (snd a)) arrivals ->
    cut + 60000 <= t0 ->
    requestTimestamps st = filter (fun t => cut < t) history ->
    (forall T, (length (filter (inWindow T) history) <= 18)%nat) ->
    forall T,
      (length (filter (inWindow T)
                 (history ++ recorded (snd (run config st arrivals)))) <= 18)%nat.
Proof.
  induction arrivals as [|[tx w] rest IH]; intros st history t0 cut Hchron Hparse Hcut Hst Hbound T.
  - cbn. rewrite app_nil_r. apply Hbound.
  - cbn [chronological] in Hchron. destruct Hchron as (Hc & H1 & H2 & Hchron).
    apply Forall_cons in Hparse as [Hw Hparse]. cbn [snd] in Hw.
    cbn [run].
    pose proof (call_window st tx w) as Hcall.
    destruct (analyzeTransaction config st tx w) as [[r st1] trace].
    destruct Hcall as (Hts & Hadm & Hyes & Hno).
    destruct (run config st1 rest) as [st2 trace'] eqn:Hrun. cbn [snd].
    rewrite recorded_app, app_assoc.
    replace trace' with (snd (run config st1 rest)) by (rewrite Hrun; reflexivity).
    destruct (active config).
    2: { destruct Hts as [-> ->]. cbn. rewrite app_nil_r.
         apply (IH st history (clockRecord w 2) cut); try assumption. lia. }
    rewrite Hst, purge_filter in Hts, Hadm by lia.
    assert (Hrecs : recorded trace = []
                    \/ exists t, recorded trace = [t]
                                 /\ clockCheck w <= t <= clockRecord w 2).
    { destruct (reachesLoop config st tx w); [|left; apply Hno; reflexivity].
      rewrite (Hyes eq_refl). apply recorded_once; assumption. }
    apply (IH st1 (history ++ recorded trace) (clockRecord w 2) (clockCheck w - 60000));
      try assumption; [lia| |].
    + rewrite Hts, filter_app. f_equal.
      destruct Hrecs as [->|(t & -> & Ht)]; [reflexivity|].
      rewrite filter_cons_True by lia. reflexivity.
    + intros T'. destruct Hrecs as [->|(t & Et & Ht)].
      * rewrite app_nil_r. apply Hbound.
      * rewrite Et in *. rewrite filter_app, length_app.
        destruct (Hadm ltac:(right; discriminate)) as [Hroom _].
        destruct (decide (inWindow T' t)) as [Hin|Hout].
        -- rewrite (filter_cons_True _ _ _ Hin). cbn [length filter].
           assert (Hsub : (length (filter (inWindow T') history)
                           <= length (filter (fun t => (clockCheck w - 60000 < t)%Z) history))%nat).
           { apply filter_length_mono. unfold inWindow in *. intros t'. lia. }
           rewrite filter_nil. cbn. lia.
        -- rewrite (filter_cons_False _ _ _ Hout), filter_nil. cbn.
           specialize (Hbound T'). lia.
Qed.

(** What the limiter does guarantee (the part of C1 that holds).  Every
    call of an active service purges, at
    its admission check, the timestamps that are 60 s old or older, and
    leaves the purged window followed by what it records; a request is
    made, and a timestamp recorded, only when the purged window holds
    fewer than 18 entries and the transaction passes the gate; the
    timestamps are recorded after the answers, one per answered request,
    and not at the admission check.
    As long as every answer parses and the clock does not go back, no
    trailing 60-second window holds more than 18 recorded requests. *)
Theorem rate_limit_window (t0 : Z) (arrivals : list (RealTransaction * world)) :
  chronological t0 arrivals ->
  Forall (fun a => answersParse (snd a)) arrivals ->
  (forall T,
     (length (filter (inWindow T) (recorded (snd (run config init arrivals)))) <= 18)%nat)
  /\ (forall st tx w,
        let '(_, st', trace) := analyzeTransaction config st tx w in
        (if active config
         then requestTimestamps st'
              = purge (clockCheck w) (requestTimestamps st) ++ recorded trace
         else st' = st /\ trace = [])
        /\ (schedule trace <> [] \/ recorded trace <> [] ->
              (length (purge (clockCheck w) (requestTimestamps st)) < 18)%nat
              /\ eligible config tx = true)
        /\ (reachesLoop config st tx w = true ->
              recorded trace
              = match post w 1 with
                | PostOk _ => [clockRecord w 1]
                | PostError _ => []
                end
                ++ match tryBlock w 1, post w 2 with
                   | Throw _, PostOk _ => [clockRecord w 2]
                   | _, _ => []
                   end)
        /\ (reachesLoop config st tx w = false -> recorded trace = [])).
Proof.
  intros Hchron Hparse. split; [|apply call_window].
  intros T.
  apply (run_bound arrivals init [] t0 (t0 - 60000) Hchron Hparse);
    [lia | reflexivity | intros T'; cbn; lia].
Qed.

End RateLimit.

Lemma requests_app (a b : list event) :
  HiveIntelligenceService.requests (a ++ b)
  = (HiveIntelligenceService.requests a + HiveIntelligenceService.requests b)%nat.
Proof.
  unfold HiveIntelligenceService.requests. rewrite flat_map_app, length_app. reflexivity.
Qed.

(** The limiter never sees a request that is rejected: from an empty
    window, any number of eligible transactions whose requests are all
    rejected are sent twice each, and the window stays empty. *)
Lemma rejected_requests_unrecorded (config : DetectorConfig) (tx : RealTransaction)
    (w : HiveIntelligenceService.world) (n : nat) :
  HiveIntelligenceService.active config = true ->
  HiveIntelligenceService.eligible config tx = true ->
  (forall k, exists status,
     HiveIntelligenceService.post w k = HiveIntelligenceService.PostError status) ->
  let '(st, trace) :=
    HiveIntelligenceService.run config HiveIntelligenceService.init (repeat (tx, w) n) in
  HiveIntelligenceService.requests trace = (2 * n)%nat
  /\ HiveIntelligenceService.recorded trace = []
  /\ HiveIntelligenceService.requestTimestamps st = [].
Proof.
  intros Hactive Heligible Hrejected.
  assert (Hgen : forall st, HiveIntelligenceService.requestTimestamps st = [] ->
            let '(st', trace) :=
              HiveIntelligenceService.run config st (repeat (tx, w) n) in
            HiveIntelligenceService.requests trace = (2 * n)%nat
            /\ HiveIntelligenceService.recorded trace = []
            /\ HiveIntelligenceService.requestTimestamps st' = []).
  { induction n as [|n IH]; intros st Hst; [cbn; auto|].
    cbn [repeat HiveIntelligenceService.run].
    assert (Hloop : HiveIntelligenceService.reachesLoop config st tx w = true).
    { unfold HiveIntelligenceService.reachesLoop.
      rewrite Hactive, Heligible, Hst. reflexivity. }
    rewrite (analyzeTransaction_loop config st tx w Hloop). cbn zeta.
    unfold HiveIntelligenceService.canMakeRequest. rewrite Hst. cbn [snd].
    cbn [HiveIntelligenceService.attempts HiveIntelligenceService.retryCount
         Nat.leb HiveIntelligenceService.purge].
    destruct (Hrejected 1%nat) as [s1 ->]. destruct (Hrejected 2%nat) as [s2 ->].
    cbn.
    match goal with |- context [HiveIntelligenceService.run config ?s _] =>
      pose proof (IH s eq_refl) as H;
      destruct (HiveIntelligenceService.run config s (repeat (tx, w) n))
        as [st' trace] end.
    destruct H as (Hreq & Hrec & Hts).
    split; [|split; [exact Hrec | exact Hts]].
    change (HiveIntelligenceService.requests (?a :: ?b :: ?c :: ?d :: ?e :: trace))
      with (HiveIntelligenceService.requests ([a; b; c; d; e] ++ trace)).
    rewrite requests_app, Hreq. cbn. lia. }
  apply Hgen. reflexivity.
Qed.

(** C1.  The limit is not kept.  A timestamp is recorded only when a
    request has been answered, so requests that are rejected never count:
    in [Samples.rejected] nineteen eligible transactions arrive in the same
    millisecond while the service answers every request with status 500;
    every one of them passes the admission check, 38 requests are sent
    within that millisecond, and none is recorded.  And an answered
    request whose answer cannot be parsed is retried, and recorded a
    second time, without a new admission check: in [Samples.overrun] all
    clock readings lie within two seconds, the call admitted with 17
    entries in the window records twice, and 19 answered requests fall in
    one 60-second window. *)
Lemma rate_limit_overrun :
  let '(st, trace) :=
    HiveIntelligenceService.run Samples.config HiveIntelligenceService.init
      Samples.overrun in
  let '(st17, _) :=
    HiveIntelligenceService.run Samples.config HiveIntelligenceService.init
      (take 17 Samples.overrun) in
  let '(_, st18, trace18) :=
    HiveIntelligenceService.analyzeTransaction Samples.config st17 Samples.small
      (Samples.answering Samples.dangerous 18) in
  let '(_, sent) :=
    HiveIntelligenceService.run Samples.config HiveIntelligenceService.init
      Samples.rejected in
  length (filter (HiveIntelligenceService.inWindow 1019)
            (HiveIntelligenceService.recorded trace)) = 19%nat
  /\ length (HiveIntelligenceService.requestTimestamps st) = 19%nat
  /\ length (HiveIntelligenceService.purge 18
               (HiveIntelligenceService.requestTimestamps st17)) = 17%nat
  /\ HiveIntelligenceService.recorded trace18 = []
  /\ HiveIntelligenceService.requestTimestamps st18
     = HiveIntelligenceService.requestTimestamps st17
  /\ HiveIntelligenceService.checks sent = repeat 0 19
  /\ HiveIntelligenceService.requests sent = 38%nat
  /\ HiveIntelligenceService.recorded sent = [].
Proof. vm_compute. repeat split. Qed.

Lemma rate_limit_window_witness :
  HiveIntelligenceService.chronological 0 Samples.steady
  /\ (length (filter (HiveIntelligenceService.inWindow 19000)
                (HiveIntelligenceService.recorded
                   (snd (HiveIntelligenceService.run Samples.config
                           HiveIntelligenceService.init Samples.steady))))
      <= 18)%nat.
Proof.
  assert (Hchron : HiveIntelligenceService.chronological 0 Samples.steady)
    by (cbn; repeat split; lia).
  assert (Hparse : Forall (fun a => HiveIntelligenceService.answersParse (snd a))
                     Samples.steady).
  { unfold Samples.steady. apply Forall_map, Forall_forall.
    intros k _ attempt data. cbn. intros [= <-]. reflexivity. }
  split; [exact Hchron|].
  apply (rate_limit_window Samples.config 0 Samples.steady Hchron Hparse).
Defined.

Example steady_is_limited :
  length (HiveIntelligenceService.recorded
            (snd (HiveIntelligenceService.run Samples.config
                    HiveIntelligenceService.init Samples.steady))) = 18%nat.
Proof. vm_compute. reflexivity. Qed.

(* ===================================================================== *)
(** * Further properties of the code *)
(* ===================================================================== *)

(** ** The interaction counters *)

Section Counters.

Import LocalThreatDetector Bookkeeping.

Lemma track_interactions (st : state) (tx : RealTransaction) (addr : string) :
  interactions (trackTransaction st tx) addr
  = (interactions st addr + if interacts addr tx then 1 else 0)%nat.
Proof.
  unfold interactions, interacts, trackTransaction. cbn [contractInteractions].
  destruct (to tx) as [a|] eqn:Hto; [|lia].
  destruct (truthy (Some a)) eqn:Htruthy; cbn [andb];
    [|rewrite andb_false_r; cbn; lia].
  destruct (String.eqb (input tx) "0x"); cbn [negb andb];
    [rewrite !andb_false_r; lia|].
  rewrite !andb_true_r.
  destruct (String.eqb_spec a addr) as [->|Hne].
  - rewrite lookup_insert_eq. cbn. lia.
  - rewrite lookup_insert_ne by exact Hne. lia.
Qed.

(** X1.  The counter of an address is the number of contract interactions
    with it seen so far: it is never decremented, never reset, and counts
    neither contract creations nor plain transfers (input ['0x']). *)
Theorem interactions_count (st : state) (txs : list RealTransaction) (addr : string) :
  interactions (trackAll st txs) addr
  = (interactions st addr + interactionCount addr txs)%nat.
Proof.
  revert st. unfold interactionCount.
  induction txs as [|tx txs IH]; intros st; [cbn; lia|].
  change (trackAll st (tx :: txs)) with (trackAll (trackTransaction st tx) txs).
  rewrite IH, track_interactions. cbn [List.filter].
  destruct (interacts addr tx); cbn [length]; lia.
Qed.

End Counters.

(** ** The detector set as a whole *)

Section DetectorSet.

Import LocalThreatDetector Bookkeeping.

Variable config : DetectorConfig.

(** X2.  The high-frequency detector counts the current transaction: after
    the bookkeeping of [detectThreats] it fires exactly when the
    transaction goes to a non-empty address whose counter, the current
    interaction included, exceeds 100; a plain transfer (input ['0x']) to
    such an address raises the alert without being counted. *)
Theorem high_frequency_alert (st : state) (tx : RealTransaction) (now : Z) :
  let st' := trackTransaction st tx in
  let alerts := detectContractBehavior st' tx now in
  (alerts <> [] <->
     exists addr, to tx = Some addr /\ addr <> ""
       /\ (100 < interactions st addr
                 + if String.eqb (input tx) "0x" then 0 else 1)%nat)
  /\ (forall a, In a alerts ->
        alerts = [a] /\ severity a = low /\ confidence a = JS.Fin 0.5
        /\ to tx = Some (contractAddress a)
        /\ In ("interactionCount",
               DNum (JS.of_nat (interactions st' (contractAddress a))))
              (details a)).
Proof.
  cbn zeta. unfold detectContractBehavior.
  destruct (to tx) as [addr|] eqn:Hto.
  2: { split; [split; [intros []; reflexivity | intros (? & ? & _); discriminate]
              | intros a []]. }
  change (default 0%nat (contractInteractions (trackTransaction st tx) !! addr))
    with (interactions (trackTransaction st tx) addr).
  assert (Hlast : interactions (trackTransaction st tx) addr
                  = (interactions st addr
                     + if truthy (Some addr) && negb (String.eqb (input tx) "0x")
                       then 1 else 0)%nat).
  { rewrite track_interactions. unfold interacts.
    rewrite Hto, String.eqb_refl. reflexivity. }
  destruct (truthy (Some addr)) eqn:Htruthy.
  - assert (Hne : addr <> "").
    { intros ->. discriminate. }
    cbn [andb] in Hlast.
    destruct (Nat.ltb_spec 100 (interactions (trackTransaction st tx) addr)) as [Hhot|Hcold].
    + split.
      * split; [intros _|discriminate]. exists addr. repeat split; try assumption.
        rewrite Hlast in Hhot. destruct (String.eqb (input tx) "0x"); cbn in *; lia.
      * intros a [<-|[]]. cbn. repeat split. right. left. reflexivity.
    + split; [|intros a []]. split; [intros []; reflexivity|].
      intros (addr' & [= <-] & _ & Hhot). exfalso. rewrite Hlast in Hcold.
      destruct (String.eqb (input tx) "0x"); cbn in *; lia.
  - split; [|intros a []]. split; [intros []; reflexivity|].
    intros (addr' & [= <-] & Hne & _). cbn in Htruthy.
    destruct (String.eqb_spec addr ""); [contradiction | discriminate].
Qed.

Lemma gas_alert_shape (tx : RealTransaction) (now : Z) :
  detectGasAnomalies config tx now = []
  \/ exists a, detectGasAnomalies config tx now = [a]
       /\ raisedFor tx a /\ type a = suspicious_pattern
       /\ (severity a = medium \/ severity a = high)
       /\ JS.gt (JS.parseInt16 (gasPrice tx))
                (gasAnomalyThreshold (threatThresholds config)) = true
       /\ confidence a
          = JS.Math_min (JS.Fin 0.9)
              (JS.mul (JS.div (JS.parseInt16 (gasPrice tx))
                              (gasAnomalyThreshold (threatThresholds config)))
                      (JS.Fin 0.3)).
Proof.
  unfold detectGasAnomalies.
  destruct (JS.gt _ (gasAnomalyThreshold _)); [right|left; reflexivity].
  eexists. split; [reflexivity|]. cbn. unfold raisedFor. cbn.
  destruct (JS.gt _ (JS.mul _ _)); repeat split; auto.
Qed.

Lemma value_alert_shape (tx : RealTransaction) (now : Z) :
  detectLargeValueTransfers config tx now = []
  \/ exists a, detectLargeValueTransfers config tx now = [a]
       /\ raisedFor tx a /\ type a = suspicious_pattern
       /\ (severity a = medium \/ severity a = high)
       /\ confidence a = JS.Fin 0.6
       /\ JS.gt (JS.parseInt16 (value tx))
                (flashLoanMinValue (threatThresholds config)) = true.
Proof.
  unfold detectLargeValueTransfers.
  destruct (JS.gt _ (flashLoanMinValue _)); [right|left; reflexivity].
  eexists. split; [reflexivity|]. cbn. unfold raisedFor. cbn.
  destruct (JS.gt _ (JS.mul _ _)); repeat split; auto.
Qed.

Lemma mev_alert_shape (st : state) (tx : RealTransaction) (now : Z) :
  detectMEVActivity config st tx now = []
  \/ exists a, detectMEVActivity config st tx now = [a]
       /\ raisedFor tx a /\ type a = mev_attack /\ severity a = medium
       /\ confidence a = JS.Fin 0.7.
Proof.
  unfold detectMEVActivity.
  destruct (_ && _); [|left; reflexivity].
  destruct (_ <? _)%nat; [|left; reflexivity].
  destruct (JS.gt _ _); [right|left; reflexivity].
  eexists. split; [reflexivity|]. cbn. unfold raisedFor. cbn. repeat split.
Qed.

Lemma creation_alert_shape (tx : RealTransaction) (now : Z) :
  detectSuspiciousPatterns tx now = []
  \/ exists a, detectSuspiciousPatterns tx now = [a]
       /\ raisedFor tx a /\ type a = suspicious_pattern /\ severity a = low
       /\ confidence a = JS.Fin 0.4
       /\ truthy (to tx) = false
       /\ (1000 < String.length (input tx))%nat.
Proof.
  unfold detectSuspiciousPatterns.
  destruct (truthy (to tx)) eqn:Hto; [left; reflexivity|]. cbn [negb andb].
  destruct (Nat.ltb_spec 1000 (String.length (input tx))); [right|left; reflexivity].
  eexists. split; [reflexivity|]. cbn. unfold raisedFor, or_empty. cbn.
  rewrite Hto. repeat split. assumption.
Qed.

Lemma behavior_alert_shape (st : state) (tx : RealTransaction) (now : Z) :
  detectContractBehavior st tx now = []
  \/ exists a, detectContractBehavior st tx now = [a]
       /\ raisedFor tx a /\ type a = suspicious_pattern /\ severity a = low
       /\ confidence a = JS.Fin 0.5
       /\ truthy (to tx) = true.
Proof.
  unfold detectContractBehavior.
  destruct (to tx) as [addr|] eqn:Hto; [|left; reflexivity].
  destruct (truthy (Some addr)) eqn:Htruthy; [|left; reflexivity].
  destruct (_ <? _)%nat; [right|left; reflexivity].
  eexists. split; [reflexivity|]. cbn. unfold raisedFor, or_empty. cbn.
  rewrite Hto, Htruthy. repeat split.
Qed.

Lemma detectThreats_not_critical (st : state) (tx : RealTransaction)
    (now : nat -> Z) (a : ThreatAlert) :
  In a (snd (detectThreats config st tx now)) -> severity a <> critical.
Proof.
  unfold detectThreats. cbn [snd]. intros Hin.
  repeat (apply in_app_or in Hin as [Hin|Hin]).
  - destruct (gas_alert_shape tx (now 0%nat)) as [E|(b & E & _ & _ & Hs & _)];
      rewrite E in Hin; [destruct Hin|].
    destruct Hin as [<-|[]]. destruct Hs as [->| ->]; discriminate.
  - destruct (value_alert_shape tx (now 1%nat)) as [E|(b & E & _ & _ & Hs & _)];
      rewrite E in Hin; [destruct Hin|].
    destruct Hin as [<-|[]]. destruct Hs as [->| ->]; discriminate.
  - destruct (mev_alert_shape (trackTransaction st tx) tx (now 2%nat))
      as [E|(b & E & _ & _ & Hs & _)]; rewrite E in Hin; [destruct Hin|].
    destruct Hin as [<-|[]]. rewrite Hs. discriminate.
  - destruct (creation_alert_shape tx (now 3%nat)) as [E|(b & E & _ & _ & Hs & _)];
      rewrite E in Hin; [destruct Hin|].
    destruct Hin as [<-|[]]. rewrite Hs. discriminate.
  - destruct (behavior_alert_shape (trackTransaction st tx) tx (now 4%nat))
      as [E|(b & E & _ & _ & Hs & _)]; rewrite E in Hin; [destruct Hin|].
    destruct Hin as [<-|[]]. rewrite Hs. discriminate.
Qed.

(** X3.  One call of [detectThreats] yields at most four alerts (the
    contract-creation detector and the high-frequency detector exclude
    each other), none of them [critical], each carrying the hash, the
    timestamp and the block number of the transaction and not yet
    mitigated; the alerts come in the order of the detectors. *)
Theorem detectThreats_alerts (st : state) (tx : RealTransaction) (now : nat -> Z) :
  let alerts := snd (detectThreats config st tx now) in
  (length alerts <= 4)%nat
  /\ Forall (fun a => raisedFor tx a /\ severity a <> critical
                     /\ (type a = suspicious_pattern \/ type a = mev_attack))
            alerts
  /\ alerts
     = detectGasAnomalies config tx (now 0%nat)
       ++ detectLargeValueTransfers config tx (now 1%nat)
       ++ detectMEVActivity config (trackTransaction st tx) tx (now 2%nat)
       ++ detectSuspiciousPatterns tx (now 3%nat)
       ++ detectContractBehavior (trackTransaction st tx) tx (now 4%nat).
Proof.
  cbn zeta. unfold detectThreats. cbn [snd]. split; [|split; [|reflexivity]].
  - rewrite !length_app.
    destruct (gas_alert_shape tx (now 0%nat)) as [->|(a1 & -> & _)];
      destruct (value_alert_shape tx (now 1%nat)) as [->|(a2 & -> & _)];
      destruct (mev_alert_shape (trackTransaction st tx) tx (now 2%nat))
        as [->|(a3 & -> & _)];
      destruct (creation_alert_shape tx (now 3%nat))
        as [->|(a4 & -> & _ & _ & _ & _ & Habsent & _)];
      destruct (behavior_alert_shape (trackTransaction st tx) tx (now 4%nat))
        as [->|(a5 & -> & _ & _ & _ & _ & Hpresent)];
      cbn [length]; try lia.
    all: rewrite Habsent in Hpresent; discriminate.
  - assert (Hone : forall a, raisedFor tx a -> severity a <> critical ->
                     type a = suspicious_pattern \/ type a = mev_attack ->
                     Forall (fun a => raisedFor tx a /\ severity a <> critical
                                      /\ (type a = suspicious_pattern
                                          \/ type a = mev_attack)) [a]).
    { intros a H1 H2 H3. constructor; [auto | constructor]. }
    repeat apply Forall_app_2.
    + destruct (gas_alert_shape tx (now 0%nat))
        as [->|(a & -> & Hr & Hty & Hs & _)]; [constructor|].
      apply Hone; auto. destruct Hs as [->| ->]; discriminate.
    + destruct (value_alert_shape tx (now 1%nat))
        as [->|(a & -> & Hr & Hty & Hs & _)]; [constructor|].
      apply Hone; auto. destruct Hs as [->| ->]; discriminate.
    + destruct (mev_alert_shape (trackTransaction st tx) tx (now 2%nat))
        as [->|(a & -> & Hr & Hty & Hs & _)]; [constructor|].
      apply Hone; auto. rewrite Hs. discriminate.
    + destruct (creation_alert_shape tx (now 3%nat))
        as [->|(a & -> & Hr & Hty & Hs & _)]; [constructor|].
      apply Hone; auto. rewrite Hs. discriminate.
    + destruct (behavior_alert_shape (trackTransaction st tx) tx (now 4%nat))
        as [->|(a & -> & Hr & Hty & Hs & _)]; [constructor|].
      apply Hone; auto. rewrite Hs. discriminate.
Qed.

Lemma gas_confidence_bound (s : string) (q : Q) :
  (0 < q)%Q -> JS.gt (JS.parseInt16 s) (JS.Fin q) = true ->
  exists c, JS.Math_min (JS.Fin 0.9)
              (JS.mul (JS.div (JS.parseInt16 s) (JS.Fin q)) (JS.Fin 0.3))
            = JS.Fin c
            /\ (0.3 <= c)%Q /\ (c <= 0.9)%Q.
Proof.
  intros Hq Hgt.
  destruct (parseInt16_cases s) as [E|[z E]]; rewrite E in *; [discriminate|].
  unfold JS.of_Z in *. cbn in Hgt. apply Qltb_lt in Hgt.
  assert (Hnz : JS.Qzero q = false).
  { destruct (JS.Qzero q) eqn:Hz; [|reflexivity].
    apply Qzero_eq in Hz. rewrite Hz in Hq. lra. }
  cbn. rewrite Hnz. cbn.
  assert (Hratio : (1 <= inject_Z z / q)%Q).
  { apply Qle_shift_div_l; [exact Hq | lra]. }
  destruct (JS.Qltb (inject_Z z / q * 0.3) 0.9) eqn:Hcap.
  - apply Qltb_lt in Hcap. eexists. split; [reflexivity|]. split; lra.
  - eexists. split; [reflexivity|]. split; lra.
Qed.

(** X4.  With a positive gas-anomaly threshold, the confidence of every
    alert of the local detector is a number between 0.3 and 0.9. *)
Theorem detectThreats_confidence (st : state) (tx : RealTransaction)
    (now : nat -> Z) (threshold : Q) :
  gasAnomalyThreshold (threatThresholds config) = JS.Fin threshold ->
  (0 < threshold)%Q ->
  Forall (confidenceWithin 0.3 0.9) (snd (detectThreats config st tx now)).
Proof.
  intros Ht Hpos. unfold detectThreats. cbn [snd].
  assert (Hconst : forall a (c : Q), confidence a = JS.Fin c ->
                     (0.3 <= c)%Q -> (c <= 0.9)%Q -> confidenceWithin 0.3 0.9 a).
  { intros a c Ha H1 H2. exists c. auto. }
  repeat apply Forall_app_2.
  - destruct (gas_alert_shape tx (now 0%nat))
      as [->|(a & -> & _ & _ & _ & Hgt & Hc)]; [constructor|].
    constructor; [|constructor]. rewrite Ht in Hgt, Hc.
    destruct (gas_confidence_bound (gasPrice tx) threshold Hpos Hgt) as (c & Ec & Hc1 & Hc2).
    exists c. rewrite Hc, Ec. auto.
  - destruct (value_alert_shape tx (now 1%nat)) as [->|(a & -> & _ & _ & _ & Hc & _)];
      [constructor|]. constructor; [|constructor]. apply (Hconst a _ Hc); lra.
  - destruct (mev_alert_shape (trackTransaction st tx) tx (now 2%nat))
      as [->|(a & -> & _ & _ & _ & Hc)]; [constructor|].
    constructor; [|constructor]. apply (Hconst a _ Hc); lra.
  - destruct (creation_alert_shape tx (now 3%nat)) as [->|(a & -> & _ & _ & _ & Hc & _)];
      [constructor|]. constructor; [|constructor]. apply (Hconst a _ Hc); lra.
  - destruct (behavior_alert_shape (trackTransaction st tx) tx (now 4%nat))
      as [->|(a & -> & _ & _ & _ & Hc & _)]; [constructor|].
    constructor; [|constructor]. apply (Hconst a _ Hc); lra.
Qed.

End DetectorSet.

Lemma detectThreats_confidence_witness :
  Forall (Bookkeeping.confidenceWithin 0.3 0.9)
    (snd (LocalThreatDetector.detectThreats Samples.config
            LocalThreatDetector.init Samples.pricey (fun _ => 0))).
Proof.
  apply (detectThreats_confidence Samples.config LocalThreatDetector.init
           Samples.pricey (fun _ => 0) (inject_Z 120000000000)).
  - reflexivity.
  - reflexivity.
Defined.

(** Outside that precondition the formula is not a probability: with a
    negative threshold the confidence of a gas alert can be negative. *)
Example gas_confidence_negative_threshold :
  let config :=
    {| threatThresholds :=
         {| liquidityDrain := JS.of_Z 75;
            unusualVolumeSpike := JS.of_Z 8;
            gasAnomalyThreshold := JS.of_Z (-100);
            rugPullVelocityThreshold := JS.of_Z 50;
            flashLoanMinValue := JS.of_Z 30 |};
       hiveIntelligence := hiveIntelligence Samples.config;
       mitigation := mitigation Samples.config |} in
  exists a,
    LocalThreatDetector.detectGasAnomalies config
      (Samples.transfer Samples.alice None "0x32" "0x") 0 = [a]
    /\ JS.eqv (confidence a) (JS.Fin (-0.15)).
Proof. eexists. split; [vm_compute; reflexivity|]. vm_compute. reflexivity. Qed.

(** ** Heuristics and the eligibility gate *)

Section Eligibility.

Import HiveIntelligenceService.

Variable config : DetectorConfig.


(** The requests of the retry loop: one, or two when the first attempt
    fails. *)
Lemma attempts_requests (tx : RealTransaction) (w : world) (st : state) :
  requests (snd (attempts retryCount 1 tx w st))
  = match tryBlock w 1 with
    | Normal _ => 1%nat
    | Throw _ => 2%nat
    end.
Proof.
  unfold tryBlock. cbn.
  destruct (post w 1) as [d1|s1]; [destruct (parseSearchResponse d1) as [r1|e1]|];
    cbn; try reflexivity;
    (destruct (post w 2) as [d2|s2]; [destruct (parseSearchResponse d2) as [r2|e2]|]);
    cbn; reflexivity.
Qed.

(** X5.  A transaction that raises a gas-anomaly alert, a large-value alert
    or a contract-creation alert always passes the eligibility gate of the
    enrichment: the gate uses the same two thresholds, and a payload
    longer than 1000 is longer than 100.  With an active service and room
    in the rate-limit window, one or two requests are then sent for it. *)
Theorem alerted_transaction_is_enriched (hst : state) (tx : RealTransaction)
    (w : world) (now : Z) :
  LocalThreatDetector.detectGasAnomalies config tx now <> []
  \/ LocalThreatDetector.detectLargeValueTransfers config tx now <> []
  \/ LocalThreatDetector.detectSuspiciousPatterns tx now <> [] ->
  eligible config tx = true
  /\ (active config = true ->
      (length (purge (clockCheck w) (requestTimestamps hst)) < 18)%nat ->
      let n := requests (snd (analyzeTransaction config hst tx w)) in
      n = 1%nat \/ n = 2%nat).
Proof.
  intros Halert.
  assert (Hel : eligible config tx = true).
  { rewrite eligible_spec.
    destruct Halert as [H|[H|H]].
    - destruct (gas_alert_shape config tx now) as [E|(a & _ & _ & _ & _ & Hgt & _)];
        [contradiction|]. rewrite Hgt, orb_true_r. reflexivity.
    - destruct (value_alert_shape config tx now) as [E|(a & _ & _ & _ & _ & _ & Hgt)];
        [contradiction|]. rewrite Hgt. reflexivity.
    - destruct (creation_alert_shape tx now) as [E|(a & _ & _ & _ & _ & _ & _ & Hlen)];
        [contradiction|].
      assert (Hlong : (100 <? String.length (input tx))%nat = true)
        by (apply Nat.ltb_lt; lia).
      rewrite Hlong. apply orb_true_r. }
  split; [exact Hel|]. intros Hactive Hroom. cbn zeta.
  assert (Hloop : reachesLoop config hst tx w = true).
  { unfold reachesLoop. rewrite Hactive, Hel.
    apply Nat.ltb_lt in Hroom. unfold maxRequestsPerMinute. rewrite Hroom. reflexivity. }
  rewrite (analyzeTransaction_loop config hst tx w Hloop). cbn zeta.
  pose proof (attempts_requests tx w (snd (canMakeRequest hst (clockCheck w)))) as Hreq.
  destruct (attempts retryCount 1 tx w _) as [[r st2] trace]. cbn [snd] in *.
  change (requests (RateCheck (clockCheck w) :: trace)) with (requests trace).
  rewrite Hreq. destruct (tryBlock w 1); auto.
Qed.

End Eligibility.

Lemma alerted_transaction_is_enriched_witness :
  HiveIntelligenceService.eligible Samples.config Samples.pricey = true.
Proof.
  apply (alerted_transaction_is_enriched Samples.config HiveIntelligenceService.init
           Samples.pricey (Samples.offline 0) 0).
  left. vm_compute. discriminate.
Defined.

(** ** From the response text to the alerts *)

Section Responses.

Import HiveIntelligenceService ThreatProcessor Outcome Bookkeeping.

Lemma parse_some (data : SearchData) (analysis : HiveAnalysis) :
  parseSearchResponse data = Normal (Some analysis) ->
  exists raw sources,
    data = DataObject (RespString raw) sources /\ raw <> ""
    /\ rawResponse analysis = raw
    /\ overallRisk analysis = extractOverallRisk (JS.toLowerCase raw)
    /\ analysis_confidence analysis = extractConfidence (JS.toLowerCase raw)
    /\ rugPull analysis
       = category (JS.toLowerCase raw) (mentionsRugPull (JS.toLowerCase raw))
           "rug pull" ["rug pull"; "exit scam"; "liquidity"]
    /\ flashLoan analysis
       = category (JS.toLowerCase raw) (mentionsFlashLoan (JS.toLowerCase raw))
           "flash loan" ["flash loan"; "arbitrage"; "exploit"]
    /\ mev analysis
       = category (JS.toLowerCase raw) (mentionsMEV (JS.toLowerCase raw))
           "mev" ["mev"; "front-running"; "sandwich"].
Proof.
  destruct data as [|[| raw |] sources]; cbn; try discriminate.
  destruct (String.eqb_spec raw "") as [->|Hne]; [discriminate|].
  intros [= <-]. exists raw, sources. cbn. repeat split. exact Hne.
Qed.

Lemma extractRiskScore_values (text threatType : string) :
  In (extractRiskScore text threatType)
     [JS.Fin 0.9; JS.Fin 0.6; JS.Fin 0.3; JS.Fin 0.7; JS.Fin 0.1; JS.Fin 0.5; JS.Fin 0.0].
Proof.
  unfold extractRiskScore.
  repeat match goal with |- context [if ?b then _ else _] => destruct b end;
    cbn; auto 10.
Qed.

Lemma extractConfidence_values (text : string) :
  In (extractConfidence text)
     [JS.Fin 0.9; JS.Fin 0.7; JS.Fin 0.5; JS.Fin 0.3; JS.Fin 0.6].
Proof.
  unfold extractConfidence.
  repeat match goal with |- context [if ?b then _ else _] => destruct b end;
    cbn; auto 10.
Qed.

Lemma extractRiskScore_alarming (text threatType : string) :
  alarming text = true -> extractRiskScore text threatType = JS.Fin 0.9.
Proof. unfold alarming, extractRiskScore. intros ->. reflexivity. Qed.

Lemma extractRiskScore_calm (text threatType : string) :
  alarming text = false ->
  JS.gt (extractRiskScore text threatType) (JS.Fin 0.8) = false.
Proof.
  unfold alarming, extractRiskScore. intros ->.
  repeat match goal with |- context [if ?b then _ else _] => destruct b end;
    reflexivity.
Qed.

(** Where an alert of [processHiveThreats] comes from. *)
Lemma processHiveThreats_in (tx : RealTransaction) (analysis : HiveAnalysis)
    (now : nat -> Z) (a : ThreatAlert) :
  In a (processHiveThreats tx analysis now) ->
  raisedFor tx a
  /\ ((exists r, rugPull analysis = Some r /\ JS.gt (risk r) (JS.Fin 0.5) = true
                 /\ type a = rug_pull /\ confidence a = risk r
                 /\ severity a = (if JS.gt (risk r) (JS.Fin 0.8) then critical else high))
      \/ (exists r, flashLoan analysis = Some r /\ JS.gt (risk r) (JS.Fin 0.6) = true
                    /\ type a = flash_loan_attack /\ confidence a = risk r
                    /\ severity a = (if JS.gt (risk r) (JS.Fin 0.8) then critical else high))
      \/ (exists r, mev analysis = Some r /\ JS.gt (risk r) (JS.Fin 0.6) = true
                    /\ type a = mev_attack /\ confidence a = risk r
                    /\ severity a = (if JS.gt (risk r) (JS.Fin 0.8) then high else medium))
      \/ (JS.gt (overallRisk analysis) (JS.Fin 0.7) = true
          /\ type a = suspicious_pattern
          /\ confidence a = number_or (analysis_confidence analysis) (JS.Fin 0.6)
          /\ severity a
             = (if JS.gt (overallRisk analysis) (JS.Fin 0.8) then high else medium))).
Proof.
  unfold processHiveThreats. intros Hin.
  assert (Hr : forall prefix ty sev k info conf,
            raisedFor tx (hiveAlert prefix ty sev tx k info conf))
    by (intros; unfold raisedFor; cbn; auto).
  repeat (apply in_app_or in Hin as [Hin|Hin]).
  - destruct (rugPull analysis) as [r|]; [|destruct Hin].
    destruct (JS.gt (risk r) (JS.Fin 0.5)) eqn:Hgt; [|destruct Hin].
    destruct Hin as [<-|[]]. split; [apply Hr|]. left. exists r. cbn. auto.
  - destruct (flashLoan analysis) as [r|]; [|destruct Hin].
    destruct (JS.gt (risk r) (JS.Fin 0.6)) eqn:Hgt; [|destruct Hin].
    destruct Hin as [<-|[]]. split; [apply Hr|]. right. left. exists r. cbn. auto.
  - destruct (mev analysis) as [r|]; [|destruct Hin].
    destruct (JS.gt (risk r) (JS.Fin 0.6)) eqn:Hgt; [|destruct Hin].
    destruct Hin as [<-|[]]. split; [apply Hr|]. right. right. left. exists r. cbn. auto.
  - destruct (JS.gt (overallRisk analysis) (JS.Fin 0.7)) eqn:Hgt; [|destruct Hin].
    destruct (_ =? _)%nat; [|destruct Hin].
    destruct Hin as [<-|[]]. split; [apply Hr|]. right. right. right. cbn. auto.
Qed.

(** Whatever the analysis, an alert drawn from it is never [low], and a
    [critical] one has a confidence above 0.8: the severity is computed
    from the very risk that becomes the confidence. *)
Lemma hive_alert_grade (tx : RealTransaction) (analysis : HiveAnalysis)
    (now : nat -> Z) (a : ThreatAlert) :
  In a (processHiveThreats tx analysis now) ->
  severity a <> low
  /\ (severity a = critical ->
        JS.gt (confidence a) (JS.Fin 0.8) = true
        /\ (type a = rug_pull \/ type a = flash_loan_attack)).
Proof.
  intros Hin. apply processHiveThreats_in in Hin as [_ Hfrom].
  destruct Hfrom as [(r & _ & _ & Hty & Hc & Hs)|[(r & _ & _ & Hty & Hc & Hs)
                    |[(r & _ & _ & Hty & Hc & Hs)|(_ & Hty & Hc & Hs)]]];
    rewrite Hs, ?Hc.
  - destruct (JS.gt (risk r) (JS.Fin 0.8)); split; try discriminate; auto.
  - destruct (JS.gt (risk r) (JS.Fin 0.8)); split; try discriminate; auto.
  - destruct (JS.gt (risk r) (JS.Fin 0.8)); split; discriminate.
  - destruct (JS.gt (overallRisk analysis) (JS.Fin 0.8)); split; discriminate.
Qed.

Lemma category_some (response : string) (present : bool) (threatType : string)
    (keywords : list string) (r : RiskInfo) :
  category response present threatType keywords = Some r ->
  present = true /\ risk r = extractRiskScore response threatType
  /\ indicators r = extractIndicators response keywords.
Proof. unfold category. destruct present; [|discriminate]. intros [= <-]. auto. Qed.

(** X6.  For a parsed response, the confidence of every alert is one of 0.3,
    0.5, 0.6, 0.7 and 0.9, and that of a [critical] alert is 0.9; the
    default [|| 0.6] of the generic alert never applies. *)
Theorem enrichment_alert_confidence (data : SearchData) (analysis : HiveAnalysis)
    (tx : RealTransaction) (now : nat -> Z) (a : ThreatAlert) :
  parseSearchResponse data = Normal (Some analysis) ->
  In a (processHiveThreats tx analysis now) ->
  In (confidence a) [JS.Fin 0.3; JS.Fin 0.5; JS.Fin 0.6; JS.Fin 0.7; JS.Fin 0.9]
  /\ (type a = suspicious_pattern ->
        confidence a = extractConfidence (JS.toLowerCase (rawResponse analysis)))
  /\ (severity a = critical -> confidence a = JS.Fin 0.9).
Proof.
  intros Hparse Hin.
  destruct (parse_some data analysis Hparse)
    as (raw & sources & _ & _ & Hraw & Hor & Hconf & Hrug & Hflash & Hmev).
  apply processHiveThreats_in in Hin as [_ Hfrom].
  assert (Hscore : forall r threatType,
            risk r = extractRiskScore (JS.toLowerCase raw) threatType ->
            JS.gt (risk r) (JS.Fin 0.5) = true ->
            In (risk r) [JS.Fin 0.3; JS.Fin 0.5; JS.Fin 0.6; JS.Fin 0.7; JS.Fin 0.9]
            /\ (JS.gt (risk r) (JS.Fin 0.8) = true -> risk r = JS.Fin 0.9)).
  { intros r threatType Hr Hgt.
    pose proof (extractRiskScore_values (JS.toLowerCase raw) threatType) as Hv.
    rewrite <- Hr in Hv. cbn in Hv.
    destruct Hv as [E|[E|[E|[E|[E|[E|[E|[]]]]]]]]; rewrite <- E in *;
      try discriminate; cbn; split; auto 10; discriminate. }
  assert (Hweak : forall x, JS.gt x (JS.Fin 0.6) = true -> JS.gt x (JS.Fin 0.5) = true).
  { intros [|[]|q]; cbn; try discriminate; auto.
    rewrite !Qltb_lt. intros. lra. }
  destruct Hfrom as [(r & Hsome & Hgt & Hty & Hc & Hs)|[(r & Hsome & Hgt & Hty & Hc & Hs)
                    |[(r & Hsome & Hgt & Hty & Hc & Hs)|(Hgt & Hty & Hc & Hs)]]].
  - rewrite Hrug in Hsome. apply category_some in Hsome as (_ & Hr & _).
    destruct (Hscore r _ Hr Hgt) as [Hv Hcrit]. rewrite Hc.
    split; [exact Hv|]. split; [rewrite Hty; discriminate|].
    rewrite Hs. destruct (JS.gt (risk r) (JS.Fin 0.8)); [auto | discriminate].
  - rewrite Hflash in Hsome. apply category_some in Hsome as (_ & Hr & _).
    destruct (Hscore r _ Hr (Hweak _ Hgt)) as [Hv Hcrit]. rewrite Hc.
    split; [exact Hv|]. split; [rewrite Hty; discriminate|].
    rewrite Hs. destruct (JS.gt (risk r) (JS.Fin 0.8)); [auto | discriminate].
  - rewrite Hmev in Hsome. apply category_some in Hsome as (_ & Hr & _).
    destruct (Hscore r _ Hr (Hweak _ Hgt)) as [Hv Hcrit]. rewrite Hc.
    split; [exact Hv|]. split; [rewrite Hty; discriminate|].
    rewrite Hs. destruct (JS.gt (risk r) (JS.Fin 0.8)); discriminate.
  - assert (Hkeep : number_or (analysis_confidence analysis) (JS.Fin 0.6)
                    = extractConfidence (JS.toLowerCase raw)).
    { rewrite Hconf.
      pose proof (extractConfidence_values (JS.toLowerCase raw)) as Hv. cbn in Hv.
      destruct Hv as [E|[E|[E|[E|[E|[]]]]]]; rewrite <- E; reflexivity. }
    rewrite Hc, Hkeep, Hraw.
    split; [|split; [reflexivity|]].
    + pose proof (extractConfidence_values (JS.toLowerCase raw)) as Hv. cbn in Hv |- *.
      tauto.
    + rewrite Hs. destruct (JS.gt (overallRisk analysis) (JS.Fin 0.8)); discriminate.
Qed.

Lemma overall_gate (text : string) :
  JS.gt (extractOverallRisk text) (JS.Fin 0.7)
  = (JS.includes text "high risk" || JS.includes text "dangerous")
  /\ JS.gt (extractOverallRisk text) (JS.Fin 0.8) = false.
Proof.
  unfold extractOverallRisk.
  destruct (JS.includes text "high risk" || JS.includes text "dangerous");
    [split; reflexivity|].
  repeat match goal with |- context [if ?b then _ else _] => destruct b end;
    split; reflexivity.
Qed.

Lemma alarming_kinds (raw : string) (analysis : HiveAnalysis)
    (tx : RealTransaction) (now : nat -> Z) :
  let response := JS.toLowerCase raw in
  overallRisk analysis = extractOverallRisk response ->
  rugPull analysis
  = category response (mentionsRugPull response)
      "rug pull" ["rug pull"; "exit scam"; "liquidity"] ->
  flashLoan analysis
  = category response (mentionsFlashLoan response)
      "flash loan" ["flash loan"; "arbitrage"; "exploit"] ->
  mev analysis
  = category response (mentionsMEV response) "mev" ["mev"; "front-running"; "sandwich"] ->
  alarming response = true ->
  map kind (processHiveThreats tx analysis now)
  = (if mentionsRugPull response then [(rug_pull, critical)] else [])
    ++ (if mentionsFlashLoan response then [(flash_loan_attack, critical)] else [])
    ++ (if mentionsMEV response then [(mev_attack, high)] else [])
    ++ (if negb (mentionsRugPull response || mentionsFlashLoan response
                 || mentionsMEV response)
           && (JS.includes response "high risk" || JS.includes response "dangerous")
        then [(suspicious_pattern, medium)] else []).
Proof.
  intros response Hor Hrug Hflash Hmev Halarm. subst response.
  destruct (overall_gate (JS.toLowerCase raw)) as [Hgate Hcap].
  unfold processHiveThreats. rewrite Hrug, Hflash, Hmev, Hor, Hgate, Hcap.
  unfold category. rewrite !(extractRiskScore_alarming _ _ Halarm).
  destruct (mentionsRugPull (JS.toLowerCase raw)),
           (mentionsFlashLoan (JS.toLowerCase raw)),
           (mentionsMEV (JS.toLowerCase raw)); cbn;
    try reflexivity.
  all: destruct (JS.includes (JS.toLowerCase raw) "high risk"
            || JS.includes (JS.toLowerCase raw) "dangerous"); try reflexivity.
Qed.

(** X7.  A parsed response that carries "high risk" or "critical" (in any
    case) scores every category it mentions at 0.9, whatever is said
    about which: each mentioned category yields its alert, [critical] for
    rug pull and flash loan, [high] for MEV, all with confidence 0.9; when
    no category is mentioned, the generic [medium] alert is raised if the
    text has "high risk" or "dangerous". *)
Theorem alarming_response_alerts (data : SearchData) (analysis : HiveAnalysis)
    (tx : RealTransaction) (now : nat -> Z) :
  parseSearchResponse data = Normal (Some analysis) ->
  let response := JS.toLowerCase (rawResponse analysis) in
  let alerts := processHiveThreats tx analysis now in
  alarming response = true ->
  map kind alerts
  = (if mentionsRugPull response then [(rug_pull, critical)] else [])
    ++ (if mentionsFlashLoan response then [(flash_loan_attack, critical)] else [])
    ++ (if mentionsMEV response then [(mev_attack, high)] else [])
    ++ (if negb (mentionsRugPull response || mentionsFlashLoan response
                 || mentionsMEV response)
           && (JS.includes response "high risk" || JS.includes response "dangerous")
        then [(suspicious_pattern, medium)] else [])
  /\ (forall a, In a alerts -> type a <> suspicious_pattern ->
        confidence a = JS.Fin 0.9).
Proof.
  intros Hparse response alerts Halarm.
  destruct (parse_some data analysis Hparse)
    as (raw & sources & _ & _ & Hraw & Hor & Hconf & Hrug & Hflash & Hmev).
  subst response alerts. rewrite Hraw in *.
  split; [apply alarming_kinds; assumption|].
  intros a Hin Hty. apply processHiveThreats_in in Hin as [_ Hfrom].
  destruct Hfrom as [(r & Hsome & _ & _ & Hc & _)|[(r & Hsome & _ & _ & Hc & _)
                    |[(r & Hsome & _ & _ & Hc & _)|(_ & Hty' & _)]]];
    [rewrite Hrug in Hsome|rewrite Hflash in Hsome|rewrite Hmev in Hsome|contradiction];
    apply category_some in Hsome as (_ & Hr & _);
    rewrite Hc, Hr; apply extractRiskScore_alarming; exact Halarm.
Qed.

(** X8.  For a parsed response, a [critical] alert is raised exactly when the
    text carries "high risk" or "critical" and mentions a rug pull, an
    exit scam, a flash loan or arbitrage: nothing else in a response can
    make the processor mitigate. *)
Theorem critical_needs_alarming (data : SearchData) (analysis : HiveAnalysis)
    (tx : RealTransaction) (now : nat -> Z) :
  parseSearchResponse data = Normal (Some analysis) ->
  let response := JS.toLowerCase (rawResponse analysis) in
  (exists a, In a (processHiveThreats tx analysis now) /\ severity a = critical)
  <-> alarming response = true
      /\ (mentionsRugPull response || mentionsFlashLoan response) = true.
Proof.
  intros Hparse response.
  destruct (parse_some data analysis Hparse)
    as (raw & sources & _ & _ & Hraw & Hor & Hconf & Hrug & Hflash & Hmev).
  split.
  - intros (a & Hin & Hcrit). subst response. rewrite Hraw.
    apply processHiveThreats_in in Hin as [_ Hfrom].
    assert (Hcalm : forall r threatType,
              risk r = extractRiskScore (JS.toLowerCase raw) threatType ->
              (if JS.gt (risk r) (JS.Fin 0.8) then critical else high) = critical ->
              alarming (JS.toLowerCase raw) = true).
    { intros r threatType Hr Hs.
      destruct (alarming (JS.toLowerCase raw)) eqn:Ha; [reflexivity|].
      rewrite Hr, (extractRiskScore_calm _ _ Ha) in Hs. discriminate. }
    destruct Hfrom as [(r & Hsome & _ & _ & _ & Hs)|[(r & Hsome & _ & _ & _ & Hs)
                      |[(r & _ & _ & _ & _ & Hs)|(_ & _ & _ & Hs)]]];
      rewrite Hs in Hcrit.
    + rewrite Hrug in Hsome. apply category_some in Hsome as (Hm & Hr & _).
      split; [exact (Hcalm r _ Hr Hcrit)|]. rewrite Hm. reflexivity.
    + rewrite Hflash in Hsome. apply category_some in Hsome as (Hm & Hr & _).
      split; [exact (Hcalm r _ Hr Hcrit)|]. rewrite Hm. apply orb_true_r.
    + destruct (JS.gt (risk r) (JS.Fin 0.8)); discriminate.
    + destruct (JS.gt (overallRisk analysis) (JS.Fin 0.8)); discriminate.
  - intros [Halarm Hmention]. subst response. rewrite Hraw in *.
    pose proof (alarming_kinds raw analysis tx now Hor Hrug Hflash Hmev Halarm) as Hkinds.
    cbn zeta in Hkinds. set (response := JS.toLowerCase raw) in *.
    assert (Hin : exists ty, In (ty, critical) (map kind (processHiveThreats tx analysis now))).
    { rewrite Hkinds.
      destruct (mentionsRugPull response); [exists rug_pull; left; reflexivity|].
      destruct (mentionsFlashLoan response); [|discriminate].
      exists flash_loan_attack. left. reflexivity. }
    destruct Hin as [ty Hin]. apply in_map_iff in Hin as (a & Hk & Hin).
    exists a. split; [exact Hin|]. injection Hk as _ Hs. exact Hs.
Qed.

End Responses.

(** ** Dispatch and mitigation of the alerts of the pipeline *)

Section Dispatch.

Import ThreatProcessor Outcome.

Variable config : DetectorConfig.

(** The three tests of the mitigation rule. *)
Let mitigates (threat : ThreatAlert) : bool :=
  mitigation_enabled (mitigation config)
  && bool_decide (severity threat = critical)
  && JS.gt (confidence threat) (JS.Fin 0.8).

Lemma handleThreat_valid (threat : ThreatAlert) :
  validTime (alert_timestamp threat) = true ->
  handleThreat config threat
  = (Normal (if mitigates threat then withMitigated threat true else threat),
     [Log "THREAT DETECTED"]
     ++ match severity threat with
        | low => []
        | _ => [SendAlert threat]
        end
     ++ if mitigates threat then snd (executeMitigation config threat) else []).
Proof.
  intros Hvalid. unfold handleThreat, mitigates. rewrite Hvalid. cbn [negb].
  destruct (_ && _ && _); [reflexivity|]. rewrite app_nil_r. reflexivity.
Qed.

Lemma dispatched_app (a b : list event) :
  dispatched (a ++ b) = dispatched a ++ dispatched b.
Proof. unfold dispatched. apply flat_map_app. Qed.

Lemma dispatched_logs (logs : list event) : Forall isLog logs -> dispatched logs = [].
Proof.
  induction 1 as [|e logs He _ IH]; [reflexivity|].
  destruct e; try destruct He. exact IH.
Qed.

Lemma executeMitigation_dispatched (threat : ThreatAlert) :
  dispatched (snd (executeMitigation config threat)) = [withMitigated threat true].
Proof.
  destruct (executeMitigation_trace config threat) as (logs & Hlogs & ->).
  cbn [snd]. change (Mitigation threat :: ?l) with ([Mitigation threat] ++ l).
  rewrite !dispatched_app, (dispatched_logs logs Hlogs). reflexivity.
Qed.

(** X9.  The dispatch rule: an alert whose timestamp is not a time value is
    dispatched nowhere; otherwise a [low] alert is not dispatched, any
    other alert is dispatched once as it came, and a mitigated alert is
    dispatched a second time with its [mitigated] flag set. *)
Theorem handleThreat_dispatch (threat : ThreatAlert) :
  dispatched (snd (handleThreat config threat))
  = if validTime (alert_timestamp threat) then
      match severity threat with
      | low => []
      | _ => [threat]
      end
      ++ (if mitigation_enabled (mitigation config)
             && bool_decide (severity threat = critical)
             && JS.gt (confidence threat) (JS.Fin 0.8)
          then [withMitigated threat true] else [])
    else [].
Proof.
  destruct (validTime (alert_timestamp threat)) eqn:Hvalid.
  - rewrite (handleThreat_valid threat Hvalid). cbn [snd].
    rewrite !dispatched_app. fold (mitigates threat).
    destruct (mitigates threat);
      [rewrite executeMitigation_dispatched|]; destruct (severity threat); reflexivity.
  - unfold handleThreat. rewrite Hvalid. reflexivity.
Qed.

Lemma handleThreat_invoked (threat : ThreatAlert) :
  validTime (alert_timestamp threat) = true ->
  mitigationInvoked (snd (handleThreat config threat)) <-> mitigates threat = true.
Proof.
  intros Hvalid. rewrite (handleThreat_valid threat Hvalid). cbn [snd].
  destruct (mitigates threat).
  - split; [reflexivity|]. intros _. exists threat.
    apply in_or_app. right. apply in_or_app. right.
    destruct (executeMitigation_trace config threat) as (logs & _ & ->). left. reflexivity.
  - split; [|discriminate]. intros [t Ht]. exfalso.
    rewrite app_nil_r in Ht.
    destruct (severity threat); cbn in Ht; intuition discriminate.
Qed.

(** X10.  Across the pipeline the confidence test of the mitigation rule never
    decides anything.  An alert of the local detector is never mitigated,
    since none is [critical]; an alert drawn from an analysis is mitigated
    exactly when mitigation is enabled and the alert is [critical], since
    a [critical] one always has a confidence above 0.8, and it is always
    dispatched, since none is [low]. *)
Theorem pipeline_mitigation (a : ThreatAlert) :
  validTime (alert_timestamp a) = true ->
  (forall st tx now,
     In a (snd (LocalThreatDetector.detectThreats config st tx now)) ->
     ~ mitigationInvoked (snd (handleThreat config a))
     /\ fst (handleThreat config a) = Normal a)
  /\ (forall tx analysis now,
        In a (processHiveThreats tx analysis now) ->
        (mitigationInvoked (snd (handleThreat config a)) <->
           mitigation_enabled (mitigation config) = true /\ severity a = critical)
        /\ hd_error (dispatched (snd (handleThreat config a))) = Some a).
Proof.
  intros Hvalid. split.
  - intros st tx now Hin.
    pose proof (detectThreats_not_critical config st tx now a Hin) as Hsev.
    assert (Hm : mitigates a = false).
    { unfold mitigates. rewrite bool_decide_eq_false_2 by exact Hsev.
      rewrite andb_false_r. reflexivity. }
    split.
    + rewrite (handleThreat_invoked a Hvalid), Hm. discriminate.
    + rewrite (handleThreat_valid a Hvalid), Hm. reflexivity.
  - intros tx analysis now Hin.
    destruct (hive_alert_grade tx analysis now a Hin) as [Hlow Hcrit].
    split.
    + rewrite (handleThreat_invoked a Hvalid). unfold mitigates.
      rewrite !andb_true_iff, bool_decide_eq_true. split.
      * intros [[? ?] _]. auto.
      * intros [? Hs]. repeat split; auto. apply (Hcrit Hs).
    + rewrite (handleThreat_valid a Hvalid). cbn [snd]. rewrite !dispatched_app.
      destruct (severity a); [contradiction| | |]; reflexivity.
Qed.

End Dispatch.

(** ** The identifiers of the alerts of one transaction *)

Section Identifiers.

Import LocalThreatDetector HiveIntelligenceService ThreatProcessor Outcome.

Variable config : DetectorConfig.

Lemma tag_one (part : list ThreatAlert) (t : string) :
  map tag part = [] \/ map tag part = [t] -> map tag part `sublist_of` [t].
Proof. intros [-> | ->]; [apply sublist_nil_l | reflexivity]. Qed.

Lemma local_tags (st : LocalThreatDetector.state) (tx : RealTransaction)
    (now : nat -> Z) :
  map tag (snd (detectThreats config st tx now))
  `sublist_of` ["gas_an"; "large_"; "mev_ac"; "suspic"; "high_f"].
Proof.
  unfold detectThreats. cbn [snd]. rewrite !map_app.
  change ["gas_an"; "large_"; "mev_ac"; "suspic"; "high_f"]
    with (["gas_an"] ++ ["large_"] ++ ["mev_ac"] ++ ["suspic"] ++ ["high_f"]).
  repeat apply sublist_app; apply tag_one.
  - unfold detectGasAnomalies. destruct (JS.gt _ _); [right|left]; reflexivity.
  - unfold detectLargeValueTransfers. destruct (JS.gt _ _); [right|left]; reflexivity.
  - unfold detectMEVActivity. destruct (_ && _); [|left; reflexivity].
    destruct (_ <? _)%nat; [|left; reflexivity].
    destruct (JS.gt _ _); [right|left]; reflexivity.
  - unfold detectSuspiciousPatterns. destruct (_ && _); [right|left]; reflexivity.
  - unfold detectContractBehavior. destruct (to tx); [|left; reflexivity].
    destruct (truthy _); [|left; reflexivity].
    destruct (_ <? _)%nat; [right|left]; reflexivity.
Qed.

Lemma hive_tags (tx : RealTransaction) (analysis : HiveAnalysis) (now : nat -> Z) :
  map tag (processHiveThreats tx analysis now)
  `sublist_of` ["hive_r"; "hive_f"; "hive_m"; "hive_s"].
Proof.
  unfold processHiveThreats. rewrite !map_app.
  change ["hive_r"; "hive_f"; "hive_m"; "hive_s"]
    with ((["hive_r"] ++ ["hive_f"] ++ ["hive_m"]) ++ ["hive_s"]).
  repeat apply sublist_app; apply tag_one.
  - destruct (rugPull analysis); [|left; reflexivity].
    destruct (JS.gt _ _); [right|left]; reflexivity.
  - destruct (flashLoan analysis); [|left; reflexivity].
    destruct (JS.gt _ _); [right|left]; reflexivity.
  - destruct (mev analysis); [|left; reflexivity].
    destruct (JS.gt _ _); [right|left]; reflexivity.
  - destruct (_ && _); [right|left]; reflexivity.
Qed.

Lemma analysis_tags (st : ThreatProcessor.state) (tx : RealTransaction) (c : clocks) :
  map tag (fst (fst (analyzeThreatPatterns config st tx c)))
  `sublist_of` ["gas_an"; "large_"; "mev_ac"; "suspic"; "high_f";
                "hive_r"; "hive_f"; "hive_m"; "hive_s"].
Proof.
  unfold analyzeThreatPatterns.
  pose proof (local_tags (localDetector st) tx (localClock c)) as Hlocal.
  destruct (detectThreats config (localDetector st) tx (localClock c))
    as [local' localThreats]. cbn [snd] in Hlocal.
  destruct (analyzeTransaction config (hiveService st) tx (hiveWorld c))
    as [[r hive'] trace].
  change ["gas_an"; "large_"; "mev_ac"; "suspic"; "high_f";
          "hive_r"; "hive_f"; "hive_m"; "hive_s"]
    with (["gas_an"; "large_"; "mev_ac"; "suspic"; "high_f"]
          ++ ["hive_r"; "hive_f"; "hive_m"; "hive_s"]).
  destruct r as [[analysis|]|e]; cbn [fst].
  - rewrite map_app. apply sublist_app; [exact Hlocal | apply hive_tags].
  - apply sublist_inserts_r. exact Hlocal.
  - apply sublist_inserts_r. exact Hlocal.
Qed.

(** Alerts whose tags are among the nine, in this order, have distinct
    identifiers. *)
Lemma tags_distinct (alerts : list ThreatAlert) :
  map tag alerts `sublist_of` ["gas_an"; "large_"; "mev_ac"; "suspic"; "high_f";
                               "hive_r"; "hive_f"; "hive_m"; "hive_s"] ->
  NoDup (map id alerts).
Proof.
  intros Hall.
  assert (Htags : NoDup (map tag alerts)).
  { eapply sublist_NoDup; [|exact Hall].
    apply NoDup_ListNoDup. repeat constructor; cbn; intuition discriminate. }
  unfold tag in Htags. rewrite <- (map_map id (String.substring 0 6)) in Htags.
  apply (NoDup_fmap_1 (String.substring 0 6)). exact Htags.
Qed.

(** X11.  The alerts that [analyzeThreatPatterns] returns for one transaction
    have pairwise distinct identifiers, whatever the clock reads and
    whatever the hash is: the identifiers start with the names of the
    detectors, each detector contributes at most one alert, and the names
    differ within their first six characters.  Two alerts of one
    transaction therefore never overwrite each other in a history keyed by
    identifier. *)
Theorem alert_ids_distinct (st : ThreatProcessor.state) (tx : RealTransaction)
    (c : clocks) :
  NoDup (map id (fst (fst (analyzeThreatPatterns config st tx c)))).
Proof. apply tags_distinct, analysis_tags. Qed.

End Identifiers.

Example rugAlarm_parsed :
  HiveIntelligenceService.parseSearchResponse Scenarios.rugAlarm
  = Normal (Some Scenarios.rugAnalysis)
  /\ ThreatProcessor.processHiveThreats Samples.pricey Scenarios.rugAnalysis (fun _ => 0)
     = [Scenarios.rugAlert].
Proof. split; vm_compute; reflexivity. Qed.

Lemma high_frequency_alert_witness :
  LocalThreatDetector.detectContractBehavior
    (LocalThreatDetector.trackTransaction Scenarios.busy Scenarios.call)
    Scenarios.call 0 <> []
  /\ LocalThreatDetector.detectContractBehavior Scenarios.busy Scenarios.call 0 = [].
Proof.
  split; [|vm_compute; reflexivity].
  apply (high_frequency_alert Scenarios.busy Scenarios.call 0).
  exists Samples.bob. split; [reflexivity|]. split; [discriminate|].
  apply Nat.ltb_lt. vm_compute. reflexivity.
Defined.

Lemma enrichment_alert_confidence_witness :
  confidence Scenarios.rugAlert = JS.Fin 0.9.
Proof.
  apply (enrichment_alert_confidence Scenarios.rugAlarm Scenarios.rugAnalysis
           Samples.pricey (fun _ => 0) Scenarios.rugAlert).
  - vm_compute. reflexivity.
  - left. vm_compute. reflexivity.
  - reflexivity.
Defined.

Lemma alarming_response_alerts_witness :
  map Outcome.kind
    (ThreatProcessor.processHiveThreats Samples.pricey Scenarios.rugAnalysis (fun _ => 0))
  = [(rug_pull, critical)].
Proof.
  assert (Hparse : HiveIntelligenceService.parseSearchResponse Scenarios.rugAlarm
                   = Normal (Some Scenarios.rugAnalysis))
    by (vm_compute; reflexivity).
  assert (Halarm : Outcome.alarming (JS.toLowerCase (rawResponse Scenarios.rugAnalysis))
                   = true)
    by (vm_compute; reflexivity).
  destruct (alarming_response_alerts Scenarios.rugAlarm Scenarios.rugAnalysis
              Samples.pricey (fun _ => 0) Hparse Halarm) as [Hkinds _].
  rewrite Hkinds. vm_compute. reflexivity.
Defined.

Lemma critical_needs_alarming_witness :
  Outcome.alarming (JS.toLowerCase (rawResponse Scenarios.rugAnalysis)) = true.
Proof.
  apply (critical_needs_alarming Scenarios.rugAlarm Scenarios.rugAnalysis
           Samples.pricey (fun _ => 0)).
  - vm_compute. reflexivity.
  - exists Scenarios.rugAlert. split; [left; vm_compute; reflexivity | reflexivity].
Defined.

Lemma pipeline_mitigation_witness :
  ThreatProcessor.mitigationInvoked
    (snd (ThreatProcessor.handleThreat Samples.config Scenarios.rugAlert)).
Proof.
  assert (Hvalid : ThreatProcessor.validTime (alert_timestamp Scenarios.rugAlert) = true)
    by (vm_compute; reflexivity).
  destruct (pipeline_mitigation Samples.config Scenarios.rugAlert Hvalid) as [_ Hhive].
  apply (Hhive Samples.pricey Scenarios.rugAnalysis (fun _ => 0)).
  - left. vm_compute. reflexivity.
  - split; reflexivity.
Defined.

Section Indicators.

Import HiveIntelligenceService Outcome.

Lemma extractIndicators_spec (text : string) (keywords : list string) (k : string) :
  In k (extractIndicators text keywords) <-> JS.includes text k = true /\ In k keywords.
Proof.
  unfold extractIndicators. rewrite <- !list_elem_of_In, list_elem_of_filter. tauto.
Qed.

(** X12.  Every category that a parsed response reports comes with at least one
    indicator, and every indicator is a keyword of that category that
    occurs in the lower-cased text. *)
Theorem category_indicators (data : SearchData) (analysis : HiveAnalysis)
    (r : RiskInfo) :
  parseSearchResponse data = Normal (Some analysis) ->
  In (Some r) [rugPull analysis; flashLoan analysis; mev analysis] ->
  indicators r <> []
  /\ (forall k, In k (indicators r) ->
        JS.includes (JS.toLowerCase (rawResponse analysis)) k = true
        /\ In k ["rug pull"; "exit scam"; "liquidity"; "flash loan"; "arbitrage";
                "exploit"; "mev"; "front-running"; "sandwich"]).
Proof.
  intros Hparse Hin.
  destruct (parse_some data analysis Hparse)
    as (raw & sources & _ & _ & Hraw & _ & _ & Hrug & Hflash & Hmev).
  rewrite Hraw.
  assert (Hfound : forall keywords k,
            JS.includes (JS.toLowerCase raw) k = true -> In k keywords ->
            extractIndicators (JS.toLowerCase raw) keywords <> []).
  { intros keywords k Hk Hin' E.
    assert (H : In k (extractIndicators (JS.toLowerCase raw) keywords))
      by (apply extractIndicators_spec; auto).
    rewrite E in H. destruct H. }
  destruct Hin as [E|[E|[E|[]]]].
  - rewrite Hrug in E. apply category_some in E as (Hm & _ & ->).
    split.
    + unfold mentionsRugPull in Hm. apply orb_true_iff in Hm as [Hm|Hm];
        eapply Hfound; eauto; cbn; auto.
    + intros k Hk. apply extractIndicators_spec in Hk as [Hk Hin'].
      split; [exact Hk|]. cbn in Hin' |- *. tauto.
  - rewrite Hflash in E. apply category_some in E as (Hm & _ & ->).
    split.
    + unfold mentionsFlashLoan in Hm. apply orb_true_iff in Hm as [Hm|Hm];
        eapply Hfound; eauto; cbn; auto.
    + intros k Hk. apply extractIndicators_spec in Hk as [Hk Hin'].
      split; [exact Hk|]. cbn in Hin' |- *. tauto.
  - rewrite Hmev in E. apply category_some in E as (Hm & _ & ->).
    split.
    + unfold mentionsMEV in Hm. apply orb_true_iff in Hm as [Hm|Hm];
        [apply orb_true_iff in Hm as [Hm|Hm]|];
        eapply Hfound; eauto; cbn; auto.
    + intros k Hk. apply extractIndicators_spec in Hk as [Hk Hin'].
      split; [exact Hk|]. cbn in Hin' |- *. tauto.
Qed.

End Indicators.

Lemma category_indicators_witness :
  indicators {| risk := JS.Fin 0.9; indicators := ["rug pull"] |} <> [].
Proof.
  apply (category_indicators Scenarios.rugAlarm Scenarios.rugAnalysis).
  - vm_compute. reflexivity.
  - left. reflexivity.
Defined.

(** ** The rate limiter, whatever the answers *)

Section Budget.

Import HiveIntelligenceService HiveStats.

Variable config : DetectorConfig.

(** A call records at most twice, and only after its admission check. *)
Lemma recorded_twice (w : world) :
  clockCheck w <= clockRecord w 1 -> clockRecord w 1 <= clockRecord w 2 ->
  let recs := match post w 1 with
              | PostOk _ => [clockRecord w 1]
              | PostError _ => []
              end
              ++ match tryBlock w 1, post w 2 with
                 | Throw _, PostOk _ => [clockRecord w 2]
                 | _, _ => []
                 end in
  (length recs <= 2)%nat
  /\ Forall (fun t => clockCheck w <= t <= clockRecord w 2) recs.
Proof.
  intros H1 H2. cbn zeta.
  destruct (post w 1), (tryBlock w 1), (post w 2); cbn; split;
    repeat constructor; lia.
Qed.

Lemma call_records (st : state) (tx : RealTransaction) (w : world) :
  let '(_, st', trace) := analyzeTransaction config st tx w in
  (length (recorded trace) <= 2)%nat
  /\ (answersParse w -> (length (recorded trace) <= 1)%nat)
  /\ requestCount st' = (requestCount st + length (recorded trace))%nat
  /\ (length (recorded trace) <= requests trace)%nat
  /\ (length (requestTimestamps st')
      <= Nat.max (length (requestTimestamps st)) (17 + length (recorded trace)))%nat.
Proof.
  pose proof (call_window config st tx w) as Hcall.
  destruct (reachesLoop config st tx w) eqn:Hloop.
  - rewrite (analyzeTransaction_loop config st tx w Hloop) in *. cbn zeta in *.
    pose proof (attempts_result tx w (snd (canMakeRequest st (clockCheck w)))) as Hatt.
    pose proof (attempts_requests tx w (snd (canMakeRequest st (clockCheck w)))) as Hreq.
    destruct (attempts retryCount 1 tx w _) as [[r st2] trace] eqn:Hrun.
    cbn [snd] in Hreq.
    change (recorded (RateCheck (clockCheck w) :: trace)) with (recorded trace) in *.
    change (requests (RateCheck (clockCheck w) :: trace)) with (requests trace).
    destruct Hcall as (Hts & Hadm & Hyes & _). specialize (Hyes eq_refl).
    assert (Hcount : requestCount st2 = (requestCount st + length (recorded trace))%nat).
    { revert Hrun. unfold tryBlock in *. cbn.
      destruct (post w 1) as [d1|s1]; [destruct (parseSearchResponse d1) as [r1|e1]|];
        cbn; try (intros [= <- <- <-]; cbn; lia);
        (destruct (post w 2) as [d2|s2]; [destruct (parseSearchResponse d2) as [r2|e2]|]);
        cbn; intros [= <- <- <-]; cbn; lia. }
    unfold reachesLoop in Hloop.
    apply andb_prop in Hloop as [Hloop _]. apply andb_prop in Hloop as [Hact Hroom].
    apply Nat.ltb_lt in Hroom. unfold maxRequestsPerMinute in Hroom.
    rewrite Hact in Hts.
    split; [|split; [|split; [exact Hcount|split]]].
    + rewrite Hyes, length_app.
      destruct (post w 1), (tryBlock w 1), (post w 2); cbn; lia.
    + intros Hparse. rewrite Hyes, length_app. unfold tryBlock.
      destruct (post w 1) as [d1|s1] eqn:Hp1.
      * destruct (parsable_parse d1 (Hparse 1%nat d1 Hp1)) as [x ->]. cbn. lia.
      * destruct (post w 2); cbn; lia.
    + rewrite Hyes, Hreq, length_app.
      destruct (post w 1), (tryBlock w 1), (post w 2); cbn; lia.
    + rewrite Hts, length_app. lia.
  - pose proof (analyzeTransaction_skip config st tx w Hloop) as Hskip.
    destruct (analyzeTransaction config st tx w) as [[r st'] trace].
    destruct Hskip as (_ & _ & Hrec & Hcount & Hact). rewrite Hrec. cbn [length].
    split; [lia|]. split; [intros _; lia|]. split; [lia|]. split; [lia|].
    destruct (active config).
    + destruct Hact as [_ ->]. unfold purge.
      pose proof (length_filter (fun t => clockCheck w - 60000 < t) (requestTimestamps st)).
      lia.
    + destruct Hact as [_ ->]. lia.
Qed.

Lemma run_step (st : state) (tx : RealTransaction) (w : world)
    (rest : list (RealTransaction * world)) :
  run config st ((tx, w) :: rest)
  = (fst (run config (snd (fst (analyzeTransaction config st tx w))) rest),
     snd (analyzeTransaction config st tx w)
     ++ snd (run config (snd (fst (analyzeTransaction config st tx w))) rest)).
Proof.
  cbn [run]. destruct (analyzeTransaction config st tx w) as [[r st1] trace].
  cbn [fst snd]. destruct (run config st1 rest). reflexivity.
Qed.

(** X13.  Whatever the transactions, the answers and the clock, the stored
    window never holds more than 19 timestamps, and never more than 18
    when every answer parses: [rateLimitRemaining] lies between -1 and 18,
    and is not negative when every answer parses.  The request counter is
    the number of answered requests; rejected requests are sent but not
    counted. *)
Theorem stats_bounds (arrivals : list (RealTransaction * world)) :
  let st := fst (run config init arrivals) in
  let trace := snd (run config init arrivals) in
  -1 <= rateLimitRemaining (getStats st) <= 18
  /\ (Forall (fun a => answersParse (snd a)) arrivals ->
        0 <= rateLimitRemaining (getStats st))
  /\ stats_requestCount (getStats st) = length (recorded trace)
  /\ (stats_requestCount (getStats st) <= requests trace)%nat.
Proof.
  cbn zeta. unfold getStats, maxRequestsPerMinute. cbn [rateLimitRemaining stats_requestCount].
  assert (Hgen : forall st (bound : nat),
            (bound = 18 \/ bound = 19)%nat ->
            (bound = 18%nat -> Forall (fun a => answersParse (snd a)) arrivals) ->
            (length (requestTimestamps st) <= bound)%nat ->
            (length (requestTimestamps (fst (run config st arrivals))) <= bound)%nat
            /\ requestCount (fst (run config st arrivals))
               = (requestCount st + length (recorded (snd (run config st arrivals))))%nat
            /\ (length (recorded (snd (run config st arrivals)))
                <= requests (snd (run config st arrivals)))%nat).
  { induction arrivals as [|[tx w] rest IH]; intros st bound Hb Hparse Hlen.
    - cbn. split; [exact Hlen|]. split; lia.
    - rewrite run_step. cbn [fst snd].
      pose proof (call_records st tx w) as Hcall.
      destruct (analyzeTransaction config st tx w) as [[r st1] trace]. cbn [fst snd].
      destruct Hcall as (H2 & H1 & Hcount & Hreq & Hmax).
      assert (Hlen1 : (length (requestTimestamps st1) <= bound)%nat).
      { destruct Hb as [->| ->]; [|lia].
        specialize (Hparse eq_refl). apply Forall_cons in Hparse as [Hw _].
        specialize (H1 Hw). lia. }
      destruct (IH st1 bound Hb) as (IHlen & IHcount & IHreq); [|exact Hlen1|].
      { intros E. specialize (Hparse E). apply Forall_cons in Hparse as [_ Hrest].
        exact Hrest. }
      rewrite recorded_app, requests_app, length_app.
      split; [exact IHlen|]. split; lia. }
  split; [|split; [|split]].
  - destruct (Hgen init 19%nat) as (Hlen & _); [auto | discriminate | cbn; lia|]. lia.
  - intros Hparse. destruct (Hgen init 18%nat) as (Hlen & _); [auto | auto | cbn; lia|].
    lia.
  - destruct (Hgen init 19%nat) as (_ & Hcount & _); [auto | discriminate | cbn; lia|].
    rewrite Hcount. reflexivity.
  - destruct (Hgen init 19%nat) as (_ & Hcount & Hreq); [auto | discriminate | cbn; lia|].
    rewrite Hcount. cbn. exact Hreq.
Qed.

(** The same invariant as for answers that parse, with one more entry:
    a call adds at most two timestamps to a purged window of at most 17. *)
Lemma run_bound_any (arrivals : list (RealTransaction * world)) :
  forall (st : state) (history : list Z) (t0 cut : Z),
    chronological t0 arrivals ->
    cut + 60000 <= t0 ->
    requestTimestamps st = filter (fun t => cut < t) history ->
    (forall T, (length (filter (inWindow T) history) <= 19)%nat) ->
    forall T,
      (length (filter (inWindow T)
                 (history ++ recorded (snd (run config st arrivals)))) <= 19)%nat.
Proof.
  induction arrivals as [|[tx w] rest IH]; intros st history t0 cut Hchron Hcut Hst Hbound T.
  - cbn. rewrite app_nil_r. apply Hbound.
  - cbn [chronological] in Hchron. destruct Hchron as (Hc & H1 & H2 & Hchron).
    rewrite run_step. cbn [snd].
    pose proof (call_window config st tx w) as Hcall.
    destruct (analyzeTransaction config st tx w) as [[r st1] trace]. cbn [fst snd].
    destruct Hcall as (Hts & Hadm & Hyes & Hno).
    rewrite recorded_app, app_assoc.
    destruct (active config).
    2: { destruct Hts as [-> ->]. cbn. rewrite app_nil_r.
         apply (IH st history (clockRecord w 2) cut); try assumption. lia. }
    rewrite Hst, purge_filter in Hts, Hadm by lia.
    assert (Hrecs : (length (recorded trace) <= 2)%nat
                    /\ Forall (fun t => clockCheck w <= t <= clockRecord w 2)
                              (recorded trace)).
    { destruct (reachesLoop config st tx w).
      - rewrite (Hyes eq_refl). apply recorded_twice; assumption.
      - rewrite (Hno eq_refl). split; [cbn; lia | constructor]. }
    destruct Hrecs as [Htwo Hafter].
    apply (IH st1 (history ++ recorded trace) (clockRecord w 2) (clockCheck w - 60000));
      try assumption; [lia| |].
    + rewrite Hts, filter_app. f_equal. symmetry.
      clear -Hafter. induction Hafter as [|t l Ht _ IHl]; [reflexivity|].
      rewrite filter_cons_True by lia. f_equal. exact IHl.
    + intros T'. rewrite filter_app, length_app.
      destruct (filter (inWindow T') (recorded trace)) as [|t l] eqn:Hin.
      * specialize (Hbound T'). cbn. lia.
      * assert (Ht : In t (recorded trace) /\ inWindow T' t).
        { assert (H : t ∈ filter (inWindow T') (recorded trace))
            by (rewrite Hin; left).
          apply list_elem_of_filter in H as [? H]. apply list_elem_of_In in H. auto. }
        destruct Ht as [Ht Hwin]. rewrite List.Forall_forall in Hafter.
        specialize (Hafter t Ht).
        assert (Hroom : (length (filter (fun t => (clockCheck w - 60000 < t)%Z) history)
                         < 18)%nat).
        { apply Hadm. right. intros E. rewrite E in Ht. destruct Ht. }
        assert (Hsub : (length (filter (inWindow T') history)
                        <= length (filter (fun t => (clockCheck w - 60000 < t)%Z)
                                     history))%nat).
        { apply filter_length_mono. unfold inWindow in *. intros t'. lia. }
        assert (Hl : (length (t :: l) <= 2)%nat).
        { rewrite <- Hin. pose proof (length_filter (inWindow T') (recorded trace)). lia. }
        lia.
Qed.

(** X14.  Whatever the answers, as long as the clock does not go back, no
    trailing 60-second window holds more than 19 recorded requests. *)
Theorem rate_limit_window_any (t0 : Z) (arrivals : list (RealTransaction * world))
    (T : Z) :
  chronological t0 arrivals ->
  (length (filter (inWindow T) (recorded (snd (run config init arrivals)))) <= 19)%nat.
Proof.
  intros Hchron.
  apply (run_bound_any arrivals init [] t0 (t0 - 60000) Hchron);
    [lia | reflexivity | intros T'; cbn; lia].
Qed.

End Budget.

Lemma rate_limit_window_any_witness :
  HiveIntelligenceService.chronological 0 Scenarios.slowOverrun
  /\ (length (filter (HiveIntelligenceService.inWindow 18000)
                (HiveIntelligenceService.recorded
                   (snd (HiveIntelligenceService.run Samples.config
                           HiveIntelligenceService.init Scenarios.slowOverrun))))
      <= 19)%nat.
Proof.
  assert (Hchron : HiveIntelligenceService.chronological 0 Scenarios.slowOverrun)
    by (cbn; repeat split; lia).
  split; [exact Hchron|].
  apply (rate_limit_window_any Samples.config 0 Scenarios.slowOverrun 18000 Hchron).
Defined.

(** The bound is reached, and the remaining budget reads -1. *)
Example slowOverrun_is_tight :
  let run := HiveIntelligenceService.run Samples.config
               HiveIntelligenceService.init Scenarios.slowOverrun in
  length (filter (HiveIntelligenceService.inWindow 18000)
            (HiveIntelligenceService.recorded (snd run))) = 19%nat
  /\ HiveStats.rateLimitRemaining (HiveStats.getStats (fst run)) = -1.
Proof. vm_compute. split; reflexivity. Qed.

Lemma stats_bounds_witness :
  0 <= HiveStats.rateLimitRemaining
         (HiveStats.getStats
            (fst (HiveIntelligenceService.run Samples.config
                    HiveIntelligenceService.init Samples.steady))).
Proof.
  apply (stats_bounds Samples.config Samples.steady).
  unfold Samples.steady. apply Forall_map, Forall_forall.
  intros k _ attempt data. cbn. intros [= <-]. reflexivity.
Defined.

(** ** Block numbers on the wire *)

Section Hexadecimal.

Import JSMore.

Lemma parseInt16Z_number (s : string) :
  JS.parseInt16 s = match parseInt16Z s with
                    | Some z => JS.of_Z z
                    | None => JS.NaN
                    end.
Proof.
  unfold JS.parseInt16, parseInt16Z. destruct (JS.strip_sign _) as [negative body].
  destruct (JS.hex_digits _ _); reflexivity.
Qed.

Lemma hex_digit_hexChar (d : N) : (d < 16)%N -> JS.hex_digit (hexChar d) = Some (Z.of_N d).
Proof.
  intros Hd.
  assert (H : In d (map N.of_nat (seq 0 16))).
  { apply in_map_iff. exists (N.to_nat d). split; [lia|]. apply in_seq. lia. }
  cbn in H. repeat (destruct H as [<-|H]; [reflexivity|]). destruct H.
Qed.

(** Reading back what [hexFrom] wrote: the digits of [n], then [acc]. *)
Lemma hex_digits_hexFrom (fuel : nat) :
  forall (n : N) (acc : string) (seen : option Z),
    (n < 16 ^ N.of_nat (S fuel))%N ->
    exists m : Z,
      0 < m
      /\ JS.hex_digits (hexFrom (S fuel) n acc) seen
         = JS.hex_digits acc (Some (m * default 0 seen + Z.of_N n)).
Proof.
  induction fuel as [|fuel IH]; intros n acc seen Hn.
  all: assert (Hmod : (n mod 16 < 16)%N) by (apply N.mod_lt; lia).
  all: assert (Hsplit : Z.of_N n = 16 * Z.of_N (n / 16) + Z.of_N (n mod 16))
         by (rewrite (N.div_mod n 16) at 1 by lia; lia).
  all: assert (Hlast : (n / 16 = 0)%N ->
                 exists m : Z, 0 < m
                   /\ JS.hex_digits (String (hexChar (n mod 16)) acc) seen
                      = JS.hex_digits acc (Some (m * default 0 seen + Z.of_N n)))
         by (intros Hz; exists 16; split; [lia|]; cbn [JS.hex_digits];
             rewrite (hex_digit_hexChar _ Hmod), Hsplit, Hz; do 2 f_equal; lia).
  - change (hexFrom 1 n acc)
      with (if (n / 16 =? 0)%N then String (hexChar (n mod 16)) acc
            else String (hexChar (n mod 16)) acc).
    assert (Hz : (n / 16 = 0)%N) by (apply N.div_small; cbn in Hn; lia).
    rewrite Hz. cbn [N.eqb]. apply Hlast. exact Hz.
  - change (hexFrom (S (S fuel)) n acc)
      with (if (n / 16 =? 0)%N then String (hexChar (n mod 16)) acc
            else hexFrom (S fuel) (n / 16) (String (hexChar (n mod 16)) acc)).
    destruct (N.eqb_spec (n / 16) 0) as [Hz|Hnz]; [apply Hlast; exact Hz|].
    assert (Hdiv : (n / 16 < 16 ^ N.of_nat (S fuel))%N).
    { apply N.Div0.div_lt_upper_bound.
      replace (16 * 16 ^ N.of_nat (S fuel))%N with (16 ^ N.of_nat (S (S fuel)))%N;
        [exact Hn|].
      rewrite (Nat2N.inj_succ (S fuel)), N.pow_succ_r'. reflexivity. }
    destruct (IH (n / 16)%N (String (hexChar (n mod 16)) acc) seen Hdiv)
      as (m & Hm & ->).
    exists (16 * m). split; [lia|]. cbn [JS.hex_digits].
    rewrite (hex_digit_hexChar _ Hmod). cbn [default].
    apply (f_equal (JS.hex_digits acc)), (f_equal Some).
    unfold Datatypes.id. rewrite Hsplit. ring.
Qed.

Lemma hexOfN_fuel (n : N) : (n < 16 ^ N.of_nat (S (N.to_nat (N.log2 n))))%N.
Proof.
  destruct (N.eq_dec n 0%N) as [->|Hn]; [cbn; lia|].
  assert (Hlog : (n < 2 ^ N.succ (N.log2 n))%N) by (apply N.log2_spec; lia).
  rewrite Nat2N.inj_succ, N2Nat.id.
  eapply N.lt_le_trans; [exact Hlog|].
  apply N.pow_le_mono_l. lia.
Qed.

Lemma hexOfN_read (n : N) (seen : option Z) :
  exists m : Z, 0 < m
    /\ JS.hex_digits (hexOfN n) seen = Some (m * default 0 seen + Z.of_N n).
Proof.
  unfold hexOfN.
  destruct (hex_digits_hexFrom (N.to_nat (N.log2 n)) n "" seen (hexOfN_fuel n))
    as (m & Hm & E).
  exists m. split; [exact Hm|]. rewrite E. reflexivity.
Qed.

(** [parseInt(_, 16)] undoes ['0x' + n.toString(16)] on the block numbers
    that are not negative. *)
Lemma toString16_parse (z : Z) :
  parseInt16Z ("0x" +:+ toString16 z) = if z <? 0 then None else Some z.
Proof.
  unfold toString16, parseInt16Z. rewrite !append_cons, append_nil_l.
  destruct (Z.ltb_spec z 0) as [Hneg|Hpos].
  - reflexivity.
  - change (JS.skip_space (String "0" (String "x" (hexOfN (Z.to_N z)))))
      with (String "0"%char (String "x"%char (hexOfN (Z.to_N z)))).
    cbn [JS.strip_sign JS.strip_0x].
    destruct (hexOfN_read (Z.to_N z) None) as (m & _ & ->).
    cbn [default]. f_equal. lia.
Qed.

(** X15.  The request that [getBlock] sends carries the counter as its id
    and a parameter that reads back, with [parseInt(_, 16)] as
    [getLatestBlock] reads the head, as the block number asked for when
    it is not negative; for a negative block number the parameter is
    ['0x-...'], which reads back as NaN.  The counter goes up by one,
    whether the request succeeds or not. *)
Theorem block_number_round_trip (A : Type) (st : SeiBlockchainService.state)
    (z : Z) (b : SeiBlockchainService.answer A) :
  let '(_, st', sent) := SeiBlockchainService.getBlock st z b in
  option_map parseInt16Z (SeiBlockchainService.param sent)
    = Some (if z <? 0 then None else Some z)
  /\ SeiBlockchainService.request_id sent = SeiBlockchainService.requestId st
  /\ SeiBlockchainService.requestId st' = S (SeiBlockchainService.requestId st).
Proof.
  unfold SeiBlockchainService.getBlock, SeiBlockchainService.getNextRequestId.
  destruct b as [|result]; cbn [option_map SeiBlockchainService.param
    SeiBlockchainService.request_id SeiBlockchainService.requestId];
    rewrite toString16_parse; done.
Qed.

Example toString16_samples :
  toString16 0 = "0" /\ toString16 255 = "ff" /\ toString16 4096 = "1000"
  /\ toString16 (-26) = "-1a".
Proof. by vm_compute. Qed.

End Hexadecimal.

(** ** The monitoring loop *)

Section Monitoring.

Import EnhancedSeiThreatDetector.

Lemma analyzed_app (a b : list action) : analyzed (a ++ b) = analyzed a ++ analyzed b.
Proof. apply flat_map_app. Qed.

Lemma requested_app (a b : list action) : requested (a ++ b) = requested a ++ requested b.
Proof. apply flat_map_app. Qed.

Lemma timeouts_app (a b : list action) : timeouts (a ++ b) = timeouts a ++ timeouts b.
Proof. apply flat_map_app. Qed.

Lemma processed_app (a b : list action) : processed (a ++ b) = processed a ++ processed b.
Proof. apply flat_map_app. Qed.

(** The loop over the transactions of a block sends no request, starts no
    block and sets no timer. *)
Lemma processEntries_quiet (block : Block) (entries : list entry) :
  analyzed (processEntries block entries) = []
  /\ requested (processEntries block entries) = []
  /\ timeouts (processEntries block entries) = [].
Proof.
  induction entries as [|e entries IH]; [done|].
  destruct e as [|h|raw]; cbn [processEntries]; [done|exact IH|].
  destruct (truthy (raw_hash raw)); [|exact IH].
  destruct IH as (? & ? & ?). done.
Qed.

(** What one call of [analyzeBlock] does and leaves alone. *)
Lemma analyzeBlock_facts (st : state) (n : Z) (b : SeiBlockchainService.answer Block) :
  let '(st', actions) := analyzeBlock st n b in
  analyzed actions = [n]
  /\ requested actions =
       [ {| SeiBlockchainService.request_id :=
              SeiBlockchainService.requestId (blockchainService st);
            SeiBlockchainService.method := "eth_getBlockByNumber";
            SeiBlockchainService.param := Some ("0x" +:+ JSMore.toString16 n) |} ]
  /\ timeouts actions = []
  /\ monitoringActive st' = monitoringActive st
  /\ currentBlock st' = currentBlock st
  /\ blocksProcessed st' = blocksProcessed st
  /\ transactionsAnalyzed st' = (transactionsAnalyzed st + length (processed actions))%nat
  /\ SeiBlockchainService.requestId (blockchainService st') =
       S (SeiBlockchainService.requestId (blockchainService st)).
Proof.
  unfold analyzeBlock, SeiBlockchainService.getBlock, SeiBlockchainService.getNextRequestId.
  destruct b as [|[block|]]; cbn.
  - repeat split; lia.
  - destruct (transactions block) as [entries|]; cbn.
    + destruct (processEntries_quiet block entries) as (Ha & Hr & Ht).
      unfold analyzed, requested, timeouts in *. rewrite Ha, Hr, Ht.
      repeat split; reflexivity.
    + repeat split; lia.
  - repeat split; lia.
Qed.

(** The same for the loop over the new blocks. *)
Lemma analyzeBlocks_facts (w : world) (blockNums : list Z) (st : state) :
  let '(st', actions) := analyzeBlocks st w blockNums in
  analyzed actions = blockNums
  /\ map SeiBlockchainService.request_id (requested actions) =
       seq (SeiBlockchainService.requestId (blockchainService st)) (length blockNums)
  /\ omap SeiBlockchainService.param (requested actions) =
       map (fun n => "0x" +:+ JSMore.toString16 n) blockNums
  /\ timeouts actions = []
  /\ monitoringActive st' = monitoringActive st
  /\ currentBlock st' = currentBlock st
  /\ blocksProcessed st' = (blocksProcessed st + length blockNums)%nat
  /\ transactionsAnalyzed st' = (transactionsAnalyzed st + length (processed actions))%nat
  /\ SeiBlockchainService.requestId (blockchainService st') =
       (SeiBlockchainService.requestId (blockchainService st) + length blockNums)%nat.
Proof.
  revert st. induction blockNums as [|n rest IH]; intros st.
  - cbn. repeat split; lia.
  - cbn [analyzeBlocks].
    pose proof (analyzeBlock_facts st n (blockAt w n)) as H1.
    destruct (analyzeBlock st n (blockAt w n)) as [st1 actions].
    destruct H1 as (Ha & Hr & Ht & Hm & Hc & Hb & Hx & Hi).
    match goal with |- context [analyzeBlocks ?s w rest] =>
      pose proof (IH s) as H2; destruct (analyzeBlocks s w rest) as [st3 actions'] end.
    cbn in H2. destruct H2 as (Ha' & Hr' & Hp' & Ht' & Hm' & Hc' & Hb' & Hx' & Hi').
    rewrite analyzed_app, requested_app, timeouts_app, processed_app, Ha, Hr, Ht, Ha', Ht'.
    rewrite length_app, omap_app, map_app, Hr', Hp', Hi, Hm', Hc', Hb', Hx', Hi'.
    cbn. repeat split; try congruence; try lia.
Qed.

Lemma advanced_refl (st : state) : advanced st st [].
Proof.
  unfold advanced. destruct (currentBlock st) as [c|]; [|done].
  exists c. rewrite Z.sub_diag, Nat.add_0_r. by repeat split.
Qed.

Lemma advanced_trans (st0 st1 st2 : state) (a b : list action) :
  advanced st0 st1 a -> advanced st1 st2 b -> advanced st0 st2 (a ++ b).
Proof.
  unfold advanced. destruct (currentBlock st0) as [c|].
  - intros (c1 & -> & Hle & Ha & Hb) (c2 & -> & Hle' & Ha' & Hb').
    exists c2. rewrite analyzed_app, Ha, Ha', Hb', Hb.
    repeat split; [lia| |lia].
    replace (c2 - c) with ((c1 - c) + (c2 - c1)) by lia.
    rewrite seqZ_app by lia. do 2 f_equal. lia.
  - intros (-> & Ha & Hb) (-> & Ha' & Hb').
    rewrite analyzed_app, Ha, Ha'. repeat split; congruence.
Qed.

Lemma numbered_refl (st : state) : numbered st st [].
Proof. unfold numbered. cbn. repeat split; lia. Qed.

Lemma numbered_trans (st0 st1 st2 : state) (a b : list action) :
  numbered st0 st1 a -> numbered st1 st2 b -> numbered st0 st2 (a ++ b).
Proof.
  unfold numbered. intros (Hi & Hn & Hp & Ht) (Hi' & Hn' & Hp' & Ht').
  rewrite requested_app, analyzed_app, processed_app, !length_app, !map_app, omap_app.
  rewrite Hi, Hi', Hn', Hn, Hp, Hp', Ht', Ht, seq_app.
  repeat split; lia.
Qed.

(** One run of the loop. *)
Lemma monitorLoop_facts (p : JS.number) (st : state) (w : world) :
  let '(st', actions) := monitorLoop p st w in
  advanced st st' actions /\ numbered st st' actions
  /\ monitoringActive st' = monitoringActive st
  /\ (if monitoringActive st then
        exists t, timeouts actions = [t]
          /\ (t = JS.of_Z 2000
              \/ t = JSMore.Math_max (JS.of_Z 100)
                       (JSMore.sub p (JS.of_Z (processingTime w))))
      else actions = []).
Proof.
  unfold monitorLoop. destruct (monitoringActive st) eqn:Hact; cbn [negb].
  2:{ rewrite Hact. split; [apply advanced_refl|]. split; [apply numbered_refl|done]. }
  unfold SeiBlockchainService.getLatestBlock, SeiBlockchainService.getNextRequestId.
  destruct (head w) as [|result].
  - split; [|split; [|split]].
    + unfold advanced. cbn. destruct (currentBlock st) as [c|]; [|done].
      exists c. rewrite Z.sub_diag, Nat.add_0_r. by repeat split.
    + unfold numbered. cbn. repeat split; lia.
    + done.
    + eexists. split; [reflexivity|]. by left.
  - set (latest := JSMore.parseInt16Z (default "undefined" result)).
    cbn [withService currentBlock blockchainService].
    destruct (ahead latest (currentBlock st)) eqn:Hahead.
    + unfold ahead in Hahead.
      destruct latest as [l|]; [|done]. destruct (currentBlock st) as [c|] eqn:Hc; [|done].
      apply Z.ltb_lt in Hahead. cbn [default].
      match goal with |- context [analyzeBlocks ?s w ?l] =>
        pose proof (analyzeBlocks_facts w l s) as H;
        destruct (analyzeBlocks s w l) as [st' actions] end.
      cbn in H. destruct H as (Ha & Hi & Hp & Ht & Hm & _ & Hb & Hx & Hn).
      rewrite length_seqZ in Hi, Hb, Hn.
      assert (Hlen : length (requested actions) = Z.to_nat (l - c)).
      { rewrite <- (length_map SeiBlockchainService.request_id), Hi, length_seq. done. }
      unfold advanced, numbered. rewrite Hc. cbn [currentBlock blocksProcessed
        transactionsAnalyzed blockchainService monitoringActive].
      rewrite !requested_app, !analyzed_app, !processed_app, !timeouts_app, Ht, Ha.
      cbn. rewrite !app_nil_r, Hi, Hp, Hm, Hb, Hx, Hn, Hlen.
      split; [exists l; repeat split; lia|].
      split; [repeat split; lia|].
      split; [done|]. eexists. split; [reflexivity|]. by right.
    + unfold advanced, numbered. cbn.
      split.
      { destruct (currentBlock st) as [c|]; [|done].
        exists c. rewrite Z.sub_diag, Nat.add_0_r. by repeat split. }
      split; [repeat split; lia|]. split; [done|].
      eexists. split; [reflexivity|]. by right.
Qed.

Lemma run_facts (p : JS.number) (ticks : list tick) (st : state) :
  let '(st', actions) := run p st ticks in
  advanced st st' actions /\ numbered st st' actions.
Proof.
  revert st. induction ticks as [|[w|] rest IH]; intros st; cbn [run].
  - split; [apply advanced_refl|apply numbered_refl].
  - pose proof (monitorLoop_facts p st w) as H1.
    destruct (monitorLoop p st w) as [st1 actions].
    pose proof (IH st1) as H2. destruct (run p st1 rest) as [st2 actions'].
    destruct H1 as (Ha & Hn & _), H2 as (Ha' & Hn').
    split; [by eapply advanced_trans|by eapply numbered_trans].
  - pose proof (IH (stop st)) as H2. destruct (run p (stop st) rest) as [st2 actions'].
    exact H2.
Qed.

(** X16.  Whatever the chain answers and whenever the detector is
    stopped, the blocks given to [analyzeBlock] are the blocks after the
    cursor up to the new cursor, in ascending order and once each (also a
    block that could not be fetched), and [blocksProcessed] has gone up by
    their number; the cursor never goes back.  A cursor that is not a
    number stays so, and no block is ever analysed. *)
Theorem blocks_analyzed_in_order (p : JS.number) (st : state) (ticks : list tick) :
  let '(st', actions) := run p st ticks in
  match currentBlock st with
  | Some c =>
      exists c', currentBlock st' = Some c' /\ c <= c'
        /\ analyzed actions = seqZ (c + 1) (c' - c)
        /\ NoDup (analyzed actions)
        /\ blocksProcessed st' = (blocksProcessed st + Z.to_nat (c' - c))%nat
  | None =>
      currentBlock st' = None /\ analyzed actions = []
      /\ blocksProcessed st' = blocksProcessed st
  end.
Proof.
  pose proof (run_facts p ticks st) as H. destruct (run p st ticks) as [st' actions].
  destruct H as [H _]. unfold advanced in H.
  destruct (currentBlock st) as [c|]; [|exact H].
  destruct H as (c' & Hc & Hle & Ha & Hb). exists c'.
  repeat split; try assumption. rewrite Ha. apply NoDup_seqZ.
Qed.

(** X17.  When the cursor is a block number (at least -1), the parameters
    of the requests for a block, read back with [parseInt(_, 16)], are
    the numbers of the blocks analysed, in the same order. *)
Theorem block_requests_name_blocks (p : JS.number) (st : state) (ticks : list tick)
    (c : Z) :
  currentBlock st = Some c -> -1 <= c ->
  let actions := snd (run p st ticks) in
  map JSMore.parseInt16Z (omap SeiBlockchainService.param (requested actions))
    = map Some (analyzed actions).
Proof.
  intros Hc Hle. cbn zeta.
  pose proof (run_facts p ticks st) as H. destruct (run p st ticks) as [st' actions].
  destruct H as [Ha (_ & _ & Hp & _)]. cbn [snd]. rewrite Hp.
  unfold advanced in Ha. rewrite Hc in Ha. destruct Ha as (c' & _ & _ & Ha & _).
  rewrite Ha, <- list_fmap_compose. apply list_eq_Forall2, Forall2_fmap, Forall_Forall2_diag.
  apply Forall_forall. intros n Hn. apply elem_of_seqZ in Hn.
  cbn. rewrite toString16_parse. destruct (Z.ltb_spec n 0); [lia|done].
Qed.

(** X18.  The ids of the JSON-RPC requests of the loop count up by one
    from the counter of the service, without a gap or a repeat, and the
    counter ends behind the last of them. *)
Theorem request_ids_consecutive (p : JS.number) (st : state) (ticks : list tick) :
  let '(st', actions) := run p st ticks in
  map SeiBlockchainService.request_id (requested actions) =
    seq (SeiBlockchainService.requestId (blockchainService st))
        (length (requested actions))
  /\ SeiBlockchainService.requestId (blockchainService st') =
       (SeiBlockchainService.requestId (blockchainService st)
        + length (requested actions))%nat.
Proof.
  pose proof (run_facts p ticks st) as H. destruct (run p st ticks) as [st' actions].
  destruct H as [_ (Hi & Hn & _)]. by split.
Qed.

(** What [analyzeBlock] hands on is stamped by the block. *)
Lemma processEntries_stamped (block : Block) (entries : list entry) :
  Forall (stampedBy block) (processed (processEntries block entries)).
Proof.
  induction entries as [|e entries IH]; [constructor|].
  destruct e as [|h|raw]; cbn [processEntries]; [constructor|exact IH|].
  destruct (truthy (raw_hash raw)) eqn:Hh; [|exact IH].
  change (processed (?a :: ?l)) with (processedOf a ++ processed l).
  cbn [processedOf app]. constructor; [|exact IH].
  split; [|reflexivity].
  cbn. destruct (raw_hash raw) as [h|]; [|done]. cbn in *.
  intros ->. done.
Qed.

Lemma analyzeBlock_stamped (st : state) (n : Z) (b : SeiBlockchainService.answer Block) :
  Forall (fun tx => exists block,
            b = SeiBlockchainService.Body (Some block) /\ stampedBy block tx)
         (processed (snd (analyzeBlock st n b))).
Proof.
  unfold analyzeBlock, SeiBlockchainService.getBlock, SeiBlockchainService.getNextRequestId.
  destruct b as [|[block|]]; cbn; try constructor.
  destruct (transactions block) as [entries|]; cbn; [|constructor].
  eapply Forall_impl; [apply processEntries_stamped|].
  intros tx Htx. by exists block.
Qed.

Lemma analyzeBlocks_stamped (w : world) (blockNums : list Z) (st : state) :
  Forall (fun tx => exists n block,
            In n blockNums /\ blockAt w n = SeiBlockchainService.Body (Some block)
            /\ stampedBy block tx)
         (processed (snd (analyzeBlocks st w blockNums))).
Proof.
  revert st. induction blockNums as [|n rest IH]; intros st; [constructor|].
  cbn [analyzeBlocks].
  pose proof (analyzeBlock_stamped st n (blockAt w n)) as H1.
  destruct (analyzeBlock st n (blockAt w n)) as [st1 actions].
  match goal with |- context [analyzeBlocks ?s w rest] =>
    pose proof (IH s) as H2; destruct (analyzeBlocks s w rest) as [st3 actions'] end.
  cbn [snd] in *. rewrite processed_app. apply Forall_app. split.
  - eapply Forall_impl; [exact H1|]. intros tx (block & Hb & Hs).
    exists n, block. repeat split; [by left|exact Hb|apply Hs|apply Hs].
  - eapply Forall_impl; [exact H2|]. intros tx (m & block & Hm & Hb & Hs).
    exists m, block. repeat split; [by right|exact Hb|apply Hs|apply Hs].
Qed.

Lemma monitorLoop_stamped (p : JS.number) (st : state) (w : world) :
  let actions := snd (monitorLoop p st w) in
  Forall (fun tx => exists n block,
            In n (analyzed actions)
            /\ blockAt w n = SeiBlockchainService.Body (Some block)
            /\ stampedBy block tx)
         (processed actions).
Proof.
  cbn zeta. unfold monitorLoop. destruct (negb (monitoringActive st)); [constructor|].
  unfold SeiBlockchainService.getLatestBlock, SeiBlockchainService.getNextRequestId.
  destruct (head w) as [|result]; [constructor|].
  destruct (ahead _ _); [|constructor].
  match goal with |- context [analyzeBlocks ?s w ?l] =>
    pose proof (analyzeBlocks_stamped w l s) as H;
    pose proof (analyzeBlocks_facts w l s) as Hf;
    destruct (analyzeBlocks s w l) as [st' actions] end.
  destruct Hf as (Ha & _).
  cbn [snd] in *. rewrite !processed_app, !analyzed_app, Ha. cbn.
  rewrite !app_nil_r. exact H.
Qed.

(** X19.  [transactionsAnalyzed] counts the calls of [processTransaction],
    and every transaction handed to it has a hash that is not empty and,
    as its timestamp, 1000 times the timestamp, read by [parseInt(_, 16)],
    of a block that the chain returned at one of the firings for one of
    the block numbers analysed. *)
Theorem transactions_counted_and_stamped (p : JS.number) (st : state)
    (ticks : list tick) :
  let '(st', actions) := run p st ticks in
  transactionsAnalyzed st' = (transactionsAnalyzed st + length (processed actions))%nat
  /\ Forall (fun tx => exists w n block,
               In (Fire w) ticks /\ In n (analyzed actions)
               /\ blockAt w n = SeiBlockchainService.Body (Some block)
               /\ stampedBy block tx)
            (processed actions).
Proof.
  pose proof (run_facts p ticks st) as H.
  assert (Hs : let actions := snd (run p st ticks) in
               Forall (fun tx => exists w n block,
                         In (Fire w) ticks /\ In n (analyzed actions)
                         /\ blockAt w n = SeiBlockchainService.Body (Some block)
                         /\ stampedBy block tx)
                      (processed actions)).
  { clear H. cbn zeta. revert st.
    induction ticks as [|[w|] rest IH]; intros st; cbn [run].
    - constructor.
    - pose proof (monitorLoop_stamped p st w) as H1.
      destruct (monitorLoop p st w) as [st1 actions].
      pose proof (IH st1) as H2. destruct (run p st1 rest) as [st2 actions'].
      cbn [snd] in *. rewrite processed_app, analyzed_app. apply Forall_app. split.
      + eapply Forall_impl; [exact H1|]. intros tx (n & block & Hn & Hb & Hs).
        exists w, n, block. split; [by left|]. split; [apply in_or_app; by left|].
        by split.
      + eapply Forall_impl; [exact H2|]. intros tx (w' & n & block & Hw & Hn & Hb & Hs).
        exists w', n, block. split; [by right|]. split; [apply in_or_app; by right|].
        by split.
    - eapply Forall_impl; [apply IH|]. intros tx (w' & n & block & Hw & Hrest).
      exists w', n, block. split; [by right|exact Hrest]. }
  destruct (run p st ticks) as [st' actions].
  destruct H as [_ (_ & _ & _ & Hx)]. by split.
Qed.

(** A stopped detector does nothing, whatever fires. *)
Lemma run_stopped (p : JS.number) (ticks : list tick) (st : state) :
  monitoringActive st = false -> run p st ticks = (st, []).
Proof.
  revert st. induction ticks as [|[w|] rest IH]; intros st Hst; cbn [run].
  - reflexivity.
  - unfold monitorLoop. rewrite Hst. cbn [negb]. by rewrite (IH st Hst).
  - rewrite (IH (stop st)) by reflexivity. destruct st; cbn in *. by subst.
Qed.

Lemma max_100 (q : Q) (t : Z) :
  atLeast100 (JSMore.Math_max (JS.of_Z 100) (JSMore.sub (JS.Fin q) (JS.of_Z t))).
Proof.
  unfold atLeast100. cbn. destruct (JS.Qltb _ _) eqn:E.
  - eexists. split; [reflexivity|]. apply Qltb_lt in E. by apply Qlt_le_weak.
  - eexists. split; [reflexivity|]. apply Qle_refl.
Qed.

(** X20.  While the detector is active every run of the loop sets the
    timer exactly once, also when the chain could not be reached, and,
    the polling interval being a finite number, never for less than
    100 ms; once [stop] has been called nothing is requested, analysed or
    scheduled any more. *)
Theorem monitor_reschedules (q : Q) (st : state) (ws : list world) (ticks : list tick) :
  monitoringActive st = true ->
  let '(st', actions) := run (JS.Fin q) st (map Fire ws ++ Stop :: ticks) in
  monitoringActive st' = false
  /\ actions = snd (run (JS.Fin q) st (map Fire ws))
  /\ length (timeouts actions) = length ws
  /\ Forall atLeast100 (timeouts actions).
Proof.
  revert st. induction ws as [|w ws IH]; intros st Hact.
  - cbn [map app run]. rewrite run_stopped by reflexivity. cbn. repeat split; constructor.
  - cbn [map app run].
    pose proof (monitorLoop_facts (JS.Fin q) st w) as H1.
    destruct (monitorLoop (JS.Fin q) st w) as [st1 actions].
    destruct H1 as (_ & _ & Hm & Ht). rewrite Hact in Hm, Ht.
    destruct Ht as (t & Ht & Hcase).
    pose proof (IH st1 Hm) as H2.
    destruct (run (JS.Fin q) st1 (map Fire ws ++ Stop :: ticks)) as [st2 actions'].
    destruct H2 as (Hoff & Hsame & Hlen & Hall).
    destruct (run (JS.Fin q) st1 (map Fire ws)) as [st3 actions3].
    cbn [snd] in *. subst actions3.
    rewrite timeouts_app, length_app, Ht, Hlen.
    repeat split; try done.
    apply Forall_app. split; [|exact Hall].
    constructor; [|constructor].
    destruct Hcase as [->| ->]; [|apply max_100].
    exists (inject_Z 2000). split; [reflexivity|]. by vm_compute.
Qed.

(** X21.  [start] fails exactly when its request for the head fails, and
    then nothing is scheduled or analysed and the detector stays as
    inactive as it was.  Otherwise the detector is active, the timer is
    set once and only blocks above the head seen by [start] are
    analysed. *)
Theorem start_watches_from_head (p : JS.number) (st : state)
    (first : SeiBlockchainService.answer string) (w : world) :
  let '(r, st', actions) := start p st first w in
  match first with
  | SeiBlockchainService.Failed =>
      r = Throw "AxiosError" /\ monitoringActive st' = monitoringActive st
      /\ analyzed actions = [] /\ timeouts actions = []
  | SeiBlockchainService.Body result =>
      r = Normal tt /\ monitoringActive st' = true
      /\ length (timeouts actions) = 1%nat
      /\ match JSMore.parseInt16Z (default "undefined" result) with
         | Some h => Forall (fun n => h < n) (analyzed actions)
         | None => analyzed actions = []
         end
  end.
Proof.
  unfold start, SeiBlockchainService.getLatestBlock, SeiBlockchainService.getNextRequestId.
  destruct first as [|result]; [done|].
  match goal with |- context [monitorLoop p ?s w] =>
    pose proof (monitorLoop_facts p s w) as H;
    destruct (monitorLoop p s w) as [st' actions] end.
  cbn [monitoringActive currentBlock] in H.
  destruct H as (Ha & _ & Hm & (t & Ht & _)).
  change (timeouts (?a :: ?l)) with (timeoutOf a ++ timeouts l).
  change (analyzed (?a :: ?l)) with (analyzedOf a ++ analyzed l).
  cbn [timeoutOf analyzedOf app]. rewrite Ht.
  repeat split; try done.
  unfold advanced in Ha. cbn [currentBlock] in Ha.
  destruct (JSMore.parseInt16Z _) as [h|].
  - destruct Ha as (c' & _ & _ & -> & _).
    apply Forall_forall. intros n Hn. apply elem_of_seqZ in Hn. lia.
  - by destruct Ha as (_ & -> & _).
Qed.

End Monitoring.

Lemma block_requests_name_blocks_witness :
  map JSMore.parseInt16Z
      (omap SeiBlockchainService.param
         (EnhancedSeiThreatDetector.requested
            (snd (EnhancedSeiThreatDetector.run (JS.of_Z 1000) (Scenarios.watching 16)
                    Scenarios.session))))
  = map Some (EnhancedSeiThreatDetector.analyzed
                (snd (EnhancedSeiThreatDetector.run (JS.of_Z 1000) (Scenarios.watching 16)
                        Scenarios.session))).
Proof.
  apply (block_requests_name_blocks (JS.of_Z 1000) (Scenarios.watching 16)
           Scenarios.session 16); [reflexivity|lia].
Defined.

Lemma monitor_reschedules_witness :
  let '(st', actions) :=
    EnhancedSeiThreatDetector.run (JS.Fin 1000) (Scenarios.watching 16)
      (map EnhancedSeiThreatDetector.Fire
           [Scenarios.chainAt "0x12"; Scenarios.unreachable; Scenarios.chainAt "0x14"]
       ++ EnhancedSeiThreatDetector.Stop
          :: [EnhancedSeiThreatDetector.Fire (Scenarios.chainAt "0x20")]) in
  EnhancedSeiThreatDetector.monitoringActive st' = false
  /\ actions = snd (EnhancedSeiThreatDetector.run (JS.Fin 1000) (Scenarios.watching 16)
                      (map EnhancedSeiThreatDetector.Fire
                         [Scenarios.chainAt "0x12"; Scenarios.unreachable;
                          Scenarios.chainAt "0x14"]))
  /\ length (EnhancedSeiThreatDetector.timeouts actions) = 3%nat
  /\ Forall EnhancedSeiThreatDetector.atLeast100
            (EnhancedSeiThreatDetector.timeouts actions).
Proof.
  apply (monitor_reschedules 1000 (Scenarios.watching 16)
           [Scenarios.chainAt "0x12"; Scenarios.unreachable; Scenarios.chainAt "0x14"]
           [EnhancedSeiThreatDetector.Fire (Scenarios.chainAt "0x20")]).
  reflexivity.
Defined.

(** The session of [Scenarios.session]: blocks 17 to 20 are analysed, the
    unreachable block 17 included; the second transfer of each block is
    lost behind the [null]; the timer is set to 960, 2000 and 960 ms. *)
Example session_run :
  let '(st', actions) :=
    EnhancedSeiThreatDetector.run (JS.of_Z 1000) (Scenarios.watching 16)
      Scenarios.session in
  EnhancedSeiThreatDetector.analyzed actions = [17; 18; 19; 20]
  /\ EnhancedSeiThreatDetector.currentBlock st' = Some 20
  /\ EnhancedSeiThreatDetector.blocksProcessed st' = 4%nat
  /\ EnhancedSeiThreatDetector.transactionsAnalyzed st' = 3%nat
  /\ map SeiBlockchainService.request_id (EnhancedSeiThreatDetector.requested actions)
     = [1; 2; 3; 4; 5; 6; 7]%nat
  /\ omap SeiBlockchainService.param (EnhancedSeiThreatDetector.requested actions)
     = ["0x11"; "0x12"; "0x13"; "0x14"]
  /\ Forall2 JS.eqv (EnhancedSeiThreatDetector.timeouts actions)
       [JS.of_Z 960; JS.of_Z 2000; JS.of_Z 960].
Proof. vm_compute. repeat split; repeat constructor. Qed.

(** ** The threats of a transaction in the detector *)

Section Ledger.

Import ThreatProcessor Outcome Bookkeeping EnhancedSeiThreatDetector.

Variable config : DetectorConfig.

(** The three tests of the mitigation rule. *)
Let mitigates (threat : ThreatAlert) : bool :=
  mitigation_enabled (mitigation config)
  && bool_decide (severity threat = critical)
  && JS.gt (confidence threat) (JS.Fin 0.8).

(** The alert as it leaves [handleThreat]. *)
Let handled (threat : ThreatAlert) : ThreatAlert :=
  if mitigates threat then withMitigated threat true else threat.

Lemma detectThreats_raisedFor (st : LocalThreatDetector.state) (tx : RealTransaction)
    (now : nat -> Z) (a : ThreatAlert) :
  In a (snd (LocalThreatDetector.detectThreats config st tx now)) -> raisedFor tx a.
Proof.
  unfold LocalThreatDetector.detectThreats. cbn [snd]. intros Hin.
  repeat (apply in_app_or in Hin as [Hin|Hin]).
  - destruct (gas_alert_shape config tx (now 0%nat)) as [E|(b & E & Hr & _)];
      rewrite E in Hin; [destruct Hin|]. by destruct Hin as [<-|[]].
  - destruct (value_alert_shape config tx (now 1%nat)) as [E|(b & E & Hr & _)];
      rewrite E in Hin; [destruct Hin|]. by destruct Hin as [<-|[]].
  - destruct (mev_alert_shape config (LocalThreatDetector.trackTransaction st tx) tx
                (now 2%nat)) as [E|(b & E & Hr & _)];
      rewrite E in Hin; [destruct Hin|]. by destruct Hin as [<-|[]].
  - destruct (creation_alert_shape tx (now 3%nat)) as [E|(b & E & Hr & _)];
      rewrite E in Hin; [destruct Hin|]. by destruct Hin as [<-|[]].
  - destruct (behavior_alert_shape (LocalThreatDetector.trackTransaction st tx) tx
                (now 4%nat)) as [E|(b & E & Hr & _)];
      rewrite E in Hin; [destruct Hin|]. by destruct Hin as [<-|[]].
Qed.

Lemma analysis_raisedFor (st : ThreatProcessor.state) (tx : RealTransaction)
    (c : clocks) (a : ThreatAlert) :
  In a (fst (fst (analyzeThreatPatterns config st tx c))) -> raisedFor tx a.
Proof.
  unfold analyzeThreatPatterns.
  pose proof (detectThreats_raisedFor (localDetector st) tx (localClock c) a) as Hlocal.
  destruct (LocalThreatDetector.detectThreats config (localDetector st) tx (localClock c))
    as [local' localThreats]. cbn [snd] in Hlocal.
  destruct (HiveIntelligenceService.analyzeTransaction config (hiveService st) tx
              (hiveWorld c)) as [[r hive'] trace].
  destruct r as [[analysis|]|e]; cbn [fst]; try exact Hlocal.
  intros Hin. apply in_app_or in Hin as [Hin|Hin]; [by apply Hlocal|].
  by apply processHiveThreats_in in Hin as [Hr _].
Qed.

(** The analysis of a transaction hands no alert to [sendAlert]. *)
Lemma attempts_send_nothing (remaining attempt : nat) (tx : RealTransaction)
    (w : HiveIntelligenceService.world) (st : HiveIntelligenceService.state) :
  dispatched (snd (HiveIntelligenceService.attempts remaining attempt tx w st)) = [].
Proof.
  revert attempt st. induction remaining as [|remaining IH]; intros attempt st; [done|].
  cbn [HiveIntelligenceService.attempts].
  destruct (attempt <=? _)%nat; [|done].
  destruct (HiveIntelligenceService.post w attempt) as [data|status].
  - destruct (HiveIntelligenceService.parseSearchResponse data) as [r|e]; [done|].
    unfold HiveIntelligenceService.catch. destruct (attempt =? _)%nat; [done|].
    match goal with |- context [HiveIntelligenceService.attempts remaining ?k tx w ?s] =>
      pose proof (IH k s) as H;
      destruct (HiveIntelligenceService.attempts remaining k tx w s) as [[r st'] trace'] end.
    cbn [snd] in *. by rewrite !dispatched_app, H.
  - unfold HiveIntelligenceService.catch. destruct (attempt =? _)%nat; [done|].
    match goal with |- context [HiveIntelligenceService.attempts remaining ?k tx w ?s] =>
      pose proof (IH k s) as H;
      destruct (HiveIntelligenceService.attempts remaining k tx w s) as [[r st'] trace'] end.
    cbn [snd] in *. by rewrite !dispatched_app, H.
Qed.

Lemma analysis_sends_nothing (st : ThreatProcessor.state) (tx : RealTransaction)
    (c : clocks) :
  dispatched (snd (analyzeThreatPatterns config st tx c)) = [].
Proof.
  unfold analyzeThreatPatterns.
  destruct (LocalThreatDetector.detectThreats config (localDetector st) tx (localClock c))
    as [local' localThreats].
  assert (H : dispatched (snd (HiveIntelligenceService.analyzeTransaction config
                (hiveService st) tx (hiveWorld c))) = []).
  { unfold HiveIntelligenceService.analyzeTransaction.
    destruct (_ || _); [done|].
    destruct (HiveIntelligenceService.canMakeRequest _ _) as [allowed st1].
    destruct (negb allowed); [by destruct (_ =? _)%nat|].
    destruct (negb _); [done|].
    pose proof (attempts_send_nothing HiveIntelligenceService.retryCount 1 tx
                  (hiveWorld c) st1) as H.
    destruct (HiveIntelligenceService.attempts _ _ _ _ _) as [[r st2] trace].
    exact H. }
  destruct (HiveIntelligenceService.analyzeTransaction config (hiveService st) tx
              (hiveWorld c)) as [[r hive'] trace].
  cbn [snd] in H. destruct r as [[analysis|]|e]; cbn [snd]; try exact H.
  by rewrite dispatched_app, H.
Qed.

(** The history after the alerts [threats] have been stored as handled. *)
Lemma stored_lookup (threats : list ThreatAlert) (history : gmap string ThreatAlert) :
  NoDup (map id threats) ->
  let history' := foldl (fun h a => <[id a := handled a]> h) history threats in
  Forall (fun a => history' !! id a = Some (handled a)) threats
  /\ forall k, ~ In k (map id threats) -> history' !! k = history !! k.
Proof.
  revert history. induction threats as [|a rest IH]; intros history Hnd; cbn zeta.
  - split; [constructor|done].
  - cbn [map] in Hnd. apply NoDup_cons in Hnd as [Hnotin Hnd].
    destruct (IH (<[id a := handled a]> history) Hnd) as [Hall Hrest].
    cbn [foldl]. split.
    + constructor; [|exact Hall].
      rewrite Hrest by (by rewrite <- list_elem_of_In).
      by rewrite lookup_insert_eq.
    + intros k Hk. cbn [map In] in Hk.
      rewrite Hrest by tauto. apply lookup_insert_ne. tauto.
Qed.

Lemma handled_id (a : ThreatAlert) : id (handled a) = id a.
Proof. unfold handled. by destruct (mitigates a). Qed.

Lemma handleThreats_valid (threats : list ThreatAlert) (l : ledger) :
  Forall (fun a => validTime (alert_timestamp a) = true) threats ->
  let '(r, l', trace, emitted) := handleThreats config l threats in
  r = Normal tt
  /\ emitted = map handled threats
  /\ threatProcessor l' = threatProcessor l
  /\ threatsDetected l' = (threatsDetected l + length threats)%nat
  /\ threatHistory l' = foldl (fun h a => <[id a := handled a]> h) (threatHistory l) threats.
Proof.
  revert l. induction threats as [|a rest IH]; intros l Hall.
  - cbn. repeat split; lia.
  - apply Forall_cons in Hall as [Ha Hall]. cbn [handleThreats].
    unfold EnhancedSeiThreatDetector.handleThreat.
    rewrite (handleThreat_valid config a Ha). fold (mitigates a). fold (handled a).
    match goal with |- context [handleThreats config ?l1 rest] =>
      pose proof (IH l1 Hall) as H;
      destruct (handleThreats config l1 rest) as [[[r l2] trace'] emitted'] end.
    cbn in H. destruct H as (-> & -> & Hp & Hn & Hh).
    cbn [map foldl length]. rewrite Hp, Hn, Hh. repeat split; lia.
Qed.

(** X22.  The bookkeeping of [processTransaction].  When the timestamp of
    the transaction is a time value, every alert of the analysis is
    emitted, in order, with its [mitigated] flag set exactly when the
    mitigation rule applies; [threatsDetected] goes up by their number;
    the history holds under each identifier the alert as emitted, so a
    mitigation shows in the history, and the other entries of the history
    are untouched.  When the timestamp is not a time value, handling the
    first alert fails: it is stored and counted, but neither it nor any
    later alert of the transaction is emitted or handed to [sendAlert],
    and the later alerts are not stored. *)
Theorem threats_recorded (l : ledger) (tx : RealTransaction) (c : clocks) :
  let threats := fst (fst (analyzeThreatPatterns config (threatProcessor l) tx c)) in
  let '(l', trace, emitted) := processTransaction config l tx c in
  if validTime (timestamp tx) then
    emitted
    = map (fun a => if mitigation_enabled (mitigation config)
                       && bool_decide (severity a = critical)
                       && JS.gt (confidence a) (JS.Fin 0.8)
                    then withMitigated a true else a) threats
    /\ threatsDetected l' = (threatsDetected l + length threats)%nat
    /\ Forall (fun a => threatHistory l' !! id a = Some a) emitted
    /\ (forall k, ~ In k (map id threats) ->
          threatHistory l' !! k = threatHistory l !! k)
  else
    emitted = [] /\ dispatched trace = []
    /\ match threats with
       | [] => threatsDetected l' = threatsDetected l
               /\ threatHistory l' = threatHistory l
       | first :: _ =>
           threatsDetected l' = S (threatsDetected l)
           /\ threatHistory l' = <[id first := first]> (threatHistory l)
       end.
Proof.
  cbn zeta. unfold processTransaction.
  pose proof (analysis_raisedFor (threatProcessor l) tx c) as Hfor.
  pose proof (analysis_tags config (threatProcessor l) tx c) as Htags.
  pose proof (analysis_sends_nothing (threatProcessor l) tx c) as Hquiet.
  destruct (analyzeThreatPatterns config (threatProcessor l) tx c)
    as [[threats processor] trace].
  cbn [fst snd] in *. apply tags_distinct in Htags.
  destruct (validTime (timestamp tx)) eqn:Hvalid.
  - assert (Hall : Forall (fun a => validTime (alert_timestamp a) = true) threats).
    { apply List.Forall_forall. intros a Ha.
      destruct (Hfor a Ha) as (_ & -> & _). exact Hvalid. }
    match goal with |- context [handleThreats config ?l0 threats] =>
      pose proof (handleThreats_valid threats l0 Hall) as H;
      destruct (handleThreats config l0 threats) as [[[r l1] trace'] emitted] end.
    cbn in H. destruct H as (-> & -> & _ & Hn & Hh).
    destruct (stored_lookup threats (threatHistory l) Htags) as [Hin Hout].
    cbn zeta in Hin, Hout. rewrite <- Hh in Hin, Hout.
    repeat split; try done.
    apply Forall_fmap. eapply Forall_impl; [exact Hin|].
    intros a Ha. cbn. by rewrite handled_id.
  - destruct threats as [|first rest].
    + cbn. by rewrite app_nil_r.
    + cbn [handleThreats]. unfold EnhancedSeiThreatDetector.handleThreat, ThreatProcessor.handleThreat.
      destruct (Hfor first (or_introl eq_refl)) as (_ & -> & _).
      rewrite Hvalid. cbn [negb]. cbn.
      rewrite dispatched_app, Hquiet. done.
Qed.

End Ledger.

(** A rug-pull alarm on a transaction from a block whose timestamp reads
    properly: the critical alert is emitted and stored as mitigated. *)
Example rug_pull_recorded :
  let '(l', trace, emitted) :=
    EnhancedSeiThreatDetector.processTransaction Samples.config Scenarios.blank
      Samples.pricey (Scenarios.still Scenarios.rugAlarm 0) in
  map (fun a => (type a, severity a, mitigated a)) emitted
  = [(suspicious_pattern, medium, false); (rug_pull, critical, true)]
  /\ EnhancedSeiThreatDetector.threatsDetected l' = 2%nat
  /\ (mitigated <$> EnhancedSeiThreatDetector.threatHistory l'
                      !! "hive_rug_pull_0xfeed_0") = Some true.
Proof. by vm_compute. Qed.

(** ** The alert channels *)

Section Channels.

Import SocialAlertSystem.

Variable alerts : AlertsConfig.
Variable discordClient : bool.
Variable formatAlertMessage : ThreatAlert -> string.

(** An alert whose timestamp is a time value goes to the channels in
    use, in order, up to the first that fails. *)
Lemma sendAlert_valid (threat : ThreatAlert) (delivers : channel -> bool) :
  ThreatProcessor.validTime (alert_timestamp threat) = true ->
  let '(posted, ok) := sendAlert alerts discordClient formatAlertMessage threat delivers in
  map channelOf posted = upToFailure delivers (configured alerts discordClient)
  /\ ok = forallb delivers (configured alerts discordClient).
Proof.
  intros Hvalid.
  unfold sendAlert, configured, sendDiscordAlert, sendSlackAlert, sendTelegramAlert, send.
  rewrite Hvalid.
  destruct discordClient, (truthy (slackWebhook alerts)),
    (truthy (telegramBotToken alerts)), (truthy (telegramChatId alerts));
    cbn; destruct (delivers Discord), (delivers Slack), (delivers Telegram); cbn; done.
Qed.

(** X23.  [sendAlert] serves Discord, Slack and Telegram in this order,
    each only if configured, and gives up at the first channel that
    fails: the later channels get nothing, and success is reported only
    when every channel in use delivered.  With a Discord client, an alert
    whose timestamp is not a time value is posted nowhere, not to Slack or
    Telegram either; without one it goes out like any other. *)
Theorem sendAlert_channels (threat : ThreatAlert) (delivers : channel -> bool) :
  let '(posted, ok) := sendAlert alerts discordClient formatAlertMessage threat delivers in
  if discordClient && negb (ThreatProcessor.validTime (alert_timestamp threat)) then
    posted = [] /\ ok = false
  else
    map channelOf posted = upToFailure delivers (configured alerts discordClient)
    /\ ok = forallb delivers (configured alerts discordClient).
Proof.
  destruct (ThreatProcessor.validTime (alert_timestamp threat)) eqn:Hvalid.
  - rewrite andb_false_r. by apply sendAlert_valid.
  - rewrite andb_true_r.
    unfold sendAlert, configured, sendDiscordAlert, sendSlackAlert, sendTelegramAlert, send.
    rewrite Hvalid.
    destruct discordClient, (truthy (slackWebhook alerts)),
      (truthy (telegramBotToken alerts)), (truthy (telegramChatId alerts));
      cbn; try done;
      destruct (delivers Slack), (delivers Telegram); cbn; done.
Qed.

(** X24.  The timestamp test of the threat processor shields the
    channels: whatever [handleThreat] hands to [sendAlert], the first time
    or again after a mitigation, has a time value as its timestamp, and so
    reaches the channels in use up to the first that fails. *)
Theorem dispatched_alert_is_posted (config : DetectorConfig) (threat a : ThreatAlert)
    (delivers : channel -> bool) :
  In a (Outcome.dispatched (snd (ThreatProcessor.handleThreat config threat))) ->
  ThreatProcessor.validTime (alert_timestamp a) = true
  /\ map channelOf (fst (sendAlert alerts discordClient formatAlertMessage a delivers))
     = upToFailure delivers (configured alerts discordClient).
Proof.
  intros Hin.
  assert (Hvalid : ThreatProcessor.validTime (alert_timestamp a) = true).
  { destruct (ThreatProcessor.validTime (alert_timestamp threat)) eqn:Hv.
    - rewrite (handleThreat_valid config threat Hv) in Hin. cbn [snd] in Hin.
      rewrite !dispatched_app in Hin.
      apply in_app_or in Hin as [Hin|Hin]; [done|].
      apply in_app_or in Hin as [Hin|Hin].
      + destruct (severity threat); cbn in Hin; try done;
          by destruct Hin as [<-|[]].
      + destruct (_ && _ && _); [|done].
        rewrite executeMitigation_dispatched in Hin. by destruct Hin as [<-|[]].
    - unfold ThreatProcessor.handleThreat in Hin. rewrite Hv in Hin. done. }
  split; [exact Hvalid|].
  pose proof (sendAlert_valid a delivers Hvalid) as H.
  destruct (sendAlert alerts discordClient formatAlertMessage a delivers) as [posted ok].
  apply H.
Qed.

End Channels.

Section BlockTime.

Import ThreatProcessor SocialAlertSystem EnhancedSeiThreatDetector.

(** X25.  The time that Slack is given for an alert is the timestamp of
    the block of the transaction, in seconds, as [parseInt(_, 16)] reads
    it: the milliseconds that [analyzeBlock] puts into the transaction
    come back out unchanged, for every alert of the analysis.  When the
    timestamp of the block cannot be read, both are NaN. *)
Theorem slack_ts_is_block_time (config : DetectorConfig) (st : ThreatProcessor.state)
    (block : Block) (raw : RawTransaction) (h : string) (c : clocks) :
  Forall (fun a => slackTs a
                   = JS.parseInt16 (default "undefined" (block_timestamp block)))
         (fst (fst (analyzeThreatPatterns config st (realTx block raw h) c))).
Proof.
  apply List.Forall_forall. intros a Hin.
  destruct (analysis_raisedFor config st (realTx block raw h) c a Hin) as (_ & Ht & _).
  unfold slackTs. rewrite Ht. cbn [timestamp realTx].
  rewrite parseInt16Z_number. destruct (JSMore.parseInt16Z _) as [z|]; [|done].
  cbn. unfold JS.of_Z. f_equal. f_equal.
  unfold Qfloor. cbn. rewrite Z.mul_1_r. apply Z.div_mul. done.
Qed.

End BlockTime.

Lemma dispatched_alert_is_posted_witness :
  ThreatProcessor.validTime (alert_timestamp Scenarios.rugAlert) = true
  /\ map SocialAlertSystem.channelOf
       (fst (SocialAlertSystem.sendAlert Scenarios.twoChannels false
               (fun _ => "alert") Scenarios.rugAlert Scenarios.slackDown))
     = SocialAlertSystem.upToFailure Scenarios.slackDown
         (SocialAlertSystem.configured Scenarios.twoChannels false).
Proof.
  apply (dispatched_alert_is_posted Scenarios.twoChannels false (fun _ => "alert")
           Samples.config Scenarios.rugAlert Scenarios.rugAlert Scenarios.slackDown).
  vm_compute. left. reflexivity.
Defined.

(** With Slack down, Telegram, though configured and up, gets nothing. *)
Example slack_down_starves_telegram :
  SocialAlertSystem.sendAlert Scenarios.twoChannels false (fun _ => "alert")
    Scenarios.rugAlert Scenarios.slackDown
  = ([SocialAlertSystem.Attachment "https://hooks.slack.com/services/T" "danger"
        "alert" (JS.of_Z 1700000000)], false).
Proof. by vm_compute. Qed.
